(** * Workflow execution core: router, trigger payload, deployment versions,
      one-time embed codes and the bot listing endpoint.

    A shallow embedding of the TypeScript sources of the Vyin integration
    (handlers under [executor/handlers/vyin], [lib/workflows/vyin-trigger.ts],
    [lib/auth/internal/embed-session.ts] and the deployment / bot listing API
    routes) together with the properties their specification states, followed
    by the code around them: the environment routes and the system-managed
    keys, the workspace id cache, the parameters of the chat response block,
    the text of signed requests, the embed script's cookie, the GIM base URL,
    the workspace scope of embed sessions and the fresh ids of a template.

    Conventions of the embedding:
    - a JavaScript value is a [JsVal]; numbers are the integral ones, strings
      are the strings whose code units are below 256, one [ascii] per code
      unit, so that [length], [trim], [toLowerCase] and the classes [\s] and
      [\d] are the language's own on them;
    - [Record<string, any>] and [Map<string, _>] are [gmap string _]; where
      the code depends on the order of the keys of an object, or reads or
      writes it under names that may be those of [Object.prototype], the
      object is the list of its own properties and the inherited members are
      modelled with it (see [TemplateIds]);
    - a function that may throw returns a [JsResult]; an [async] function
      whose [await]s matter is one step per stretch between them (see
      [EmbedSession]);
    - collaborators that live outside these sources (tool gateway, JSON
      codec, authentication, HTTP), and the prompt template, whose text no
      property depends on, are fields of an explicit record of externals, so
      every statement holds for all their behaviours. *)

From Stdlib Require Import ZArith String Ascii List Bool Lia.
From stdpp Require Import base option list gmap strings pretty.

Set Warnings "-register-all".

Local Open Scope string_scope.
Local Open Scope Z_scope.

(* ===================================================================== *)
(** ** JavaScript values, errors and strings *)
(* ===================================================================== *)

Module Js.

Inductive JsVal : Type :=
| VUndefined
| VNull
| VBool (b : bool)
| VNum (z : Z)
| VStr (s : string)
| VArr (items : list JsVal)
| VObj (fields : list (string * JsVal)).

(** Thrown values. [ToolFailure] is the [Error] the router decorates with
    [blockId], [blockName] and [output] through [Object.assign]. *)
Inductive JsError : Type :=
| Error (message : string)
| TypeError (message : string)
| SyntaxError (message : string)
| RangeError (message : string)
| ToolFailure (message blockId blockName : string) (output : JsVal).

Definition errorMessage (e : JsError) : string :=
  match e with
  | Error m | TypeError m | SyntaxError m | RangeError m | ToolFailure m _ _ _ => m
  end.

Inductive JsResult (A : Type) : Type :=
| Ok (a : A)
| Throw (e : JsError).
Arguments Ok {A} a.
Arguments Throw {A} e.

#[export] Instance JsResult_ret : MRet JsResult := fun A a => Ok a.
#[export] Instance JsResult_bind : MBind JsResult := fun A B f m =>
  match m with
  | Ok a => f a
  | Throw e => Throw e
  end.

(** [arr.map(f)] for a callback that may throw: elements are visited in
    order and the first throw aborts the traversal. *)
Fixpoint mapThrowing {A B : Type} (f : A -> JsResult B) (l : list A) : JsResult (list B) :=
  match l with
  | [] => Ok []
  | a :: l' =>
      match f a with
      | Throw e => Throw e
      | Ok b =>
          match mapThrowing f l' with
          | Throw e => Throw e
          | Ok bs => Ok (b :: bs)
          end
      end
  end.

(** Truthiness ([!x], [x || y], [if (x)]). *)
Definition truthy (v : JsVal) : bool :=
  match v with
  | VUndefined | VNull => false
  | VBool b => b
  | VNum z => negb (z =? 0)
  | VStr s => negb (String.eqb s "")
  | VArr _ | VObj _ => true
  end.

Definition jsOr (a b : JsVal) : JsVal := if truthy a then a else b.

(** [s || d] when [s] is a possibly missing string. *)
Definition strOr (s : option string) (d : string) : string :=
  match s with
  | Some x => if String.eqb x "" then d else x
  | None => d
  end.

Fixpoint lookupField (k : string) (fields : list (string * JsVal)) : option JsVal :=
  match fields with
  | [] => None
  | (k', v) :: rest => if String.eqb k k' then Some v else lookupField k rest
  end.

(** [v?.k]: [undefined] on a nullish receiver, the property otherwise.  Of the
    properties read in these sources only objects have any. *)
Definition optProp (v : JsVal) (k : string) : JsVal :=
  match v with
  | VObj fields => default VUndefined (lookupField k fields)
  | _ => VUndefined
  end.

(** [v.k]: a nullish receiver throws. *)
Definition prop (v : JsVal) (k : string) : JsResult JsVal :=
  match v with
  | VUndefined | VNull => Throw (TypeError ("Cannot read properties of null or undefined (reading '" +:+ k +:+ "')"))
  | _ => Ok (optProp v k)
  end.

(** [m.k] on a [Record<string, any>]. *)
Definition field (m : gmap string JsVal) (k : string) : JsVal :=
  default VUndefined (m !! k).

Definition joinWith (sep : string) (parts : list string) : string :=
  String.concat sep parts.

(** [String(v)] and [v.toString()] (numbers below 10^21 in magnitude, which
    print as their decimal digits). *)
Fixpoint toStr (v : JsVal) : string :=
  match v with
  | VUndefined => "undefined"
  | VNull => "null"
  | VBool true => "true"
  | VBool false => "false"
  | VNum z => pretty z
  | VStr s => s
  | VArr items =>
      joinWith ","
        (map (fun x => match x with
                       | VUndefined | VNull => ""
                       | _ => toStr x
                       end) items)
  | VObj _ => "[object Object]"
  end.

(** WhiteSpace and LineTerminator code points below 256: TAB, LF, VT, FF, CR,
    SPACE and NO-BREAK SPACE.  These are also the members of the regular
    expression class [\s] in that range. *)
Definition isWhiteSpace (c : ascii) : bool :=
  let n := nat_of_ascii c in
  ((9 <=? n)%nat && (n <=? 13)%nat) || (n =? 32)%nat || (n =? 160)%nat.

Definition isDigit (c : ascii) : bool :=
  let n := nat_of_ascii c in (48 <=? n)%nat && (n <=? 57)%nat.

Fixpoint trimStart (s : string) : string :=
  match s with
  | EmptyString => EmptyString
  | String c s' => if isWhiteSpace c then trimStart s' else s
  end.

Fixpoint trimEnd (s : string) : string :=
  match s with
  | EmptyString => EmptyString
  | String c s' =>
      match trimEnd s' with
      | EmptyString => if isWhiteSpace c then EmptyString else String c EmptyString
      | t => String c t
      end
  end.

Definition trim (s : string) : string := trimEnd (trimStart s).

(** Lower case of a code unit below 256: [A]-[Z] and the accented capitals
    U+00C0-U+00DE (the multiplication sign U+00D7 apart) move up by 32. *)
Definition lowerChar (c : ascii) : ascii :=
  let n := nat_of_ascii c in
  if ((65 <=? n)%nat && (n <=? 90)%nat)
     || ((192 <=? n)%nat && (n <=? 222)%nat && negb (n =? 215)%nat)
  then ascii_of_nat (n + 32) else c.

Fixpoint toLowerCase (s : string) : string :=
  match s with
  | EmptyString => EmptyString
  | String c s' => String (lowerChar c) (toLowerCase s')
  end.

(** [v.trim()] where the receiver is only statically a string. *)
Definition callTrim (v : JsVal) : JsResult string :=
  match v with
  | VStr s => Ok (trim s)
  | VUndefined | VNull => Throw (TypeError "Cannot read properties of null or undefined (reading 'trim')")
  | _ => Throw (TypeError "trim is not a function")
  end.

End Js.
Export Js.

(* ===================================================================== *)
(** ** Graph model and execution context *)
(* ===================================================================== *)

Module Graph.

(** The serializer's and executor's type declarations are not part of the
    sources at hand; the records below carry the members these sources read. *)
Record BlockMetadata : Type := {
  meta_id : option string;
  meta_name : option string;
  meta_description : option string
}.

Record SerializedBlock : Type := {
  b_id : string;
  b_metadata : option BlockMetadata;
  b_tool : string;
  b_params : gmap string JsVal;
  b_inputs : option (gmap string JsVal)
}.

Record SerializedConnection : Type := {
  conn_source : string;
  conn_target : string
}.

Record SerializedWorkflow : Type := {
  wf_blocks : list SerializedBlock;
  wf_connections : list SerializedConnection
}.

Record BlockState : Type := {
  bs_output : option (gmap string JsVal)
}.

Record ExecutionContext : Type := {
  ctx_workflowId : string;
  ctx_workspaceId : option string;
  ctx_workflow : option SerializedWorkflow;
  ctx_blockStates : gmap string BlockState
}.

(** [block.metadata?.id], [block.metadata?.name], [block.metadata?.description] *)
Definition metadataId (b : SerializedBlock) : option string := b_metadata b ≫= meta_id.
Definition metadataName (b : SerializedBlock) : option string := b_metadata b ≫= meta_name.
Definition metadataDescription (b : SerializedBlock) : option string :=
  b_metadata b ≫= meta_description.

(** [blocks.find((b) => b.id === target)] *)
Definition findBlock (target : string) (blocks : list SerializedBlock) : option SerializedBlock :=
  List.find (fun b => bool_decide (b_id b = target)) blocks.

(** [context.blockStates.get(id)?.output] *)
Definition stateOutput (context : ExecutionContext) (id : string) : option (gmap string JsVal) :=
  (ctx_blockStates context !! id) ≫= bs_output.

End Graph.
Export Graph.

(* ===================================================================== *)
(** ** lib/workflows/vyin-trigger.ts *)
(* ===================================================================== *)

Module VyinTrigger.

(** The object literal returned when the trigger block has an output. *)
Definition projectPayload (out : gmap string JsVal) : gmap string JsVal :=
  list_to_map
    [ ("content", field out "content");
      ("api_token", field out "api_token");
      ("sender_id", field out "sender_id");
      ("app_id", field out "app_id");
      ("channel_url", field out "channel_url");
      ("bot_user_id", field out "bot_user_id");
      ("bot_uid", field out "bot_uid");
      ("bot_nickname", field out "bot_nickname");
      ("bot_profile_url", field out "bot_profile_url");
      ("bot_character", field out "bot_character");
      ("bot_metadata", field out "bot_metadata") ].

Definition isVyinChatbot (b : SerializedBlock) : bool :=
  bool_decide (metadataId b = Some "vyin_chatbot").

Definition getVyinChatTriggerPayload (context : ExecutionContext) : gmap string JsVal :=
  match ctx_workflow context with
  | None => ∅
  | Some wf =>
      match List.find isVyinChatbot (wf_blocks wf) with
      | None => ∅
      | Some vyin =>
          match stateOutput context (b_id vyin) with
          | None => ∅
          | Some out => projectPayload out
          end
      end
  end.

End VyinTrigger.
Export VyinTrigger.

(* ===================================================================== *)
(** ** executor/handlers/vyin/vyin-intent-router-handler.ts *)
(* ===================================================================== *)

Module VyinIntentRouter.

(** Block type tags of [@/executor/consts], a module outside these sources. *)
Record BlockTypeConsts : Type := {
  VYIN_INTENT_ROUTER : string;
  AGENT : string
}.

(** The descriptor built for each candidate. *)
Record TargetBlock : Type := {
  tb_id : string;
  tb_type : option string;
  tb_title : option string;
  tb_description : option string;
  tb_subBlocks : gmap string JsVal;
  tb_currentState : option (gmap string JsVal)
}.

Record ToolParams : Type := {
  tp_url : string;
  tp_apiToken : string;
  tp_botId : string;
  tp_prompt : string;
  tp_systemPrompt : string;
  tp_workflowId : string;
  tp_workspaceId : option string
}.

Record ToolResult : Type := {
  tr_success : bool;
  tr_output : JsVal;
  tr_error : option string
}.

(** Collaborators of the handler: the tool registry, the tool invocation
    gateway, the base URL helper (it reads the process environment) and the
    prompt template.  The template builds a text no property below depends
    on; it throws a [TypeError] when the [keywords] of a route are truthy but
    no string, or when the sub-blocks or the state of a candidate cannot be
    serialised by [JSON.stringify]. *)
Record Externals : Type := {
  BlockType : BlockTypeConsts;
  getTool : string -> bool;
  getGimBaseUrl : string -> string;
  generateIntentRouterPrompt :
    list (JsVal * JsVal) -> string -> option (list TargetBlock) -> JsResult string;
  executeTool : string -> ToolParams -> ExecutionContext -> ToolResult
}.

Record SelectedPath : Type := {
  blockId : string;
  blockType : string;
  blockTitle : string
}.

Record BlockOutput : Type := {
  userInput : string;
  selectedPath : SelectedPath
}.

Definition canHandle (ext : Externals) (block : SerializedBlock) : bool :=
  bool_decide (metadataId block = Some (VYIN_INTENT_ROUTER (BlockType ext))).

(** [targetBlock.inputs?.systemPrompt] *)
Definition inputsSystemPrompt (b : SerializedBlock) : JsVal :=
  match b_inputs b with
  | Some i => field i "systemPrompt"
  | None => VUndefined
  end.

(** The [systemPrompt] local of the [map] callback. *)
Definition extractSystemPrompt (ext : Externals) (targetBlock : SerializedBlock) : JsVal :=
  if bool_decide (metadataId targetBlock = Some (AGENT (BlockType ext))) then
    let systemPrompt :=
      jsOr (jsOr (field (b_params targetBlock) "systemPrompt") (inputsSystemPrompt targetBlock))
           (VStr "") in
    if negb (truthy systemPrompt) && bool_decide (is_Some (b_inputs targetBlock))
    then jsOr (inputsSystemPrompt targetBlock) (VStr "")
    else systemPrompt
  else VStr "".

(** The [map] callback of [getTargetBlocks]. *)
Definition describeTarget (ext : Externals) (context : ExecutionContext)
    (wf : SerializedWorkflow) (conn : SerializedConnection) : JsResult TargetBlock :=
  match findBlock (conn_target conn) (wf_blocks wf) with
  | None => Throw (Error ("Target block " +:+ conn_target conn +:+ " not found"))
  | Some targetBlock =>
      Ok {| tb_id := b_id targetBlock;
            tb_type := metadataId targetBlock;
            tb_title := metadataName targetBlock;
            tb_description := metadataDescription targetBlock;
            tb_subBlocks :=
              <["systemPrompt" := extractSystemPrompt ext targetBlock]> (b_params targetBlock);
            tb_currentState := stateOutput context (b_id targetBlock) |}
  end.

(** [new Set(connections.filter(conn => conn.target === block.id).map(conn => conn.source))] *)
Definition previousBlockIds (block : SerializedBlock) (wf : SerializedWorkflow) : gset string :=
  list_to_set
    (map conn_source (filter (fun conn => conn_target conn = b_id block) (wf_connections wf))).

(** [undefined] (here [None]) when the context has no workflow. *)
Definition getTargetBlocks (ext : Externals) (block : SerializedBlock)
    (context : ExecutionContext) : JsResult (option (list TargetBlock)) :=
  match ctx_workflow context with
  | None => Ok None
  | Some wf =>
      described ←
        mapThrowing (describeTarget ext context wf)
          (filter (fun conn => conn_source conn = b_id block) (wf_connections wf));
      Ok (Some (filter (fun targetBlock => tb_id targetBlock ∉ previousBlockIds block wf)
                       described))
  end.

(** [inputs.intentRoutes] turned into the [routes] argument of the template. *)
Definition routesOf (inputs : gmap string JsVal) : list (JsVal * JsVal) :=
  match field inputs "intentRoutes" with
  | VArr items =>
      map (fun r => (jsOr (optProp r "routeTo") (VStr ""),
                     jsOr (optProp r "keywords") (VStr ""))) items
  | _ => []
  end.

(** [targetBlocks?.find((b) => b.id === chosenBlockId)] *)
Definition findChosen (targetBlocks : option (list TargetBlock)) (chosenBlockId : string)
    : option TargetBlock :=
  targetBlocks ≫= List.find (fun b => bool_decide (tb_id b = chosenBlockId)).

(** [String(result.output?.response || '').trim().toLowerCase()] *)
Definition responseTextOf (result : ToolResult) : string :=
  toLowerCase (trim (toStr (jsOr (optProp (tr_output result) "response") (VStr "")))).

(** Everything [execute] does before it calls the gateway: the tool id and the
    request parameters, or the validation error thrown on the way. *)
Definition prepare (ext : Externals) (block : SerializedBlock) (inputs : gmap string JsVal)
    (context : ExecutionContext) (targetBlocks : option (list TargetBlock))
    : JsResult (string * ToolParams) :=
  let toolId := strOr (Some (b_tool block)) "vyin_bot_assistant" in
  if negb (getTool ext toolId) then Throw (Error ("Tool not found: " +:+ toolId)) else
  let vyin := getVyinChatTriggerPayload context in
  appIdFromTrigger ← callTrim (jsOr (field vyin "app_id") (VStr ""));
  apiTokenFromTrigger ← callTrim (jsOr (field vyin "api_token") (VStr ""));
  let botProfile := trim (toStr (jsOr (field inputs "botProfile") (VStr ""))) in
  let userInput := toStr (jsOr (field inputs "userInput") (VStr "")) in
  if String.eqb botProfile "" then Throw (Error "Bot profile is required") else
  if String.eqb userInput "" then Throw (Error "User input is required") else
  let resolvedAppId := appIdFromTrigger in
  let resolvedApiToken := apiTokenFromTrigger in
  if String.eqb resolvedAppId "" then Throw (Error "Missing GIM application ID") else
  if String.eqb resolvedApiToken "" then Throw (Error "Missing GIM API token") else
  let baseUrl := getGimBaseUrl ext resolvedAppId in
  let url := baseUrl +:+ "/v1/applications/" +:+ resolvedAppId +:+ "/bots/" +:+ botProfile +:+ "/ask" in
  systemPrompt ← generateIntentRouterPrompt ext (routesOf inputs) userInput targetBlocks;
  Ok (toolId,
      {| tp_url := url;
         tp_apiToken := resolvedApiToken;
         tp_botId := botProfile;
         tp_prompt := systemPrompt;
         tp_systemPrompt := systemPrompt;
         tp_workflowId := ctx_workflowId context;
         tp_workspaceId := ctx_workspaceId context |}).

(** What [execute] does with the gateway's answer. *)
Definition decide_route (block : SerializedBlock) (inputs : gmap string JsVal)
    (targetBlocks : option (list TargetBlock)) (result : ToolResult) : JsResult BlockOutput :=
  if negb (tr_success result) then
    Throw (ToolFailure (strOr (tr_error result) "vyin_bot_assistant failed")
                       (b_id block)
                       (strOr (metadataName block) "Intent Router")
                       (jsOr (tr_output result) (VObj [])))
  else
    let responseText := responseTextOf result in
    let chosenBlockId := responseText in
    match findChosen targetBlocks chosenBlockId with
    | None => Throw (Error ("Invalid routing decision: " +:+ chosenBlockId))
    | Some chosenBlock =>
        Ok {| userInput := toStr (jsOr (field inputs "userInput") (VStr ""));
              selectedPath :=
                {| blockId := tb_id chosenBlock;
                   blockType := strOr (tb_type chosenBlock) "unknown";
                   blockTitle := strOr (tb_title chosenBlock) "Untitled Block" |} |}
    end.

(** The [catch] clause only logs and rethrows, so it leaves no trace here. *)
Definition execute (ext : Externals) (block : SerializedBlock) (inputs : gmap string JsVal)
    (context : ExecutionContext) : JsResult BlockOutput :=
  targetBlocks ← getTargetBlocks ext block context;
  request ← prepare ext block inputs context targetBlocks;
  let result := executeTool ext request.1 request.2 context in
  decide_route block inputs targetBlocks result.

End VyinIntentRouter.
Export VyinIntentRouter.

(* ===================================================================== *)
(** ** Deployment version store and its HTTP routes *)
(* ===================================================================== *)

Module Deployments.

(** [Number(version)] for a path segment: the segments that denote an integer
    and those that denote no finite number. *)
Inductive JsNumber : Type :=
| Finite (z : Z)
| NotFinite.

(** Modelled from the spec: the schema module [@sim/db] is not among the
    sources.  A deployment version row has [workflowId], a [version] unique per
    workflow, [name], [state], [isActive], [createdBy] and [createdAt]; the
    routes also read the row's own [id]. *)
Record DeploymentVersionRow : Type := {
  dv_id : string;
  dv_workflowId : string;
  dv_version : Z;
  dv_name : option string;
  dv_state : JsVal;
  dv_isActive : bool;
  dv_createdBy : option string;
  dv_createdAt : Z
}.

(** Modelled from the spec: the parent workflow row, of which the routes write
    [isDeployed] and [deployedAt]. *)
Record WorkflowRow : Type := {
  w_id : string;
  w_isDeployed : bool;
  w_deployedAt : option Z
}.

Record Db : Type := {
  workflowDeploymentVersion : list DeploymentVersionRow;
  workflow : list WorkflowRow
}.

Definition set_isActive (v : bool) (r : DeploymentVersionRow) : DeploymentVersionRow :=
  {| dv_id := dv_id r; dv_workflowId := dv_workflowId r; dv_version := dv_version r;
     dv_name := dv_name r; dv_state := dv_state r; dv_isActive := v;
     dv_createdBy := dv_createdBy r; dv_createdAt := dv_createdAt r |}.

Definition set_name (n : string) (r : DeploymentVersionRow) : DeploymentVersionRow :=
  {| dv_id := dv_id r; dv_workflowId := dv_workflowId r; dv_version := dv_version r;
     dv_name := Some n; dv_state := dv_state r; dv_isActive := dv_isActive r;
     dv_createdBy := dv_createdBy r; dv_createdAt := dv_createdAt r |}.

Definition set_deployed (now : Z) (w : WorkflowRow) : WorkflowRow :=
  {| w_id := w_id w; w_isDeployed := true; w_deployedAt := Some now |}.

Definition with_versions (rows : list DeploymentVersionRow) (db : Db) : Db :=
  {| workflowDeploymentVersion := rows; workflow := workflow db |}.

Definition with_workflows (rows : list WorkflowRow) (db : Db) : Db :=
  {| workflowDeploymentVersion := workflowDeploymentVersion db; workflow := rows |}.

(** [update(table).set(...).where(cond)] *)
Definition updateWhere {A : Type} (cond : A -> bool) (set : A -> A) (rows : list A) : list A :=
  map (fun r => if cond r then set r else r) rows.

(** The rows an [update ... where cond ... returning] reports: the matching
    rows, as updated. *)
Definition returningWhere {A : Type} (cond : A -> bool) (set : A -> A) (rows : list A) : list A :=
  map set (List.filter cond rows).

(** [and(eq(workflowId, id), eq(isActive, true))] *)
Definition isActiveOf (id : string) (r : DeploymentVersionRow) : bool :=
  bool_decide (dv_workflowId r = id) && dv_isActive r.

(** [and(eq(workflowId, id), eq(version, versionNum))] *)
Definition isVersionOf (id : string) (versionNum : Z) (r : DeploymentVersionRow) : bool :=
  bool_decide (dv_workflowId r = id) && (dv_version r =? versionNum).

(** [db.transaction(body)]: the writes of [body] are kept when it returns and
    discarded when it throws; the error is rethrown to the caller. *)
Definition transaction (body : Db -> JsResult Db) (db : Db) : Db * JsResult unit :=
  match body db with
  | Ok db' => (db', Ok tt)
  | Throw e => (db, Throw e)
  end.

Record AuthResult : Type := {
  auth_success : bool;
  auth_userId : option string
}.

Record AccessContext : Type := {
  isOwner : bool;
  workspacePermission : option string
}.

(** API key authentication and workflow access lookup, both outside the
    sources. *)
Record Externals : Type := {
  authenticateApiKeyFromHeader : string -> AuthResult;
  getWorkflowAccessContext : string -> string -> option AccessContext
}.

Record Request : Type := {
  req_headers : gmap string string;
  req_id : string;
  req_versionNum : JsNumber;
  req_json : JsResult JsVal;
  req_now : Z
}.

Record Response : Type := {
  status : Z;
  body : JsVal
}.

(** [NextResponse.json(body, { status })] *)
Definition json (b : JsVal) (st : Z) : Response := {| status := st; body := b |}.

(** Modelled from the spec: [createErrorResponse] and [createSuccessResponse]
    of [@/app/api/workflows/utils] are not among the sources; an error answer
    carries [{error}] with the given status, a success answer is a 200. *)
Definition createErrorResponse (message : string) (st : Z) : Response :=
  json (VObj [("error", VStr message)]) st.

Definition createSuccessResponse (data : JsVal) : Response := json data 200.

(** [hdrs.get('x-api-key') || hdrs.get('X-API-Key')]; header names are matched
    without regard to case, so their lower-case form is the key. *)
Definition headersGet (hdrs : gmap string string) (name : string) : option string :=
  hdrs !! toLowerCase name.

Definition apiKeyHeaderOf (hdrs : gmap string string) : option string :=
  match headersGet hdrs "x-api-key" with
  | Some k => if String.eqb k "" then headersGet hdrs "X-API-Key" else Some k
  | None => headersGet hdrs "X-API-Key"
  end.

(** The user id of a request that passes the API key check, or the 401. *)
Definition authenticate (ext : Externals) (req : Request) : Response + string :=
  match apiKeyHeaderOf (req_headers req) with
  | None => inl (json (VObj [("error", VStr "API key required")]) 401)
  | Some apiKeyHeader =>
      if String.eqb apiKeyHeader "" then
        inl (json (VObj [("error", VStr "API key required")]) 401)
      else
        let auth := authenticateApiKeyFromHeader ext apiKeyHeader in
        match auth_userId auth with
        | Some userId =>
            if auth_success auth && negb (String.eqb userId "") then inr userId
            else inl (json (VObj [("error", VStr "Unauthorized")]) 401)
        | None => inl (json (VObj [("error", VStr "Unauthorized")]) 401)
        end
  end.

(** [error.message || fallback] of the [catch] clauses. *)
Definition messageOr (e : JsError) (fallback : string) : string :=
  strOr (Some (errorMessage e)) fallback.

End Deployments.
Export Deployments.

(** *** app/api/internal/workflows/[id]/deployments/[version]/activate/route.ts *)
Module ActivateRoute.

(** The callback handed to [db.transaction]. *)
Definition activateTx (id : string) (versionNum : Z) (now : Z) (tx : Db) : JsResult Db :=
  let tx1 :=
    with_versions
      (updateWhere (isActiveOf id) (set_isActive false) (workflowDeploymentVersion tx)) tx in
  let updated :=
    map dv_id
      (returningWhere (isVersionOf id versionNum) (set_isActive true)
         (workflowDeploymentVersion tx1)) in
  let tx2 :=
    with_versions
      (updateWhere (isVersionOf id versionNum) (set_isActive true)
         (workflowDeploymentVersion tx1)) tx1 in
  if (length updated =? 0)%nat then Throw (Error "Deployment version not found")
  else
    Ok (with_workflows
          (updateWhere (fun w => bool_decide (w_id w = id)) (set_deployed now) (workflow tx2))
          tx2).

Definition POST (ext : Externals) (req : Request) (db : Db) : Db * Response :=
  match authenticate ext req with
  | inl unauthorized => (db, unauthorized)
  | inr _ =>
      match req_versionNum req with
      | NotFinite => (db, createErrorResponse "Invalid version" 400)
      | Finite versionNum =>
          let now := req_now req in
          match transaction (activateTx (req_id req) versionNum now) db with
          | (db', Ok _) =>
              (db', createSuccessResponse
                      (VObj [("success", VBool true); ("deployedAt", VNum now)]))
          | (db', Throw error) =>
              (db', createErrorResponse (messageOr error "Failed to activate deployment") 500)
          end
      end
  end.

End ActivateRoute.

(** *** The [deployments/[version]] route: [GET] and [PATCH] *)
Module VersionRoute.

(** The rows of [select ... where (workflowId, version) limit 1]. *)
Definition selectVersion (id : string) (versionNum : Z) (db : Db) : option DeploymentVersionRow :=
  head (List.filter (isVersionOf id versionNum) (workflowDeploymentVersion db)).

Definition GET (ext : Externals) (req : Request) (db : Db) : Response :=
  match authenticate ext req with
  | inl unauthorized => unauthorized
  | inr userId =>
      match getWorkflowAccessContext ext (req_id req) userId with
      | None => json (VObj [("error", VStr "Workflow not found")]) 404
      | Some accessContext =>
          let hasAccess :=
            isOwner accessContext || negb (String.eqb (strOr (workspacePermission accessContext) "") "") in
          if negb hasAccess then json (VObj [("error", VStr "Access denied")]) 403 else
          match req_versionNum req with
          | NotFinite => createErrorResponse "Invalid version" 400
          | Finite versionNum =>
              match selectVersion (req_id req) versionNum db with
              | Some row =>
                  if truthy (dv_state row)
                  then createSuccessResponse (VObj [("deployedState", dv_state row)])
                  else createErrorResponse "Deployment version not found" 404
              | None => createErrorResponse "Deployment version not found" 404
              end
          end
      end
  end.

Definition canWriteOf (accessContext : AccessContext) : bool :=
  isOwner accessContext
  || bool_decide (workspacePermission accessContext = Some "admin")
  || bool_decide (workspacePermission accessContext = Some "write").

Definition nameToJs (n : option string) : JsVal :=
  match n with
  | Some s => VStr s
  | None => VNull
  end.

(** The body of the [try] block of [PATCH], from [request.json()] on. *)
Definition renameBody (id : string) (versionNum : Z) (parsed : JsResult JsVal) (db : Db)
    : JsResult (Db * Response) :=
  body ← parsed;
  name ← prop body "name";
  match name with
  | VStr name =>
      let trimmedName := trim name in
      if (String.length trimmedName =? 0)%nat then
        Ok (db, createErrorResponse "Name cannot be empty" 400)
      else if (100 <? String.length trimmedName)%nat then
        Ok (db, createErrorResponse "Name must be 100 characters or less" 400)
      else
        let cond := isVersionOf id versionNum in
        let returned := returningWhere cond (set_name trimmedName) (workflowDeploymentVersion db) in
        let db' :=
          with_versions (updateWhere cond (set_name trimmedName) (workflowDeploymentVersion db)) db in
        match returned with
        | [] => Ok (db', createErrorResponse "Deployment version not found" 404)
        | updated :: _ =>
            Ok (db', createSuccessResponse (VObj [("name", nameToJs (dv_name updated))]))
        end
  | _ => Ok (db, createErrorResponse "Name must be a string" 400)
  end.

Definition PATCH (ext : Externals) (req : Request) (db : Db) : Db * Response :=
  match authenticate ext req with
  | inl unauthorized => (db, unauthorized)
  | inr userId =>
      match getWorkflowAccessContext ext (req_id req) userId with
      | None => (db, json (VObj [("error", VStr "Workflow not found")]) 404)
      | Some accessContext =>
          if negb (canWriteOf accessContext) then
            (db, json (VObj [("error", VStr "Access denied")]) 403)
          else
            match req_versionNum req with
            | NotFinite => (db, createErrorResponse "Invalid version" 400)
            | Finite versionNum =>
                match renameBody (req_id req) versionNum (req_json req) db with
                | Ok out => out
                | Throw error =>
                    (db, createErrorResponse
                           (messageOr error "Failed to rename deployment version") 500)
                end
            end
      end
  end.

End VersionRoute.

(* ===================================================================== *)
(** ** lib/auth/internal/embed-session.ts *)
(* ===================================================================== *)

Module EmbedSession.

(** The JSON codec of the language, as its library types it. *)
Record Json : Type := {
  JSON_stringify : JsVal -> string;
  JSON_parse : string -> JsResult JsVal
}.

Record Entry : Type := {
  value : string;
  expiry : Z
}.

(** The Redis server behind [getRedisClient()]: whether it answers the next
    command (a command to a server that does not answer rejects, which the
    caller sees as a throw at its [await]) and the keys it holds, each with
    the instant (in milliseconds) at which its [EX] time to live runs out. *)
Record Server : Type := {
  answers : bool;
  entries : gmap string Entry
}.

(** The process-wide stores.  [redis] is [None] when [getRedisClient()]
    returns [null]. *)
Record Stores : Type := {
  redis : option Server;
  inMemoryCodes : gmap string Entry
}.

Definition CODE_PREFIX : string := "embed-code:".
Definition CODE_TTL_SECONDS : Z := 120.

(** The rejection of a command the server does not answer. *)
Definition connectionError : JsError := Error "Connection is closed.".

(** [redis.set(key, value, 'EX', ttl)] on the keys of the server: a time to
    live must be positive. *)
Definition redis_set (key value : string) (ttlSeconds now : Z) (db : gmap string Entry)
    : JsResult (gmap string Entry) :=
  if ttlSeconds <=? 0 then Throw (Error "ERR invalid expire time in 'set' command")
  else Ok (<[key := {| value := value; expiry := now + ttlSeconds * 1000 |}]> db).

(** [redis.get(key)]: a key whose time to live has run out is gone. *)
Definition redis_get (key : string) (now : Z) (db : gmap string Entry) : option string :=
  match db !! key with
  | Some e => if now <? expiry e then Some (value e) else None
  | None => None
  end.

Definition redis_del (key : string) (db : gmap string Entry) : gmap string Entry :=
  delete key db.

(** The server after a command that changed its keys. *)
Definition with_entries (db : gmap string Entry) (st : Stores) (srv : Server) : Stores :=
  {| redis := Some {| answers := answers srv; entries := db |};
     inMemoryCodes := inMemoryCodes st |}.

(** [try { return JSON.parse(text) } catch { return null }] *)
Definition parseOrNull (codec : Json) (text : string) : JsResult JsVal :=
  match JSON_parse codec text with
  | Ok v => Ok v
  | Throw _ => Ok VNull
  end.

(** [storeCode] has one [await], so it is one step. *)
Definition storeCode (codec : Json) (code : string) (payload : JsVal) (ttlSeconds : Z)
    (now : Z) (st : Stores) : JsResult Stores :=
  let key := CODE_PREFIX +:+ code in
  let value := JSON_stringify codec payload in
  match redis st with
  | Some srv =>
      if answers srv then
        db' ← redis_set key value ttlSeconds now (entries srv);
        Ok (with_entries db' st srv)
      else Throw connectionError
  | None =>
      Ok {| redis := None;
            inMemoryCodes :=
              <[key := {| value := value; expiry := now + ttlSeconds * 1000 |}]>
                (inMemoryCodes st) |}
  end.

(** Where a call of [consumeCode] stands when it gives up control for the
    first time: it has returned or thrown, or it holds the text [redis.get]
    answered and waits to send [redis.del].  Other calls run in between. *)
Inductive Consuming : Type :=
| Finished (result : JsResult JsVal)
| AwaitingDel (value : string).

(** [consumeCode] up to the point where it has sent [redis.get] and looked at
    the answer; without a Redis client the whole call, which has no [await]. *)
Definition consumeCode_begin (codec : Json) (code : string) (now : Z) (st : Stores)
    : Consuming * Stores :=
  let key := CODE_PREFIX +:+ code in
  match redis st with
  | Some srv =>
      if answers srv then
        match redis_get key now (entries srv) with
        | None => (Finished (Ok VNull), st)
        | Some value =>
            if String.eqb value "" then (Finished (Ok VNull), st)
            else (AwaitingDel value, st)
        end
      else (Finished (Throw connectionError), st)
  | None =>
      match inMemoryCodes st !! key with
      | None => (Finished (Ok VNull), st)
      | Some entry =>
          let st' := {| redis := None; inMemoryCodes := delete key (inMemoryCodes st) |} in
          if expiry entry <? now then (Finished (Ok VNull), st')
          else (Finished (parseOrNull codec (value entry)), st')
      end
  end.

(** The rest of the Redis branch: [await redis.del(key)], then the text that
    [redis.get] had answered is parsed.  The call holds the client it found at
    its start, so no call gets here without one. *)
Definition consumeCode_end (codec : Json) (code : string) (value : string) (st : Stores)
    : JsResult JsVal * Stores :=
  let key := CODE_PREFIX +:+ code in
  match redis st with
  | Some srv =>
      if answers srv then
        (parseOrNull codec value, with_entries (redis_del key (entries srv)) st srv)
      else (Throw connectionError, st)
  | None => (parseOrNull codec value, st)
  end.

(** A call of [consumeCode] during which nothing else touches the stores. *)
Definition consumeCode (codec : Json) (code : string) (now : Z) (st : Stores)
    : JsResult JsVal * Stores :=
  match consumeCode_begin codec code now st with
  | (Finished result, st') => (result, st')
  | (AwaitingDel value, st') => consumeCode_end codec code value st'
  end.

(** The entry the store in use holds for [code], if any. *)
Definition stored (code : string) (st : Stores) : option Entry :=
  let key := CODE_PREFIX +:+ code in
  match redis st with
  | Some srv => entries srv !! key
  | None => inMemoryCodes st !! key
  end.

End EmbedSession.

(* ===================================================================== *)
(** ** lib/gim.ts and the bot listing route app/api/tools/vyin/bots *)
(* ===================================================================== *)

Module BotsRoute.

Definition dquote : string := String "034"%char EmptyString.

(** [envMap[a] || envMap[b] || undefined] *)
Definition firstNonEmpty (envMap : gmap string string) (a b : string) : option string :=
  match envMap !! a with
  | Some x => if String.eqb x "" then
                match envMap !! b with
                | Some y => if String.eqb y "" then None else Some y
                | None => None
                end
              else Some x
  | None =>
      match envMap !! b with
      | Some y => if String.eqb y "" then None else Some y
      | None => None
      end
  end.

Definition getGimApplicationCredentials (envMap : gmap string string)
    : option string * option string :=
  (firstNonEmpty envMap "SYSTEM_MANAGED_GIM_APPLICATION_ID" "GIM_APPLICATION_ID",
   firstNonEmpty envMap "SYSTEM_MANAGED_GIM_APPLICATION_API_TOKEN" "GIM_APPLICATION_API_TOKEN").

Fixpoint dropChars (n : nat) (s : string) : string :=
  match n, s with
  | O, _ => s
  | S n', String _ s' => dropChars n' s'
  | S _, EmptyString => EmptyString
  end.

Fixpoint takeWhileChar (p : ascii -> bool) (s : string) : string :=
  match s with
  | String c s' => if p c then String c (takeWhileChar p s') else EmptyString
  | EmptyString => EmptyString
  end.

(** The pattern's literal head, a quoted key followed by a colon. *)
Definition keyColon (key : string) : string := dquote +:+ key +:+ dquote +:+ ":".

(** A match of [/"key":\s*(\d+)/] anchored at the start of [s]: the captured
    digits and the length of the whole match.  Both [\s*] and [\d+] are
    greedy, and giving back white space can never make [\d+] succeed, so the
    first attempt decides. *)
Definition matchAt (key : string) (s : string) : option (string * nat) :=
  if String.prefix (keyColon key) s then
    let afterKey := dropChars (String.length (keyColon key)) s in
    let spaces := takeWhileChar isWhiteSpace afterKey in
    let digits := takeWhileChar isDigit (dropChars (String.length spaces) afterKey) in
    if String.eqb digits "" then None
    else Some (digits,
               (String.length (keyColon key) + String.length spaces + String.length digits)%nat)
  else None.

(** [s.replace(/"key":\s*(\d+)/g, '"key":"$1"')], scanning left to right;
    [skip] counts the characters of the current match still to be passed. *)
Fixpoint replaceFrom (key : string) (skip : nat) (s : string) : string :=
  match s with
  | EmptyString => EmptyString
  | String c s' =>
      match skip with
      | S k => replaceFrom key k s'
      | O =>
          match matchAt key s with
          | Some (digits, len) =>
              keyColon key +:+ dquote +:+ digits +:+ dquote +:+ replaceFrom key (len - 1) s'
          | None => String c (replaceFrom key 0 s')
          end
      end
  end.

Definition quoteIntegerField (key : string) (s : string) : string := replaceFrom key 0 s.

(** [fixedResponseText] *)
Definition fixResponseText (responseText : string) : string :=
  quoteIntegerField "license_id" (quoteIntegerField "bot_id" responseText).

(** The double nearest to an integer (ties to even): what a native number
    decode makes of an integer literal below the overflow threshold. *)
Definition nearestDouble (n : Z) : Z :=
  let a := Z.abs n in
  let bits := Z.log2 a + 1 in
  if bits <=? 53 then n
  else
    let sh := bits - 53 in
    let q := Z.shiftr a sh in
    let r := a - Z.shiftl q sh in
    let half := Z.shiftl 1 (sh - 1) in
    let q' := if r <? half then q
              else if half <? r then q + 1
              else if Z.even q then q else q + 1 in
    Z.sgn n * Z.shiftl q' sh.

Record FetchResponse : Type := {
  fr_ok : bool;
  fr_status : Z;
  fr_statusText : string;
  fr_text : string
}.

(** Session lookup, the decrypted environment, the base URL helper (it reads
    the process environment), query string encoding, the HTTP client and the
    JSON decoder. *)
Record Externals : Type := {
  getSession : option string;
  getEffectiveDecryptedEnv : string -> gmap string string;
  getGimBaseUrl : string -> string;
  encodeQueryValue : string -> string;
  fetch : string -> string -> JsResult FetchResponse;
  JSON_parse : string -> JsResult JsVal
}.

(** [params.toString()] for [limit] and the optional [token]. *)
Definition queryString (ext : Externals) (pageToken : option string) : string :=
  match pageToken with
  | Some t => if String.eqb t "" then "limit=20"
              else "limit=20&token=" +:+ encodeQueryValue ext t
  | None => "limit=20"
  end.

(** The object handed to [NextResponse.json] once the body is decoded. *)
Definition summarize (data : JsVal) : JsResult Response :=
  results ← prop data "results";
  count ← prop data "count";
  next ← prop data "next";
  previous ← prop data "previous";
  Ok (json (VObj [("bots", jsOr results (VArr []));
                  ("total", jsOr count (VNum 0));
                  ("next", next);
                  ("previous", previous)]) 200).

(** [NextResponse.json(body, { status })] for a status taken from elsewhere:
    the [Response] constructor refuses a status outside 200..599, and a body
    together with a status that allows none (the messages are those of Node's
    [fetch] implementation). *)
Definition jsonWithStatus (body : JsVal) (status : Z) : JsResult Response :=
  if (status <? 200) || (599 <? status) then
    Throw (RangeError ("init[" +:+ dquote +:+ "status" +:+ dquote
                       +:+ "] must be in the range of 200 to 599, inclusive."))
  else if (status =? 204) || (status =? 205) || (status =? 304) then
    Throw (TypeError ("Response constructor: Invalid response status code " +:+ pretty status))
  else Ok (json body status).

(** The statements of the [try] block after the credentials check. *)
Definition listBots (ext : Externals) (pageToken : option string) (appId apiToken : string)
    : JsResult Response :=
  let base := getGimBaseUrl ext appId in
  let apiUrl := base +:+ "/v2/applications/" +:+ appId +:+ "/bots?" +:+ queryString ext pageToken in
  response ← fetch ext apiUrl apiToken;
  if negb (fr_ok response) then
    jsonWithStatus
      (VObj [("error",
              VStr ("Failed to fetch bots from GIM API: " +:+ pretty (fr_status response)
                    +:+ " " +:+ fr_statusText response))])
      (fr_status response)
  else
    let responseText := fr_text response in
    let fixedResponseText := fixResponseText responseText in
    data ← JSON_parse ext fixedResponseText;
    summarize data.

Definition GET (ext : Externals) (pageToken : option string) : Response :=
  match getSession ext with
  | None => json (VObj [("error", VStr "Unauthorized")]) 401
  | Some userId =>
      if String.eqb userId "" then json (VObj [("error", VStr "Unauthorized")]) 401 else
      let envMap := getEffectiveDecryptedEnv ext userId in
      match getGimApplicationCredentials envMap with
      | (Some appId, Some apiToken) =>
          match listBots ext pageToken appId apiToken with
          | Ok response => response
          | Throw error => json (VObj [("error", VStr (errorMessage error))]) 500
          end
      | _ =>
          json (VObj [("error",
                       VStr "Missing required GIM credentials. Please configure SYSTEM_MANAGED_GIM_APPLICATION_ID and SYSTEM_MANAGED_GIM_APPLICATION_API_TOKEN in Environment.")])
               400
      end
  end.

End BotsRoute.

(* ===================================================================== *)
(** ** Vocabulary of the properties and sample data *)
(* ===================================================================== *)

Import EmbedSession.

(** The eleven members of [VyinChatTriggerPayload]. *)
Definition payloadFields : list string :=
  [ "content"; "api_token"; "sender_id"; "app_id"; "channel_url"; "bot_user_id";
    "bot_uid"; "bot_nickname"; "bot_profile_url"; "bot_character"; "bot_metadata" ].

(** The router's outgoing edges, in the order of the workflow. *)
Definition outgoing (block : SerializedBlock) (wf : SerializedWorkflow) : list SerializedConnection :=
  filter (fun conn => conn_source conn = b_id block) (wf_connections wf).

(** The targets of the outgoing edges that are no direct predecessor, one
    entry for each such edge. *)
Definition candidateIds (block : SerializedBlock) (wf : SerializedWorkflow) : list string :=
  filter (fun c => c ∉ previousBlockIds block wf) (map conn_target (outgoing block wf)).

(** *** Sample workflows *)

Module Samples.

Definition newline : string := String "010"%char EmptyString.

Definition mkBlock (id : string) (type : option string) (name : option string) : SerializedBlock :=
  {| b_id := id;
     b_metadata :=
       match type with
       | Some t => Some {| meta_id := Some t; meta_name := name; meta_description := None |}
       | None => None
       end;
     b_tool := "";
     b_params := ∅;
     b_inputs := None |}.

Definition edge (s t : string) : SerializedConnection := {| conn_source := s; conn_target := t |}.

Definition mkContext (blocks : list SerializedBlock) (edges : list SerializedConnection)
    (states : gmap string BlockState) : ExecutionContext :=
  {| ctx_workflowId := "wf-1";
     ctx_workspaceId := Some "ws-1";
     ctx_workflow := Some {| wf_blocks := blocks; wf_connections := edges |};
     ctx_blockStates := states |}.

(** A gateway that answers every request with the same text. *)
Definition answering (response : string) : VyinIntentRouter.Externals :=
  {| BlockType := {| VYIN_INTENT_ROUTER := "vyin_intent_router"; AGENT := "agent" |};
     getTool := fun _ => true;
     VyinIntentRouter.getGimBaseUrl := fun appId => "https://" +:+ appId +:+ ".gim.test";
     generateIntentRouterPrompt := fun _ userInput _ => Ok userInput;
     executeTool := fun _ _ _ =>
       {| tr_success := true;
          tr_output := VObj [("response", VStr response)];
          tr_error := None |} |}.

Definition routerA : SerializedBlock := mkBlock "A" (Some "vyin_intent_router") (Some "Router").

(** [X -> A], [A -> B], [A -> C], and an edge from the router back to [X]. *)
Definition fanOut : ExecutionContext :=
  mkContext
    [ mkBlock "X" (Some "starter") (Some "Start"); routerA;
      mkBlock "B" (Some "agent") (Some "Billing"); mkBlock "C" (Some "agent") (Some "Care") ]
    [ edge "X" "A"; edge "A" "B"; edge "A" "X"; edge "A" "C" ]
    ∅.

(** Two edges from the router to the same block. *)
Definition doubled : ExecutionContext :=
  mkContext
    [ routerA; mkBlock "B" (Some "agent") (Some "Billing") ]
    [ edge "A" "B"; edge "A" "B" ]
    ∅.

Definition triggerOutput : gmap string JsVal :=
  <["app_id" := VStr "app1"]> (<["api_token" := VStr "secret"]> (<["content" := VStr "hi"]> ∅)).

(** A chat trigger [T] that has run, the router [A], and two candidates
    ["abc"] (whose display name is the empty string) and ["def"]. *)
Definition chat : ExecutionContext :=
  mkContext
    [ routerA; mkBlock "T" (Some "vyin_chatbot") (Some "Chat");
      mkBlock "abc" (Some "function") (Some ""); mkBlock "def" (Some "agent") (Some "Care") ]
    [ edge "T" "A"; edge "A" "abc"; edge "A" "def" ]
    (<["T" := {| bs_output := Some triggerOutput |}]> ∅).

(** The same trigger and router, the only outgoing edge leading back to the
    trigger. *)
Definition chatLoop : ExecutionContext :=
  mkContext
    [ mkBlock "T" (Some "vyin_chatbot") (Some "Chat"); routerA ]
    [ edge "T" "A"; edge "A" "T" ]
    (<["T" := {| bs_output := Some triggerOutput |}]> ∅).

Definition routerInputs : gmap string JsVal :=
  <["botProfile" := VStr "bot-7"]> (<["userInput" := VStr "I need a refund"]> ∅).

End Samples.

(** The claim C4 read literally: the output names the chosen descriptor's
    id, type and title. *)
Definition carriesIdTypeTitle (chosen : TargetBlock) (out : BlockOutput) : Prop :=
  blockId (selectedPath out) = tb_id chosen
  /\ Some (blockType (selectedPath out)) = tb_type chosen
  /\ Some (blockTitle (selectedPath out)) = tb_title chosen.

Definition fanOutWorkflow : SerializedWorkflow :=
  default {| wf_blocks := []; wf_connections := [] |} (ctx_workflow Samples.fanOut).

Definition chatCandidates : list TargetBlock :=
  Eval vm_compute in
    match getTargetBlocks (Samples.answering "") Samples.routerA Samples.chat with
    | Ok (Some l) => l
    | _ => []
    end.

Definition chatRequest : string * ToolParams :=
  Eval vm_compute in
    match prepare (Samples.answering "") Samples.routerA Samples.routerInputs Samples.chat
            (Some chatCandidates) with
    | Ok r => r
    | Throw _ => ("", {| tp_url := ""; tp_apiToken := ""; tp_botId := ""; tp_prompt := "";
                         tp_systemPrompt := ""; tp_workflowId := ""; tp_workspaceId := None |})
    end.

(** The pair that identifies a deployment version. *)
Definition versionKey (r : DeploymentVersionRow) : string * Z :=
  (dv_workflowId r, dv_version r).

(** Versions are unique per workflow. *)
Definition uniqueVersions (db : Db) : Prop :=
  NoDup (map versionKey (workflowDeploymentVersion db)).

(** The rows of workflow [id] that are marked active. *)
Definition activeRows (id : string) (db : Db) : list DeploymentVersionRow :=
  List.filter (isActiveOf id) (workflowDeploymentVersion db).

(** The single-active-version invariant. *)
Definition atMostOneActive (db : Db) : Prop :=
  forall id, (length (activeRows id db) <= 1)%nat.

(** What activation makes of a row: within the workflow, exactly the rows of
    the requested version are active; other workflows are left alone. *)
Definition activateRow (id : string) (versionNum : Z) (r : DeploymentVersionRow)
    : DeploymentVersionRow :=
  if bool_decide (dv_workflowId r = id) then set_isActive (dv_version r =? versionNum) r else r.

(** What activation makes of a workflow row. *)
Definition deployRow (id : string) (now : Z) (w : WorkflowRow) : WorkflowRow :=
  if bool_decide (w_id w = id) then set_deployed now w else w.

(** What a rename to [n] makes of a row. *)
Definition renameRow (id : string) (versionNum : Z) (n : string) (r : DeploymentVersionRow)
    : DeploymentVersionRow :=
  if isVersionOf id versionNum r then set_name n r else r.

(** Two rows that differ at most in [name]. *)
Definition sameExceptName (r r' : DeploymentVersionRow) : Prop :=
  dv_id r' = dv_id r /\ dv_workflowId r' = dv_workflowId r /\ dv_version r' = dv_version r
  /\ dv_state r' = dv_state r /\ dv_isActive r' = dv_isActive r
  /\ dv_createdBy r' = dv_createdBy r /\ dv_createdAt r' = dv_createdAt r.

Module StoreSamples.

Definition row (id workflowId : string) (version : Z) (active : bool) : DeploymentVersionRow :=
  {| dv_id := id; dv_workflowId := workflowId; dv_version := version; dv_name := None;
     dv_state := VObj [("blocks", VObj [])]; dv_isActive := active;
     dv_createdBy := Some "u1"; dv_createdAt := 1700000000000 |}.

(** Workflow [W] with versions 3 (active), 4 and 5; workflow [V] with its own
    active version 3. *)
Definition db : Db :=
  {| workflowDeploymentVersion :=
       [ row "r1" "W" 3 true; row "r2" "W" 4 false; row "r3" "V" 3 true; row "r4" "W" 5 false ];
     workflow :=
       [ {| w_id := "W"; w_isDeployed := true; w_deployedAt := Some 1700000000000 |};
         {| w_id := "V"; w_isDeployed := true; w_deployedAt := Some 1700000000500 |} ] |}.

Definition ext : Deployments.Externals :=
  {| authenticateApiKeyFromHeader := fun _ => {| auth_success := true; auth_userId := Some "u1" |};
     getWorkflowAccessContext := fun _ _ =>
       Some {| isOwner := false; workspacePermission := Some "write" |} |}.

Definition request (version : Z) (payload : JsVal) : Request :=
  {| req_headers := <["x-api-key" := "sk-test"]> ∅;
     req_id := "W";
     req_versionNum := Finite version;
     req_json := Ok payload;
     req_now := 1700000999000 |}.

(** One hundred characters. *)
Definition name100 : string := String.concat "" (replicate 100 "n").

End StoreSamples.

Module CodeSamples.

(** A codec for the JSON texts that are string literals without escapes. *)
Definition unquote (text : string) : option string :=
  match text with
  | String "034"%char rest =>
      match String.rev rest with
      | String "034"%char inner => Some (String.rev inner)
      | _ => None
      end
  | _ => None
  end.

Definition stringCodec : Json :=
  {| JSON_stringify := fun v => BotsRoute.dquote +:+ toStr v +:+ BotsRoute.dquote;
     JSON_parse := fun text =>
       match unquote text with
       | Some s => Ok (VStr s)
       | None => Throw (SyntaxError "Unexpected token")
       end |}.

(** No Redis client, no code stored yet. *)
Definition fresh : Stores := {| redis := None; inMemoryCodes := ∅ |}.

(** A Redis server that answers and holds no key. *)
Definition freshRedis : Stores :=
  {| redis := Some {| answers := true; entries := ∅ |}; inMemoryCodes := ∅ |}.

(** The same after [storeCode("c0de", "ws-1", CODE_TTL_SECONDS)] at time
    1000000. *)
Definition issuedRedis : Stores :=
  {| redis :=
       Some {| answers := true;
               entries :=
                 <["embed-code:c0de" :=
                     {| value := BotsRoute.dquote +:+ "ws-1" +:+ BotsRoute.dquote;
                        expiry := 1120000 |}]> ∅ |};
     inMemoryCodes := ∅ |}.

(** A Redis server that does not answer. *)
Definition silentRedis : Stores :=
  {| redis := Some {| answers := false; entries := ∅ |}; inMemoryCodes := ∅ |}.

(** The stores after [storeCode("c0de", "ws-1", CODE_TTL_SECONDS)] at time
    1000000. *)
Definition issued : Stores :=
  {| redis := None;
     inMemoryCodes :=
       <["embed-code:c0de" :=
           {| value := BotsRoute.dquote +:+ "ws-1" +:+ BotsRoute.dquote; expiry := 1120000 |}]> ∅ |}.

End CodeSamples.

Module BotSamples.

Definition q (s : string) : string := BotsRoute.dquote +:+ s +:+ BotsRoute.dquote.

Definition bodyWith (botIdMember : string) : string :=
  "{" +:+ q "count" +:+ ":1," +:+ q "next" +:+ ":null," +:+ q "previous" +:+ ":null,"
  +:+ q "results" +:+ ":[{" +:+ botIdMember +:+ "," +:+ q "bot_nickname" +:+ ":" +:+ q "Ada"
  +:+ "}]}".

(** The identifier 2^53 + 1, written right after the colon. *)
Definition compactBody : string := bodyWith (q "bot_id" +:+ ": 9007199254740993").

(** The same JSON value, with a space between the key and the colon. *)
Definition spacedBody : string := bodyWith (q "bot_id" +:+ " : 9007199254740993").

(** The same value with the identifier as a string. *)
Definition quotedBody : string := bodyWith (q "bot_id" +:+ ":" +:+ q "9007199254740993").

(** A signed-in user with credentials, an upstream that answers 200 with
    [text], and the decoder [parse]. *)
Definition ext (text : string) (parse : string -> JsResult JsVal) : BotsRoute.Externals :=
  {| BotsRoute.getSession := Some "u1";
     BotsRoute.getEffectiveDecryptedEnv := fun _ =>
       <["SYSTEM_MANAGED_GIM_APPLICATION_ID" := "app1"]>
         (<["SYSTEM_MANAGED_GIM_APPLICATION_API_TOKEN" := "secret"]> ∅);
     BotsRoute.getGimBaseUrl := fun appId => "https://" +:+ appId +:+ ".gim.test";
     BotsRoute.encodeQueryValue := fun t => t;
     BotsRoute.fetch := fun _ _ =>
       Ok {| BotsRoute.fr_ok := true; BotsRoute.fr_status := 200;
             BotsRoute.fr_statusText := "OK"; BotsRoute.fr_text := text |};
     BotsRoute.JSON_parse := parse |}.

(** What the endpoint answers for a decoded body (or a decoding failure). *)
Definition answer (data : JsResult JsVal) : Response :=
  match data ≫= BotsRoute.summarize with
  | Ok response => response
  | Throw error => json (VObj [("error", VStr (errorMessage error))]) 500
  end.

(** The value of the spaced body under a native number decode. *)
Definition spacedDecoded : JsVal :=
  VObj [("count", VNum 1); ("next", VNull); ("previous", VNull);
        ("results",
         VArr [VObj [("bot_id", VNum (BotsRoute.nearestDouble 9007199254740993));
                     ("bot_nickname", VStr "Ada")]])].

End BotSamples.

(* ===================================================================== *)
(** ** Further vocabulary: what the routes decide before they touch the
       database *)
(* ===================================================================== *)

(** The stores when the Redis server, if there is one, has come to answer
    ([true]) or has stopped answering ([false]). *)
Definition withAnswers (b : bool) (st : Stores) : Stores :=
  match redis st with
  | Some srv =>
      {| redis := Some {| answers := b; entries := entries srv |};
         inMemoryCodes := inMemoryCodes st |}
  | None => st
  end.

(** The stores hold nothing a call at time [now] would hand out for the
    code. *)
Definition spent (code : string) (now : Z) (st : Stores) : Prop :=
  match redis st with
  | Some srv =>
      forall text, redis_get (CODE_PREFIX +:+ code) now (entries srv) = Some text -> text = ""
  | None => inMemoryCodes st !! (CODE_PREFIX +:+ code) = None
  end.

(** Two rows that differ at most in [isActive]. *)
Definition sameExceptActive (r r' : DeploymentVersionRow) : Prop :=
  dv_id r' = dv_id r /\ dv_workflowId r' = dv_workflowId r /\ dv_version r' = dv_version r
  /\ dv_name r' = dv_name r /\ dv_state r' = dv_state r
  /\ dv_createdBy r' = dv_createdBy r /\ dv_createdAt r' = dv_createdAt r.

(** The checks of the activate route that do not read the database: the
    answer that ends the request, or the version to activate. *)
Definition activateDecision (ext : Deployments.Externals) (req : Request) : Response + Z :=
  match authenticate ext req with
  | inl unauthorized => inl unauthorized
  | inr _ =>
      match req_versionNum req with
      | NotFinite => inl (createErrorResponse "Invalid version" 400)
      | Finite versionNum => inr versionNum
      end
  end.

(** The checks of the rename route that do not read the database: the answer
    that ends the request, or the version and the trimmed name to write. *)
Definition renameDecision (ext : Deployments.Externals) (req : Request) : Response + Z * string :=
  match authenticate ext req with
  | inl unauthorized => inl unauthorized
  | inr userId =>
      match getWorkflowAccessContext ext (req_id req) userId with
      | None => inl (json (VObj [("error", VStr "Workflow not found")]) 404)
      | Some accessContext =>
          if negb (VersionRoute.canWriteOf accessContext) then
            inl (json (VObj [("error", VStr "Access denied")]) 403)
          else
            match req_versionNum req with
            | NotFinite => inl (createErrorResponse "Invalid version" 400)
            | Finite versionNum =>
                match req_json req ≫= (fun body => prop body "name") with
                | Throw error =>
                    inl (createErrorResponse
                           (messageOr error "Failed to rename deployment version") 500)
                | Ok (VStr name) =>
                    if (String.length (trim name) =? 0)%nat then
                      inl (createErrorResponse "Name cannot be empty" 400)
                    else if (100 <? String.length (trim name))%nat then
                      inl (createErrorResponse "Name must be 100 characters or less" 400)
                    else inr (versionNum, trim name)
                | Ok _ => inl (createErrorResponse "Name must be a string" 400)
                end
            end
      end
  end.

(** Whether the workflow has a row for the version. *)
Definition hasVersion (id : string) (versionNum : Z) (db : Db) : bool :=
  existsb (isVersionOf id versionNum) (workflowDeploymentVersion db).

(** The database after version [versionNum] of workflow [id] is activated
    at time [now]. *)
Definition activated (id : string) (versionNum now : Z) (db : Db) : Db :=
  {| workflowDeploymentVersion := map (activateRow id versionNum) (workflowDeploymentVersion db);
     workflow := map (deployRow id now) (workflow db) |}.

(** The database after version [versionNum] of workflow [id] is renamed. *)
Definition renamed (id : string) (versionNum : Z) (n : string) (db : Db) : Db :=
  {| workflowDeploymentVersion := map (renameRow id versionNum n) (workflowDeploymentVersion db);
     workflow := workflow db |}.

(** Whether every character of a string satisfies [p], and whether its first
    character does. *)
Fixpoint allChars (p : ascii -> bool) (s : string) : bool :=
  match s with
  | EmptyString => true
  | String c s' => p c && allChars p s'
  end.

Definition headIs (p : ascii -> bool) (s : string) : bool :=
  match s with
  | EmptyString => false
  | String c _ => p c
  end.

Definition isQuote (c : ascii) : bool := Ascii.eqb c "034"%char.

(* ===================================================================== *)
(** ** lib/system-managed-env.ts and the environment routes *)
(* ===================================================================== *)

Module SystemManagedEnv.

(** [s.split(sep)] for a one-character separator. *)
Fixpoint splitOn (sep : ascii) (s : string) : list string :=
  match s with
  | EmptyString => [EmptyString]
  | String c s' =>
      if Ascii.eqb c sep then EmptyString :: splitOn sep s'
      else
        match splitOn sep s' with
        | [] => [String c EmptyString]
        | piece :: pieces => String c piece :: pieces
        end
  end.

Definition defaults : list string :=
  [ "SYSTEM_MANAGED_GIM_APPLICATION_API_TOKEN";
    "SYSTEM_MANAGED_GIM_APPLICATION_ID";
    "GIM_APPLICATION_API_TOKEN";
    "GIM_APPLICATION_ID" ].

(** The comma-separated keys of [env.SYSTEM_MANAGED_USER_ENV_KEYS]. *)
Definition parsedKeys (raw : string) : list string :=
  List.filter (fun s => (0 <? String.length s)%nat) (map trim (splitOn ","%char raw)).

(** [env_keys] is [env.SYSTEM_MANAGED_USER_ENV_KEYS], when set. *)
Definition getSystemManagedUserEnvKeysSet (env_keys : option string) : gset string :=
  let raw := strOr env_keys "" in
  list_to_set (defaults ++ parsedKeys raw).

End SystemManagedEnv.

(** The [environment] table and what both environment routes share. *)
Module EnvStore.

(** Modelled from the spec: the schema module [@sim/db] is not among the
    sources.  A row of [environment] has an [id], the owner's [userId] (the
    conflict target of the upsert, hence the key here), the encrypted
    [variables] (a JSON object, or null) and [updatedAt]. *)
Record EnvRow : Type := {
  env_id : string;
  env_variables : option (gmap string string);
  env_updatedAt : Z
}.

Record EnvironmentVariable : Type := {
  ev_key : string;
  ev_value : string
}.

Inductive Body : Type :=
| ErrorBody (error : string)
| InvalidBody
| SuccessBody
| DataBody (data : gmap string EnvironmentVariable).

Record Response : Type := {
  status : Z;
  body : Body
}.

(** Secret encryption, the request schema ([None] is the validation error),
    the id generator and the process environment. *)
Record Crypto : Type := {
  encryptSecret : string -> JsResult string;
  decryptSecret : string -> JsResult string;
  EnvVarSchema_parse : JsVal -> option (gmap string string);
  randomUUID : string;
  env_SYSTEM_MANAGED_USER_ENV_KEYS : option string
}.

(** The module-level constant of both routes. *)
Definition SYSTEM_MANAGED_USER_ENV_KEYS (c : Crypto) : gset string :=
  SystemManagedEnv.getSystemManagedUserEnvKeysSet (env_SYSTEM_MANAGED_USER_ENV_KEYS c).

(** [(rows[0]?.variables as any) || {}] *)
Definition existingEncryptedOf (row : option EnvRow) : gmap string string :=
  default ∅ (row ≫= env_variables).

(** [rows[0]?.id || fresh] *)
Definition rowIdOr (row : option EnvRow) (fresh : string) : string :=
  strOr (env_id <$> row) fresh.

(** [Promise.all(entries.map(async ([key, value]) => [key, (await
    encryptSecret(value)).encrypted])).then(Object.fromEntries)] *)
Definition encryptAll (c : Crypto) (variables : gmap string string)
    : JsResult (gmap string string) :=
  entries ←
    mapThrowing (fun kv : string * string =>
                   encrypted ← encryptSecret c kv.2; Ok (kv.1, encrypted))
      (map_to_list variables);
  Ok (list_to_map entries).

(** [insert(environment).values({id, userId, variables, updatedAt})
      .onConflictDoUpdate({target: [userId], set: {variables, updatedAt}})] *)
Definition upsert (userId : string) (fresh : string) (variables : gmap string string)
    (now : Z) (table : gmap string EnvRow) : gmap string EnvRow :=
  match table !! userId with
  | Some row =>
      <[userId := {| env_id := env_id row; env_variables := Some variables;
                     env_updatedAt := now |}]> table
  | None =>
      <[userId := {| env_id := fresh; env_variables := Some variables;
                     env_updatedAt := now |}]> table
  end.

(** The body of the decrypting loop for one entry. *)
Definition decryptEntry (c : Crypto) (key encryptedValue : string) : EnvironmentVariable :=
  match decryptSecret c encryptedValue with
  | Ok decrypted => {| ev_key := key; ev_value := decrypted |}
  | Throw _ => {| ev_key := key; ev_value := "" |}
  end.

(** The variables a user has stored, encrypted. *)
Definition storedVariables (userId : string) (table : gmap string EnvRow) : gmap string string :=
  existingEncryptedOf (table !! userId).

End EnvStore.

(** *** app/api/environment/route.ts *)
Module EnvironmentRoute.
Import EnvStore.

(** [for (const key of SYSTEM_MANAGED_USER_ENV_KEYS) if (existingEncrypted[key])
      encryptedIncoming[key] = existingEncrypted[key]] *)
Definition preserveKeys (keys : list string) (existingEncrypted encryptedIncoming : gmap string string)
    : gmap string string :=
  foldr (fun key acc =>
           match existingEncrypted !! key with
           | Some v => if String.eqb v "" then acc else <[key := v]> acc
           | None => acc
           end)
        encryptedIncoming keys.

Record Request : Type := {
  req_session : option string;
  req_json : JsResult JsVal;
  req_now : Z
}.

(** The inner [try] block of [POST]. *)
Definition update (c : Crypto) (userId : string) (parsed : JsVal) (now : Z)
    (table : gmap string EnvRow) : JsResult (gmap string EnvRow * Response) :=
  match EnvVarSchema_parse c parsed with
  | None => Ok (table, {| status := 400; body := InvalidBody |})
  | Some variables =>
      let existing := table !! userId in
      let existingEncrypted := existingEncryptedOf existing in
      let variables :=
        filter (fun kv => kv.1 ∉ SYSTEM_MANAGED_USER_ENV_KEYS c) variables in
      encryptedIncoming ← encryptAll c variables;
      let encryptedIncoming :=
        preserveKeys (elements (SYSTEM_MANAGED_USER_ENV_KEYS c)) existingEncrypted
          encryptedIncoming in
      Ok (upsert userId (rowIdOr existing (randomUUID c)) encryptedIncoming now table,
          {| status := 200; body := SuccessBody |})
  end.

Definition POST (c : Crypto) (req : Request) (table : gmap string EnvRow)
    : gmap string EnvRow * Response :=
  match req_session req with
  | None => (table, {| status := 401; body := ErrorBody "Unauthorized" |})
  | Some userId =>
      if String.eqb userId "" then
        (table, {| status := 401; body := ErrorBody "Unauthorized" |})
      else
        match req_json req ≫= (fun parsed => update c userId parsed (req_now req) table) with
        | Ok out => out
        | Throw _ =>
            (table, {| status := 500;
                       body := ErrorBody "Failed to update environment variables" |})
        end
  end.

Definition GET (c : Crypto) (session : option string) (table : gmap string EnvRow) : Response :=
  match session with
  | None => {| status := 401; body := ErrorBody "Unauthorized" |}
  | Some userId =>
      if String.eqb userId "" then {| status := 401; body := ErrorBody "Unauthorized" |}
      else
        match (table !! userId) ≫= env_variables with
        | None => {| status := 200; body := DataBody ∅ |}
        | Some encryptedVariables =>
            {| status := 200;
               body :=
                 DataBody
                   (map_imap (fun key encryptedValue =>
                                if decide (key ∈ SYSTEM_MANAGED_USER_ENV_KEYS c) then None
                                else Some (decryptEntry c key encryptedValue))
                             encryptedVariables) |}
        end
  end.

End EnvironmentRoute.

(** *** app/api/internal/environment/route.ts *)
Module InternalEnvironmentRoute.
Import EnvStore.

Record Request : Type := {
  req_headers : gmap string string;
  req_json : JsResult JsVal;
  req_now : Z
}.

(** [hdrs.get('x-api-key') ?? hdrs.get('X-API-Key') ?? ''] *)
Definition apiKeyOf (hdrs : gmap string string) : string :=
  match headersGet hdrs "x-api-key" with
  | Some k => k
  | None => default "" (headersGet hdrs "X-API-Key")
  end.

(** The user id behind the API key, or the 401. *)
Definition authenticate (authenticateApiKeyFromHeader : string -> AuthResult)
    (hdrs : gmap string string) : Response + string :=
  let apiKey := apiKeyOf hdrs in
  if String.eqb apiKey "" then inl {| status := 401; body := ErrorBody "API key required" |}
  else
    let auth := authenticateApiKeyFromHeader apiKey in
    match auth_userId auth with
    | Some userId =>
        if auth_success auth && negb (String.eqb userId "") then inr userId
        else inl {| status := 401; body := ErrorBody "Unauthorized" |}
    | None => inl {| status := 401; body := ErrorBody "Unauthorized" |}
    end.

(** The inner [try] block of [POST]. *)
Definition update (c : Crypto) (userId : string) (parsed : JsVal) (now : Z)
    (table : gmap string EnvRow) : JsResult (gmap string EnvRow * Response) :=
  match EnvVarSchema_parse c parsed with
  | None => Ok (table, {| status := 400; body := InvalidBody |})
  | Some variables =>
      let filteredEntries :=
        filter (fun kv => kv.1 ∈ SYSTEM_MANAGED_USER_ENV_KEYS c) variables in
      let existingRows := table !! userId in
      let existingEncrypted := existingEncryptedOf existingRows in
      if bool_decide (filteredEntries = ∅) then
        Ok (table, {| status := 200; body := SuccessBody |})
      else
        encryptedIncoming ← encryptAll c filteredEntries;
        let merged := encryptedIncoming ∪ existingEncrypted in
        Ok (upsert userId (rowIdOr existingRows (randomUUID c)) merged now table,
            {| status := 200; body := SuccessBody |})
  end.

Definition POST (c : Crypto) (authenticateApiKeyFromHeader : string -> AuthResult)
    (req : Request) (table : gmap string EnvRow) : gmap string EnvRow * Response :=
  match authenticate authenticateApiKeyFromHeader (req_headers req) with
  | inl unauthorized => (table, unauthorized)
  | inr userId =>
      match req_json req ≫= (fun parsed => update c userId parsed (req_now req) table) with
      | Ok out => out
      | Throw _ =>
          (table, {| status := 500;
                     body := ErrorBody "Failed to update environment variables" |})
      end
  end.

Definition GET (c : Crypto) (authenticateApiKeyFromHeader : string -> AuthResult)
    (hdrs : gmap string string) (table : gmap string EnvRow) : Response :=
  match authenticate authenticateApiKeyFromHeader hdrs with
  | inl unauthorized => unauthorized
  | inr userId =>
      match (table !! userId) ≫= env_variables with
      | None => {| status := 200; body := DataBody ∅ |}
      | Some encryptedVariables =>
          {| status := 200;
             body := DataBody (map_imap (fun key encryptedValue =>
                                           Some (decryptEntry c key encryptedValue))
                                        encryptedVariables) |}
      end
  end.

End InternalEnvironmentRoute.

(** The encrypted form of a value, when encryption succeeds. *)
Definition encryptedOf (c : EnvStore.Crypto) (v : string) : option string :=
  match EnvStore.encryptSecret c v with
  | Ok e => Some e
  | Throw _ => None
  end.

(** A stored value that counts as present ([if (existingEncrypted[key])]). *)
Definition nonEmpty (o : option string) : option string :=
  match o with
  | Some v => if String.eqb v "" then None else Some v
  | None => None
  end.

Definition notComma (c : ascii) : bool := negb (Ascii.eqb c ","%char).

Module EnvSamples.

(** A reversible toy cipher: a tag in front of the clear text. *)
Definition untag (e : string) : JsResult string :=
  if String.prefix "enc:" e then Ok (BotsRoute.dropChars 4 e)
  else Throw (Error "Invalid encrypted value format").

Fixpoint stringFields (fields : list (string * JsVal)) : option (list (string * string)) :=
  match fields with
  | [] => Some []
  | (k, VStr v) :: rest => (fun l => (k, v) :: l) <$> stringFields rest
  | _ => None
  end.

(** The schema [{variables: record(string)}] on parsed JSON. *)
Definition parseVariables (parsed : JsVal) : option (gmap string string) :=
  match parsed with
  | VObj top =>
      match lookupField "variables" top with
      | Some (VObj fields) => list_to_map <$> stringFields fields
      | _ => None
      end
  | _ => None
  end.

Definition crypto (env_keys : option string) : EnvStore.Crypto :=
  {| EnvStore.encryptSecret := fun v => Ok ("enc:" +:+ v);
     EnvStore.decryptSecret := untag;
     EnvStore.EnvVarSchema_parse := parseVariables;
     EnvStore.randomUUID := "row-new";
     EnvStore.env_SYSTEM_MANAGED_USER_ENV_KEYS := env_keys |}.

(** User [u1] has a provisioned application id and a variable of her own. *)
Definition table : gmap string EnvStore.EnvRow :=
  <["u1" := {| EnvStore.env_id := "row-1";
               EnvStore.env_variables :=
                 Some (<["SYSTEM_MANAGED_GIM_APPLICATION_ID" := "enc:app1"]>
                         (<["OPENAI_KEY" := "enc:sk-old"]> ∅));
               EnvStore.env_updatedAt := 1700000000000 |}]> ∅.

(** The user tries to overwrite the application id and sets two variables. *)
Definition userRequest : EnvironmentRoute.Request :=
  {| EnvironmentRoute.req_session := Some "u1";
     EnvironmentRoute.req_json :=
       Ok (VObj [("variables",
                  VObj [("SYSTEM_MANAGED_GIM_APPLICATION_ID", VStr "evil");
                        ("OPENAI_KEY", VStr "sk-new"); ("REGION", VStr "eu")])]);
     EnvironmentRoute.req_now := 1700000100000 |}.

Definition userVariables : gmap string string :=
  <["SYSTEM_MANAGED_GIM_APPLICATION_ID" := "evil"]>
    (<["OPENAI_KEY" := "sk-new"]> (<["REGION" := "eu"]> ∅)).




End EnvSamples.



(* ===================================================================== *)
(** ** The workspace id of a workflow, cached ([getWorkspaceIdForWorkflow]) *)
(* ===================================================================== *)

Module WorkflowCache.
Import EmbedSession.

Definition CACHE_KEY_PREFIX : string := "workflow:workspaceId:".
Definition DEFAULT_TTL_SECONDS : Z := 60 * 60 * 24.

(** The two columns of [workflow] the query touches; [workspaceId] is
    nullable. *)
Record WorkflowRow : Type := {
  wf_id : string;
  wf_workspaceId : option string
}.

(** The Redis client, when there is one: whether the server answers (a
    command to an unreachable server rejects) and the keys it holds. *)
Record Redis : Type := {
  reachable : bool;
  keys : gmap string Entry
}.

(** The first [try] block: the cached value, when there is a client, the
    [get] succeeds and the value is not empty. *)
Definition cacheHit (cacheKey : string) (now : Z) (redis : option Redis) : option string :=
  match redis with
  | Some r =>
      if reachable r then
        match redis_get cacheKey now (keys r) with
        | Some cached => if String.eqb cached "" then None else Some cached
        | None => None
        end
      else None
  | None => None
  end.

(** [rows[0]?.workspaceId ?? undefined] of
    [select({workspaceId}).from(workflow).where(eq(id, workflowId)).limit(1)] *)
Definition selectWorkspaceId (workflowId : string) (table : list WorkflowRow) : option string :=
  List.find (fun r => String.eqb (wf_id r) workflowId) table ≫= wf_workspaceId.

(** [try { await redis.set(cacheKey, workspaceId, 'EX', ttlSeconds) } catch {}] *)
Definition cacheFill (cacheKey workspaceId : string) (ttlSeconds now : Z) (r : Redis) : Redis :=
  if reachable r then
    match redis_set cacheKey workspaceId ttlSeconds now (keys r) with
    | Ok keys' => {| reachable := reachable r; keys := keys' |}
    | Throw _ => r
    end
  else r.

Definition getWorkspaceIdForWorkflow (workflowId : string) (ttlSeconds now : Z)
    (redis : option Redis) (table : list WorkflowRow) : option string * option Redis :=
  if String.eqb workflowId "" then (None, redis)
  else
    let cacheKey := CACHE_KEY_PREFIX +:+ workflowId in
    match cacheHit cacheKey now redis with
    | Some cached => (Some cached, redis)
    | None =>
        let workspaceId := selectWorkspaceId workflowId table in
        (workspaceId,
         match workspaceId with
         | Some w => if String.eqb w "" then redis else cacheFill cacheKey w ttlSeconds now <$> redis
         | None => redis
         end)
    end.

End WorkflowCache.

(** The keys of the cache server, none without a client. *)
Definition cachedKeys (redis : option WorkflowCache.Redis) : gmap string Entry :=
  match redis with
  | Some r => WorkflowCache.keys r
  | None => ∅
  end.

(** Every live, non-empty cache entry of a workflow holds the workspace id
    the table has for it. *)
Definition coherent (now : Z) (redis : option WorkflowCache.Redis)
    (table : list WorkflowCache.WorkflowRow) : Prop :=
  forall workflowId cached,
    redis_get (WorkflowCache.CACHE_KEY_PREFIX +:+ workflowId) now (cachedKeys redis)
    = Some cached ->
    cached <> "" ->
    WorkflowCache.selectWorkspaceId workflowId table = Some cached.

Module CacheSamples.

Definition table : list WorkflowCache.WorkflowRow :=
  [ {| WorkflowCache.wf_id := "wf-1"; WorkflowCache.wf_workspaceId := Some "ws-A" |};
    {| WorkflowCache.wf_id := "wf-2"; WorkflowCache.wf_workspaceId := None |} ].

(** The same workflows after [wf-1] has moved to another workspace. *)
Definition moved : list WorkflowCache.WorkflowRow :=
  [ {| WorkflowCache.wf_id := "wf-1"; WorkflowCache.wf_workspaceId := Some "ws-B" |};
    {| WorkflowCache.wf_id := "wf-2"; WorkflowCache.wf_workspaceId := None |} ].

Definition empty : option WorkflowCache.Redis :=
  Some {| WorkflowCache.reachable := true; WorkflowCache.keys := ∅ |}.

End CacheSamples.

(* ===================================================================== *)
(** ** blocks/blocks/vyin_chat_response.ts: the parameters of the tool *)
(* ===================================================================== *)

Module VyinChatResponseBlock.
Import EmbedSession.

(** [Array.isArray(v)] *)
Definition isArray (v : JsVal) : bool :=
  match v with
  | VArr _ => true
  | _ => false
  end.

(** [v?.[0]]: the first element of an array, the property ["0"] of an
    object, the first code unit of a string. *)
Definition first (v : JsVal) : JsVal :=
  match v with
  | VArr (x :: _) => x
  | VObj fields => default VUndefined (lookupField "0" fields)
  | VStr (String c _) => VStr (String c EmptyString)
  | _ => VUndefined
  end.

(** [v === s] for a string literal [s]. *)
Definition isString (s : string) (v : JsVal) : bool :=
  match v with
  | VStr x => String.eqb x s
  | _ => false
  end.

(** [s.endsWith(c)] for a one-character [c]. *)
Fixpoint endsWithChar (c : ascii) (s : string) : bool :=
  match s with
  | EmptyString => false
  | String x EmptyString => Ascii.eqb x c
  | String _ s' => endsWithChar c s'
  end.

(** [typeof suggestionType === 'string' && suggestionType.trim().length > 0
      ? suggestionType : 'buttons_suggestion'] *)
Definition suggestionKeyOf (params : gmap string JsVal) : JsVal :=
  match field params "suggestionType" with
  | VStr s => if (0 <? String.length (trim s))%nat then VStr s else VStr "buttons_suggestion"
  | _ => VStr "buttons_suggestion"
  end.

(** [typeof editor === 'string' ? editor
      : typeof editor === 'object' && editor ? editor.value ?? editor : undefined] *)
Definition rawOf (editor : JsVal) : JsVal :=
  match editor with
  | VStr _ | VArr _ => editor
  | VObj _ =>
      match optProp editor "value" with
      | VUndefined | VNull => editor
      | v => v
      end
  | _ => VUndefined
  end.

(** [x?.[0]?.key && Array.isArray(x?.[0]?.value)] *)
Definition looksLikeMetaarray (x : JsVal) : bool :=
  truthy (optProp (first x) "key") && isArray (optProp (first x) "value").

(** [[{ key: suggestionKey, value: items }]] *)
Definition wrapped (suggestionKey items : JsVal) : JsVal :=
  VArr [VObj [("key", suggestionKey); ("value", items)]].

(** The branches on the parsed editor text. *)
Definition fromParsed (suggestionKey parsed : JsVal) : JsVal :=
  if isArray parsed then
    if looksLikeMetaarray parsed then parsed else wrapped suggestionKey parsed
  else if isArray (optProp parsed "value")
          && (truthy (optProp parsed "key")
              || isString "buttons_suggestion" (optProp parsed "key"))
  then VArr [parsed]
  else if isArray (optProp (first parsed) "value") && truthy (optProp (first parsed) "key")
  then parsed
  else VUndefined.

(** The [metaarray] the function computes. *)
Definition metaarrayOf (codec : Json) (params : gmap string JsVal) : JsVal :=
  let mode := jsOr (field params "dataMode") (VStr "structured") in
  let metaarray := field params "metaarray" in
  let suggestionKey := suggestionKeyOf params in
  if isString "json" mode then
    let editor := field params "editorValue" in
    match rawOf editor with
    | VUndefined => metaarray
    | VStr raw =>
        let trimmed := trim raw in
        if String.prefix "<" trimmed && endsWithChar ">" trimmed then VStr trimmed
        else if (0 <? String.length trimmed)%nat then
          match JSON_parse codec trimmed with
          | Ok parsed => fromParsed suggestionKey parsed
          | Throw _ => VUndefined
          end
        else metaarray
    | VArr arr =>
        if looksLikeMetaarray (VArr arr) then VArr arr else wrapped suggestionKey (VArr arr)
    | raw => raw
    end
  else metaarray.

(** [tools.config.params] *)
Definition params (codec : Json) (params : gmap string JsVal) : gmap string JsVal :=
  <["metaarray" := metaarrayOf codec params]>
    (<["message" := field params "message"]> ∅).

End VyinChatResponseBlock.

(** An editor value the function turns into suggestions: an array, or a text
    that is neither blank nor a variable reference. *)
Definition isSuggestionSource (raw : JsVal) : bool :=
  match raw with
  | VArr _ => true
  | VStr text =>
      (0 <? String.length (trim text))%nat
      && negb (String.prefix "<" (trim text)
               && VyinChatResponseBlock.endsWithChar ">" (trim text))
  | _ => false
  end.

Module ResponseSamples.

(** A decoder that knows the one text of the example. *)
Definition codec : Json :=
  {| JSON_stringify := fun _ => "";
     JSON_parse := fun text =>
       if String.eqb text "[1,2]" then Ok (VArr [VNum 1; VNum 2])
       else Throw (SyntaxError "Unexpected token") |}.

Definition editorParams : gmap string JsVal :=
  <["dataMode" := VStr "json"]>
    (<["suggestionType" := VStr "quick_replies"]>
       (<["editorValue" := VObj [("value", VStr " [1,2] ")]]>
          (<["metaarray" := VStr "from the builder"]>
             (<["message" := VStr "Continue?"]> ∅)))).

End ResponseSamples.

(* ===================================================================== *)
(** ** Signed internal requests: the text that is signed *)
(* ===================================================================== *)

Module SignedRequest.

Definition LF : string := String "010"%char EmptyString.

(** The template literal of [computeSignature]. *)
Definition payloadOf (method path body timestamp nonce : string) : string :=
  method +:+ LF +:+ path +:+ LF +:+ body +:+ LF +:+ timestamp +:+ LF +:+ nonce.

(** [hmacHex secret text] is
    [crypto.createHmac('sha256', secret).update(text).digest('hex')]. *)
Definition computeSignature (hmacHex : string -> string -> string)
    (secret method path body timestamp nonce : string) : string :=
  hmacHex secret (payloadOf method path body timestamp nonce).

End SignedRequest.

(* ===================================================================== *)
(** ** The embed script: the cookie it writes *)
(* ===================================================================== *)

Module GimEmbed.

(** The callback of the filter:
    [!part.trim().toLowerCase().startsWith('secure')] *)
Definition keepsPart (part : string) : bool :=
  negb (String.prefix "secure" (toLowerCase (trim part))).

(** What [setHeaderCookie] assigns to [document.cookie] for a [set-cookie]
    header. *)
Definition cookieFor (setCookieHeader : string) : string :=
  joinWith ";" (List.filter keepsPart (SystemManagedEnv.splitOn ";"%char setCookieHeader)).

End GimEmbed.

(* ===================================================================== *)
(** ** lib/gim: the base URL of an application *)
(* ===================================================================== *)

Module Gim.

(** [s.replace(/^@/, '')] *)
Definition stripLeadingAt (s : string) : string :=
  match s with
  | String "@"%char s' => s'
  | _ => s
  end.

(** [s.indexOf(pattern)] *)
Fixpoint indexOf (pattern s : string) : option nat :=
  if String.prefix pattern s then Some 0%nat
  else
    match s with
    | EmptyString => None
    | String _ s' => S <$> indexOf pattern s'
    end.

(** The replacement text of [String.prototype.replace] for a string pattern:
    [$$] is a dollar sign, [$&] the matched text, [$`] the text before the
    match and [$'] the text after it; there are no capture groups, so every
    other dollar sign stands for itself. *)
Fixpoint getSubstitution (matched before after template : string) : string :=
  match template with
  | EmptyString => EmptyString
  | String c rest =>
      if Ascii.eqb c "$"%char then
        match rest with
        | String d rest' =>
            if Ascii.eqb d "$"%char then
              String "$"%char (getSubstitution matched before after rest')
            else if Ascii.eqb d "&"%char then
              matched +:+ getSubstitution matched before after rest'
            else if Ascii.eqb d "`"%char then
              before +:+ getSubstitution matched before after rest'
            else if Ascii.eqb d "'"%char then
              after +:+ getSubstitution matched before after rest'
            else String c (getSubstitution matched before after rest)
        | EmptyString => String c EmptyString
        end
      else String c (getSubstitution matched before after rest)
  end.

(** [s.replace(pattern, replacement)] for a string [pattern]: the first
    occurrence only. *)
Definition replaceString (pattern replacement s : string) : string :=
  match indexOf pattern s with
  | None => s
  | Some i =>
      let before := String.substring 0 i s in
      let after := BotsRoute.dropChars (i + String.length pattern) s in
      before +:+ getSubstitution pattern before after replacement +:+ after
  end.

(** [env_GIM_BASE_URL] is [env.GIM_BASE_URL], when set. *)
Definition getGimBaseUrl (env_GIM_BASE_URL : option string) (appId : string)
    (baseUrlRaw : option string) : string :=
  let raw :=
    match baseUrlRaw with
    | Some b => b
    | None => default "" env_GIM_BASE_URL
    end in
  let normalizedBase := stripLeadingAt raw in
  if String.eqb normalizedBase "" then ""
  else if String.eqb appId "" then normalizedBase
  else replaceString "gate" appId normalizedBase.

End Gim.

(** Characters of the properties below. *)
Definition notLF (c : ascii) : bool := negb (Ascii.eqb c "010"%char).
Definition notDollar (c : ascii) : bool := negb (Ascii.eqb c "$"%char).

(** [pattern] occurs in [s] at no position. *)
Definition occursNowhere (pattern s : string) : Prop :=
  forall b1 b2, s = b1 +:+ b2 -> String.prefix pattern b2 = false.

(** [pattern] occurs in [before +:+ pattern +:+ after] at no position inside
    [before]. *)
Definition firstOccurrence (pattern before after : string) : Prop :=
  forall b1 b2, before = b1 +:+ b2 -> b2 <> "" ->
    String.prefix pattern (b2 +:+ pattern +:+ after) = false.



(* ===================================================================== *)
(** ** middleware.ts: the workspace scope of an embed session *)
(* ===================================================================== *)

Module Middleware.

(** What [enforceEmbedWorkspaceScope] returns: [null], a redirect to a path of
    this site, or the 403 answer. *)
Inductive ScopeDecision : Type :=
| ScopePass
| ScopeRedirect (location : string)
| ScopeForbidden.

(** [pathname.split('/')[i]] *)
Definition part (i : nat) (pathname : string) : option string :=
  SystemManagedEnv.splitOn "/"%char pathname !! i.

(** [workspaceIdFromUrl && claims.workspaceId &&
      workspaceIdFromUrl !== claims.workspaceId] *)
Definition outOfScope (workspaceIdFromUrl claimed : option string) : bool :=
  match workspaceIdFromUrl, claimed with
  | Some fromUrl, Some workspaceId =>
      negb (String.eqb fromUrl "") && negb (String.eqb workspaceId "")
      && negb (String.eqb fromUrl workspaceId)
  | _, _ => false
  end.

(** [claims_workspaceId] is [claims.workspaceId]. *)
Definition enforceEmbedWorkspaceScope (pathname : string) (claims_workspaceId : option string)
    : ScopeDecision :=
  if String.prefix "/workspace/" pathname then
    if outOfScope (part 2 pathname) claims_workspaceId then
      ScopeRedirect ("/workspace/" +:+ default "" claims_workspaceId +:+ "/w")
    else ScopePass
  else if String.prefix "/api/workspaces/" pathname then
    if outOfScope (part 3 pathname) claims_workspaceId then ScopeForbidden else ScopePass
  else if String.prefix "/api/v2/workspaces/" pathname then
    if outOfScope (part 4 pathname) claims_workspaceId then ScopeForbidden else ScopePass
  else ScopePass.

End Middleware.

Definition notSlash (c : ascii) : bool := negb (Ascii.eqb c "/"%char).

(* ===================================================================== *)
(** ** app/api/internal/workflows/route.ts: fresh ids for a template *)
(* ===================================================================== *)

Module TemplateIds.

(** What an id member holds once the function has written it: a string; or,
    read from [blockIdMap] under a name that [Object.prototype] defines, the
    member of that name (a function, and for [__proto__] the prototype object
    itself); or [undefined]. *)
Inductive Ref : Type :=
| RefId (id : string)
| RefMember (name : string)
| RefUndefined.

(** The members of the workflow state the function reads or writes; what
    else an object carries is its [fields].  [I] is what an id member holds:
    [string] in the template as it comes from the request, [Ref] in the
    result; the members have the types [WorkflowState] declares.  An object
    used as a dictionary is the list of its own properties, in the order
    [Object.entries] gives them. *)
Record SubBlock : Type := {
  sub_id : string;
  sub_fields : JsVal
}.

Record Block (I : Type) : Type := {
  block_id : I;
  block_subBlocks : option (list (string * SubBlock));
  block_fields : JsVal
}.
Arguments block_id {I} _.
Arguments block_subBlocks {I} _.
Arguments block_fields {I} _.

Record Edge (I : Type) : Type := {
  edge_id : string;
  edge_source : I;
  edge_target : I;
  edge_fields : JsVal
}.
Arguments edge_id {I} _.
Arguments edge_source {I} _.
Arguments edge_target {I} _.
Arguments edge_fields {I} _.

(** A loop or a parallel. *)
Record Subflow (I : Type) : Type := {
  flow_id : string;
  flow_nodes : list I;
  flow_fields : JsVal
}.
Arguments flow_id {I} _.
Arguments flow_nodes {I} _.
Arguments flow_fields {I} _.

(** [blocks] is [None] when [template.blocks] is nullish, [edges] when
    [template.edges] is no array, [loops] and [parallels] when the member is
    falsy. *)
Record WorkflowState (I : Type) : Type := {
  blocks : option (list (string * Block I));
  edges : option (list (Edge I));
  loops : option (list (string * Subflow I));
  parallels : option (list (string * Subflow I))
}.
Arguments blocks {I} _.
Arguments edges {I} _.
Arguments loops {I} _.
Arguments parallels {I} _.

(** The names [Object.prototype] defines; every object literal inherits
    them. *)
Definition objectPrototypeNames : list string :=
  [ "constructor"; "__defineGetter__"; "__defineSetter__"; "hasOwnProperty";
    "__lookupGetter__"; "__lookupSetter__"; "isPrototypeOf"; "propertyIsEnumerable";
    "toString"; "valueOf"; "__proto__"; "toLocaleString" ].

(** What reading a property of [blockIdMap] gives: its own value, an
    inherited member, or [undefined]. *)
Inductive Member : Type :=
| Own (value : string)
| Inherited (name : string)
| Absent.

(** [blockIdMap[key] = value] on the object literal, of which [own] are the
    own properties: [__proto__] is an accessor of [Object.prototype] whose
    setter ignores a string, every other name becomes (or stays) an own
    property. *)
Definition plainSet (key value : string) (own : gmap string string) : gmap string string :=
  if String.eqb key "__proto__" then own else <[key := value]> own.

(** [blockIdMap[key]] *)
Definition plainGet (own : gmap string string) (key : string) : Member :=
  match own !! key with
  | Some value => Own value
  | None => if bool_decide (key ∈ objectPrototypeNames) then Inherited key else Absent
  end.

(** [String(m)] for a member of [Object.prototype], as the engine prints its
    functions. *)
Definition memberText (name : string) : string :=
  if String.eqb name "__proto__" then "[object Object]"
  else if String.eqb name "constructor" then "function Object() { [native code] }"
  else "function " +:+ name +:+ "() { [native code] }".

(** The array index a property name is, if it is one: the decimal numeral,
    with no sign and no leading zero, of an integer below [2^32 - 1]. *)
Definition digitOf (c : ascii) : option N :=
  let code := N_of_ascii c in
  if ((48 <=? code) && (code <=? 57))%N then Some (code - 48)%N else None.

Fixpoint numeral (s : string) (acc : N) : option N :=
  match s with
  | EmptyString => Some acc
  | String c rest =>
      match digitOf c with
      | Some d => numeral rest (10 * acc + d)%N
      | None => None
      end
  end.

Definition arrayIndex (s : string) : option N :=
  match s with
  | EmptyString => None
  | String c rest =>
      if Ascii.eqb c "0" then (if String.eqb rest "" then Some 0%N else None)
      else match numeral s 0%N with
           | Some i => if (i <? 4294967295)%N then Some i else None
           | None => None
           end
  end.

Fixpoint replaceOwn {A : Type} (key : string) (value : A) (entries : list (string * A))
    : list (string * A) :=
  match entries with
  | [] => []
  | (k, v) :: rest =>
      if String.eqb k key then (k, value) :: rest else (k, v) :: replaceOwn key value rest
  end.

Fixpoint insertIndexed {A : Type} (i : N) (key : string) (value : A)
    (entries : list (string * A)) : list (string * A) :=
  match entries with
  | [] => [(key, value)]
  | (k, v) :: rest =>
      match arrayIndex k with
      | Some j =>
          if (j <? i)%N then (k, v) :: insertIndexed i key value rest
          else (key, value) :: (k, v) :: rest
      | None => (key, value) :: (k, v) :: rest
      end
  end.

(** [obj[key] = value] for an object value, on an object literal with the own
    properties [entries]: [__proto__] makes the value the prototype and adds
    no own property; an existing key keeps its place; a new key that is an
    array index goes among the array indices, which come first and in
    ascending order; any other new key goes to the end. *)
Definition assign {A : Type} (key : string) (value : A) (entries : list (string * A))
    : list (string * A) :=
  if String.eqb key "__proto__" then entries
  else if bool_decide (key ∈ map fst entries) then replaceOwn key value entries
  else match arrayIndex key with
       | Some i => insertIndexed i key value entries
       | None => (entries ++ [(key, value)])%list
       end.

Section Supply.

(** [uuid n] is what the [n]-th call of [randomUUID()] returns; the functions
    below take the number of calls made so far and return it with their
    result. *)
Variable uuid : nat -> string.

(** Step 1: [for (const oldId of Object.keys(blocks)) blockIdMap[oldId] = randomUUID()] *)
Fixpoint assignIds (keys : list string) (blockIdMap : gmap string string) (n : nat)
    : gmap string string * nat :=
  match keys with
  | [] => (blockIdMap, n)
  | oldId :: rest => assignIds rest (plainSet oldId (uuid n) blockIdMap) (S n)
  end.

(** [for (const [subId, subBlock] of Object.entries(block.subBlocks ?? {}))
      { subBlock.id = randomUUID(); block.subBlocks[subId] = subBlock }] *)
Fixpoint renewSubBlocks (subBlocks : list (string * SubBlock)) (n : nat)
    : list (string * SubBlock) * nat :=
  match subBlocks with
  | [] => ([], n)
  | (subId, subBlock) :: rest =>
      let '(rest', n') := renewSubBlocks rest (S n) in
      ((subId, {| sub_id := uuid n; sub_fields := sub_fields subBlock |}) :: rest', n')
  end.

(** [const newId = blockIdMap[oldId]] and the key [newBlocks[newId]] names.
    For a key of the template the map has an own entry, which step 1 made,
    unless the key is [__proto__]: then [newId] is [Object.prototype]. *)
Definition newIdOf (blockIdMap : gmap string string) (oldId : string) : Ref * string :=
  match plainGet blockIdMap oldId with
  | Own id => (RefId id, id)
  | Inherited name => (RefMember name, memberText name)
  | Absent => (RefUndefined, "undefined")
  end.

(** Step 2, the loop over [Object.entries(template.blocks)]. *)
Fixpoint renewBlocks (blockIdMap : gmap string string) (entries : list (string * Block string))
    (newBlocks : list (string * Block Ref)) (n : nat) : list (string * Block Ref) * nat :=
  match entries with
  | [] => (newBlocks, n)
  | (oldId, block) :: rest =>
      let newId := newIdOf blockIdMap oldId in
      let '(subBlocks, n') :=
        match block_subBlocks block with
        | Some subBlocks => let '(s, n') := renewSubBlocks subBlocks n in (Some s, n')
        | None => (None, n)
        end in
      renewBlocks blockIdMap rest
        (assign newId.2
           {| block_id := newId.1; block_subBlocks := subBlocks;
              block_fields := block_fields block |}
           newBlocks)
        n'
  end.

(** [if (blockIdMap[id]) id = blockIdMap[id]]: an inherited member is a
    function or an object, hence truthy. *)
Definition renamedIfMapped (blockIdMap : gmap string string) (id : string) : Ref :=
  match plainGet blockIdMap id with
  | Own newId => if String.eqb newId "" then RefId id else RefId newId
  | Inherited name => RefMember name
  | Absent => RefId id
  end.

(** Step 3, the loop over [template.edges]. *)
Fixpoint renewEdges (blockIdMap : gmap string string) (es : list (Edge string)) (n : nat)
    : list (Edge Ref) * nat :=
  match es with
  | [] => ([], n)
  | edge :: rest =>
      let '(rest', n') := renewEdges blockIdMap rest (S n) in
      ({| edge_id := uuid n;
          edge_source := renamedIfMapped blockIdMap (edge_source edge);
          edge_target := renamedIfMapped blockIdMap (edge_target edge);
          edge_fields := edge_fields edge |} :: rest', n')
  end.

(** [blockIdMap[n] ?? n] *)
Definition renamedNode (blockIdMap : gmap string string) (node : string) : Ref :=
  match plainGet blockIdMap node with
  | Own newId => RefId newId
  | Inherited name => RefMember name
  | Absent => RefId node
  end.

(** Steps 4 and 5, the loop over the entries of [template.loops] and of
    [template.parallels]. *)
Fixpoint renewSubflows (blockIdMap : gmap string string)
    (entries : list (string * Subflow string)) (newFlows : list (string * Subflow Ref))
    (n : nat) : list (string * Subflow Ref) * nat :=
  match entries with
  | [] => (newFlows, n)
  | (_, flow) :: rest =>
      let newId := uuid n in
      renewSubflows blockIdMap rest
        (assign newId
           {| flow_id := newId;
              flow_nodes := map (renamedNode blockIdMap) (flow_nodes flow);
              flow_fields := flow_fields flow |}
           newFlows)
        (S n)
  end.

(** The function, for a template that is an object. *)
Definition updateTemplateUUIDsInPlace (template : WorkflowState string) (n : nat)
    : WorkflowState Ref * nat :=
  let entries := default [] (blocks template) in
  let '(blockIdMap, n1) := assignIds (map fst entries) ∅ n in
  let '(newBlocks, n2) := renewBlocks blockIdMap entries [] n1 in
  let '(newEdges, n3) :=
    match edges template with
    | Some es => let '(es', n') := renewEdges blockIdMap es n2 in (Some es', n')
    | None => (None, n2)
    end in
  let '(newLoops, n4) :=
    match loops template with
    | Some ls => let '(ls', n') := renewSubflows blockIdMap ls [] n3 in (Some ls', n')
    | None => (None, n3)
    end in
  let '(newParallels, n5) :=
    match parallels template with
    | Some ps => let '(ps', n') := renewSubflows blockIdMap ps [] n4 in (Some ps', n')
    | None => (None, n4)
    end in
  ({| blocks := Some newBlocks; edges := newEdges; loops := newLoops;
      parallels := newParallels |}, n5).

End Supply.

End TemplateIds.

(** The ids of a template, as the function writes them: of the blocks, of
    their sub-blocks, of the edges, of the loops and of the parallels. *)
Definition blockIds {I : Type} (t : TemplateIds.WorkflowState I) : list string :=
  map fst (default [] (TemplateIds.blocks t)).

Definition subBlockIds {I : Type} (t : TemplateIds.WorkflowState I) : list string :=
  concat (map (fun entry : string * TemplateIds.Block I =>
                 map (fun sub : string * TemplateIds.SubBlock => TemplateIds.sub_id sub.2)
                     (default [] (TemplateIds.block_subBlocks entry.2)))
              (default [] (TemplateIds.blocks t))).

Definition edgeIds {I : Type} (t : TemplateIds.WorkflowState I) : list string :=
  map TemplateIds.edge_id (default [] (TemplateIds.edges t)).

Definition loopIds {I : Type} (t : TemplateIds.WorkflowState I) : list string :=
  map fst (default [] (TemplateIds.loops t)).

Definition parallelIds {I : Type} (t : TemplateIds.WorkflowState I) : list string :=
  map fst (default [] (TemplateIds.parallels t)).

Definition allIds {I : Type} (t : TemplateIds.WorkflowState I) : list string :=
  (blockIds t ++ subBlockIds t ++ edgeIds t ++ loopIds t ++ parallelIds t)%list.

(** The edges as pairs of end points, and the nodes of the loops and
    parallels. *)
Definition connections {I : Type} (t : TemplateIds.WorkflowState I) : list (I * I) :=
  map (fun e => (TemplateIds.edge_source e, TemplateIds.edge_target e))
      (default [] (TemplateIds.edges t)).

Definition loopNodes {I : Type} (t : TemplateIds.WorkflowState I) : list (list I) :=
  map (fun entry : string * TemplateIds.Subflow I => TemplateIds.flow_nodes entry.2)
      (default [] (TemplateIds.loops t)).

Definition parallelNodes {I : Type} (t : TemplateIds.WorkflowState I) : list (list I) :=
  map (fun entry : string * TemplateIds.Subflow I => TemplateIds.flow_nodes entry.2)
      (default [] (TemplateIds.parallels t)).

(** What the function is not to touch: of every block its [fields] and, of
    its sub-blocks, the keys and the [fields]; the [fields] of the edges, of
    the loops and of the parallels. *)
Definition subBlockContents (subBlocks : option (list (string * TemplateIds.SubBlock)))
    : option (list (string * JsVal)) :=
  map (fun sub : string * TemplateIds.SubBlock => (sub.1, TemplateIds.sub_fields sub.2))
    <$> subBlocks.

Definition blockContents {I : Type} (t : TemplateIds.WorkflowState I)
    : list (JsVal * option (list (string * JsVal))) :=
  map (fun entry : string * TemplateIds.Block I =>
         (TemplateIds.block_fields entry.2,
          subBlockContents (TemplateIds.block_subBlocks entry.2)))
      (default [] (TemplateIds.blocks t)).

Definition otherContents {I : Type} (t : TemplateIds.WorkflowState I)
    : list JsVal * list JsVal * list JsVal :=
  (map TemplateIds.edge_fields (default [] (TemplateIds.edges t)),
   map (fun entry : string * TemplateIds.Subflow I => TemplateIds.flow_fields entry.2)
       (default [] (TemplateIds.loops t)),
   map (fun entry : string * TemplateIds.Subflow I => TemplateIds.flow_fields entry.2)
       (default [] (TemplateIds.parallels t))).

(** Every block, loop and parallel is stored under the id it carries. *)
Definition keyedById (t : TemplateIds.WorkflowState TemplateIds.Ref) : Prop :=
  Forall (fun entry : string * TemplateIds.Block TemplateIds.Ref =>
            TemplateIds.block_id entry.2 = TemplateIds.RefId entry.1)
         (default [] (TemplateIds.blocks t))
  /\ Forall (fun entry : string * TemplateIds.Subflow TemplateIds.Ref =>
               TemplateIds.flow_id entry.2 = entry.1)
            (default [] (TemplateIds.loops t))
  /\ Forall (fun entry : string * TemplateIds.Subflow TemplateIds.Ref =>
               TemplateIds.flow_id entry.2 = entry.1)
            (default [] (TemplateIds.parallels t)).

(** What an end point or node that names no block of the template becomes. *)
Definition unmapped (name : string) : TemplateIds.Ref :=
  if bool_decide (name ∈ TemplateIds.objectPrototypeNames) then TemplateIds.RefMember name
  else TemplateIds.RefId name.

Module TemplateSamples.

Definition uuid (n : nat) : string := "uuid-" +:+ pretty n.

(** A loop block with one child, an edge into the loop and the loop's entry
    in [loops], keyed like its block. *)
Definition template : TemplateIds.WorkflowState string :=
  {| TemplateIds.blocks :=
       Some [ ("start", {| TemplateIds.block_id := "start";
                           TemplateIds.block_subBlocks :=
                             Some [("input", {| TemplateIds.sub_id := "input";
                                                TemplateIds.sub_fields := VNull |})];
                           TemplateIds.block_fields := VStr "starter" |});
              ("loop-1", {| TemplateIds.block_id := "loop-1";
                            TemplateIds.block_subBlocks := None;
                            TemplateIds.block_fields := VStr "loop" |});
              ("child", {| TemplateIds.block_id := "child";
                           TemplateIds.block_subBlocks := Some [];
                           TemplateIds.block_fields := VStr "agent" |}) ];
     TemplateIds.edges :=
       Some [ {| TemplateIds.edge_id := "e1"; TemplateIds.edge_source := "start";
                 TemplateIds.edge_target := "loop-1"; TemplateIds.edge_fields := VNull |} ];
     TemplateIds.loops :=
       Some [ ("loop-1", {| TemplateIds.flow_id := "loop-1";
                            TemplateIds.flow_nodes := ["child"];
                            TemplateIds.flow_fields := VNull |}) ];
     TemplateIds.parallels := None |}.

(** A template whose one block is stored under [__proto__] (as [JSON.parse]
    makes it from a text with that key) and whose edge ends at a name of
    [Object.prototype]. *)
Definition odd : TemplateIds.WorkflowState string :=
  {| TemplateIds.blocks :=
       Some [ ("__proto__", {| TemplateIds.block_id := "__proto__";
                               TemplateIds.block_subBlocks := None;
                               TemplateIds.block_fields := VStr "agent" |}) ];
     TemplateIds.edges :=
       Some [ {| TemplateIds.edge_id := "e1"; TemplateIds.edge_source := "__proto__";
                 TemplateIds.edge_target := "constructor";
                 TemplateIds.edge_fields := VNull |} ];
     TemplateIds.loops := None;
     TemplateIds.parallels := None |}.

End TemplateSamples.



(* ===================================================================== *)
(** * Properties *)
(* ===================================================================== *)

(** ** Trigger payload lookup *)

Lemma projectPayload_dom (out : gmap string JsVal) :
  dom (projectPayload out) = list_to_set payloadFields.
Proof. unfold projectPayload. rewrite dom_list_to_map_L. reflexivity. Qed.

Lemma projectPayload_lookup (out : gmap string JsVal) (k : string) :
  k ∈ payloadFields -> projectPayload out !! k = Some (field out k).
Proof.
  unfold payloadFields. intros Hk.
  repeat (apply elem_of_cons in Hk as [-> | Hk]); try (by vm_compute).
  by apply elem_of_nil in Hk.
Qed.

Lemma find_none_iff {A : Type} (p : A -> bool) (l : list A) :
  List.find p l = None <-> forall x, x ∈ l -> p x = false.
Proof.
  induction l as [|a l IH]; simpl.
  - split; [intros _ x Hx; by apply elem_of_nil in Hx | done].
  - destruct (p a) eqn:Hpa.
    + split; [done |]. intros H. specialize (H a (list_elem_of_here _ _)). congruence.
    + rewrite IH. split.
      * intros H x Hx. apply elem_of_cons in Hx as [-> | Hx]; auto.
      * intros H x Hx. apply H. by apply list_elem_of_further.
Qed.

(** [find] returns the first element that satisfies the predicate. *)
Lemma find_first {A : Type} (p : A -> bool) (pre post : list A) (x : A) :
  (forall y, y ∈ pre -> p y = false) -> p x = true -> List.find p (pre ++ x :: post)%list = Some x.
Proof.
  induction pre as [|a pre IH]; simpl; intros Hpre Hx.
  - by rewrite Hx.
  - rewrite (Hpre a (list_elem_of_here _ _)). apply IH; [| done].
    intros y Hy. apply Hpre. by apply list_elem_of_further.
Qed.

Lemma isVyinChatbot_false (b : SerializedBlock) :
  isVyinChatbot b = false <-> metadataId b <> Some "vyin_chatbot".
Proof. unfold isVyinChatbot. by rewrite bool_decide_eq_false. Qed.

Lemma isVyinChatbot_true (b : SerializedBlock) :
  isVyinChatbot b = true <-> metadataId b = Some "vyin_chatbot".
Proof. unfold isVyinChatbot. by rewrite bool_decide_eq_true. Qed.

(** C10.  [getVyinChatTriggerPayload] is a total function of the context (it
    has no throwing path, so its result is a plain object).  It is the empty
    object when the context has no workflow, when no block of the workflow has
    metadata id ['vyin_chatbot'], and when the first such block has no output
    in the block state store; otherwise it is the object with exactly the
    eleven payload fields, each read from that block's stored output.  No
    other outcome exists. *)
Theorem getVyinChatTriggerPayload_total (context : ExecutionContext) :
  (ctx_workflow context = None -> getVyinChatTriggerPayload context = ∅)
  /\ (forall wf,
        ctx_workflow context = Some wf ->
        (forall b, b ∈ wf_blocks wf -> metadataId b <> Some "vyin_chatbot") ->
        getVyinChatTriggerPayload context = ∅)
  /\ (forall wf pre vyin post,
        ctx_workflow context = Some wf ->
        wf_blocks wf = (pre ++ vyin :: post)%list ->
        (forall b, b ∈ pre -> metadataId b <> Some "vyin_chatbot") ->
        metadataId vyin = Some "vyin_chatbot" ->
        match stateOutput context (b_id vyin) with
        | None => getVyinChatTriggerPayload context = ∅
        | Some out =>
            getVyinChatTriggerPayload context = projectPayload out
            /\ dom (getVyinChatTriggerPayload context) = list_to_set payloadFields
            /\ (forall k, k ∈ payloadFields ->
                  getVyinChatTriggerPayload context !! k = Some (field out k))
        end)
  /\ (getVyinChatTriggerPayload context = ∅
      \/ exists out, getVyinChatTriggerPayload context = projectPayload out).
Proof.
  unfold getVyinChatTriggerPayload. repeat split.
  - by intros ->.
  - intros wf -> Hnone.
    assert (List.find isVyinChatbot (wf_blocks wf) = None) as ->; [| done].
    apply find_none_iff. intros b Hb. apply isVyinChatbot_false. auto.
  - intros wf pre vyin post -> Hblocks Hpre Hvyin.
    rewrite Hblocks, (find_first isVyinChatbot pre post vyin).
    + destruct (stateOutput context (b_id vyin)) as [out|]; [| done].
      split; [done |]. split; [apply projectPayload_dom | apply projectPayload_lookup].
    + intros y Hy. apply isVyinChatbot_false. auto.
    + by apply isVyinChatbot_true.
  - destruct (ctx_workflow context) as [wf|]; [| by left].
    destruct (List.find isVyinChatbot (wf_blocks wf)) as [vyin|]; [| by left].
    destruct (stateOutput context (b_id vyin)) as [out|]; [right; by exists out | by left].
Qed.

(** In the sample chat workflow the trigger block comes second and has run:
    the payload has the eleven fields, with the stored application id and
    [undefined] for what the output lacks. *)
Lemma getVyinChatTriggerPayload_total_witness :
  dom (getVyinChatTriggerPayload Samples.chat) = list_to_set payloadFields
  /\ getVyinChatTriggerPayload Samples.chat !! "app_id" = Some (VStr "app1")
  /\ getVyinChatTriggerPayload Samples.chat !! "bot_uid" = Some VUndefined.
Proof.
  destruct (getVyinChatTriggerPayload_total Samples.chat) as (_ & _ & Hfound & _).
  specialize (Hfound {| wf_blocks :=
                          [ Samples.routerA; Samples.mkBlock "T" (Some "vyin_chatbot") (Some "Chat");
                            Samples.mkBlock "abc" (Some "function") (Some "");
                            Samples.mkBlock "def" (Some "agent") (Some "Care") ];
                        wf_connections :=
                          [ Samples.edge "T" "A"; Samples.edge "A" "abc"; Samples.edge "A" "def" ] |}
                     [Samples.routerA]
                     (Samples.mkBlock "T" (Some "vyin_chatbot") (Some "Chat"))
                     [ Samples.mkBlock "abc" (Some "function") (Some "");
                       Samples.mkBlock "def" (Some "agent") (Some "Care") ]
                     eq_refl eq_refl).
  change (stateOutput Samples.chat (b_id (Samples.mkBlock "T" (Some "vyin_chatbot") (Some "Chat"))))
    with (Some Samples.triggerOutput) in Hfound.
  destruct Hfound as (_ & Hdom & Hfields).
  - intros b Hb. apply list_elem_of_singleton in Hb as ->. vm_compute. discriminate.
  - reflexivity.
  - split; [exact Hdom |]. split.
    + rewrite Hfields; [vm_compute; reflexivity |].
      unfold payloadFields. do 3 apply list_elem_of_further. apply list_elem_of_here.
    + rewrite Hfields; [vm_compute; reflexivity |].
      unfold payloadFields. do 6 apply list_elem_of_further. apply list_elem_of_here.
Defined.

(** ** Candidate assembly of the intent router *)

Lemma mapThrowing_ok {A B : Type} (f : A -> JsResult B) (g : A -> B) (l : list A) :
  (forall a, a ∈ l -> f a = Ok (g a)) -> mapThrowing f l = Ok (map g l).
Proof.
  induction l as [|a l IH]; simpl; intros H; [done |].
  rewrite (H a (list_elem_of_here _ _)), IH; [done |].
  intros x Hx. apply H. by apply list_elem_of_further.
Qed.

Lemma findBlock_some (target : string) (blocks : list SerializedBlock) :
  (exists b, b ∈ blocks /\ b_id b = target) ->
  exists b, findBlock target blocks = Some b /\ b_id b = target /\ b ∈ blocks.
Proof.
  intros (b & Hb & Hid). unfold findBlock.
  destruct (List.find _ blocks) as [b'|] eqn:Hfind.
  - apply List.find_some in Hfind as [Hin Hdec].
    apply bool_decide_eq_true in Hdec. exists b'. by rewrite <- list_elem_of_In in Hin.
  - rewrite find_none_iff in Hfind. specialize (Hfind b Hb).
    apply bool_decide_eq_false in Hfind. done.
Qed.

Lemma filter_fmap_comm {A B : Type} (f : A -> B) (P : B -> Prop)
    `{forall b, Decision (P b)} (l : list A) :
  map f (filter (fun a => P (f a)) l) = filter P (map f l).
Proof.
  induction l as [|a l IH]; [done |]. simpl.
  rewrite !filter_cons. destruct (decide (P (f a))); simpl; by rewrite IH.
Qed.

Lemma elem_of_map {A B : Type} (f : A -> B) (l : list A) (b : B) :
  b ∈ map f l <-> exists a, a ∈ l /\ f a = b.
Proof.
  rewrite list_elem_of_In, in_map_iff. split.
  - intros (a & Hfa & Ha). exists a. by rewrite list_elem_of_In.
  - intros (a & Ha & Hfa). exists a. by rewrite <- list_elem_of_In.
Qed.

Lemma filter_none {A : Type} (P : A -> Prop) `{forall a, Decision (P a)} (l : list A) :
  (forall x, x ∈ l -> ~ P x) -> filter P l = [].
Proof.
  induction l as [|a l IH]; intros Hl; [done |].
  rewrite filter_cons_False by (apply Hl, list_elem_of_here).
  apply IH. intros x Hx. apply Hl. by apply list_elem_of_further.
Qed.

Lemma elem_of_previousBlockIds (block : SerializedBlock) (wf : SerializedWorkflow) (p : string) :
  p ∈ previousBlockIds block wf <->
  exists conn, conn ∈ wf_connections wf /\ conn_target conn = b_id block /\ conn_source conn = p.
Proof.
  unfold previousBlockIds. rewrite elem_of_list_to_set, elem_of_map. split.
  - intros (conn & Hconn & <-). apply list_elem_of_filter in Hconn as [? ?]. by exists conn.
  - intros (conn & ? & ? & <-). exists conn. split; [| done]. by apply list_elem_of_filter.
Qed.

Lemma elem_of_candidateIds (block : SerializedBlock) (wf : SerializedWorkflow) (c : string) :
  c ∈ candidateIds block wf <->
  (exists conn, conn ∈ wf_connections wf /\ conn_source conn = b_id block /\ conn_target conn = c)
  /\ ~ (exists conn, conn ∈ wf_connections wf /\ conn_target conn = b_id block
                     /\ conn_source conn = c).
Proof.
  unfold candidateIds, outgoing.
  rewrite list_elem_of_filter, elem_of_previousBlockIds, elem_of_map. split.
  - intros [Hnot (conn & Hconn & <-)]. apply list_elem_of_filter in Hconn as [? ?].
    split; [by exists conn | done].
  - intros [(conn & ? & ? & <-) Hnot]. split; [done |].
    exists conn. split; [| done]. by apply list_elem_of_filter.
Qed.

(** C1 (as the code has it).  When the context has a workflow in which every
    outgoing edge of the router ends in a block of that workflow,
    [getTargetBlocks] returns a descriptor list whose ids are, in edge order,
    the targets of the router's outgoing edges that are no direct predecessor
    of the router: an id is listed if and only if it is such a target, and it
    is listed once for every outgoing edge that reaches it. *)
Theorem getTargetBlocks_candidates (ext : VyinIntentRouter.Externals)
    (block : SerializedBlock) (context : ExecutionContext) (wf : SerializedWorkflow) :
  ctx_workflow context = Some wf ->
  (forall conn, conn ∈ wf_connections wf -> conn_source conn = b_id block ->
     exists b, b ∈ wf_blocks wf /\ b_id b = conn_target conn) ->
  exists targetBlocks,
    getTargetBlocks ext block context = Ok (Some targetBlocks)
    /\ map tb_id targetBlocks = candidateIds block wf
    /\ (forall c, c ∈ map tb_id targetBlocks <->
          (exists conn, conn ∈ wf_connections wf /\ conn_source conn = b_id block
                        /\ conn_target conn = c)
          /\ ~ (exists conn, conn ∈ wf_connections wf /\ conn_target conn = b_id block
                             /\ conn_source conn = c))
    /\ (forall c, length (filter (fun i => i = c) (map tb_id targetBlocks))
                  = if decide (c ∈ previousBlockIds block wf) then 0%nat
                    else length (filter (fun conn => conn_target conn = c) (outgoing block wf))).
Proof.
  intros Hwf Hblocks. unfold getTargetBlocks. rewrite Hwf.
  set (g := fun conn : SerializedConnection =>
              match describeTarget ext context wf conn with
              | Ok d => d
              | Throw _ => {| tb_id := conn_target conn; tb_type := None; tb_title := None;
                              tb_description := None; tb_subBlocks := ∅;
                              tb_currentState := None |}
              end).
  assert (Hg : forall conn, conn ∈ outgoing block wf ->
                 describeTarget ext context wf conn = Ok (g conn)
                 /\ tb_id (g conn) = conn_target conn).
  { intros conn Hconn. apply list_elem_of_filter in Hconn as [Hsrc Hin].
    destruct (findBlock_some (conn_target conn) (wf_blocks wf) (Hblocks conn Hin Hsrc))
      as (b & Hfind & Hid & _).
    unfold g, describeTarget. rewrite Hfind. simpl. done. }
  fold (outgoing block wf).
  rewrite (mapThrowing_ok _ g) by (intros a Ha; apply Hg, Ha). simpl.
  eexists. split; [reflexivity |].
  assert (Hids : map tb_id (filter (fun tb => tb_id tb ∉ previousBlockIds block wf)
                              (map g (outgoing block wf))) = candidateIds block wf).
  { pose proof (filter_fmap_comm tb_id (fun c => c ∉ previousBlockIds block wf)
                  (map g (outgoing block wf))) as Hcomm.
    simpl in Hcomm. rewrite Hcomm. unfold candidateIds. f_equal. rewrite map_map. apply map_ext_in.
    intros conn Hconn. apply Hg. by apply list_elem_of_In. }
  split; [exact Hids |]. rewrite Hids. split; [apply elem_of_candidateIds |].
  intros c. unfold candidateIds.
  rewrite list_filter_filter.
  destruct (decide (c ∈ previousBlockIds block wf)) as [Hin | Hnotin].
  - rewrite filter_none; [done |]. intros x _ [-> ?]. done.
  - rewrite <- (filter_fmap_comm conn_target (fun i => i = c /\ i ∉ previousBlockIds block wf)).
    rewrite length_map. f_equal. apply list_filter_iff. intros conn.
    split; [by intros [? ?] |]. intros Hc. split; [done | by rewrite Hc].
Qed.

(** ** Routing decision *)

Lemma findChosen_elem (targetBlocks : list TargetBlock) (r : string) :
  r ∈ map tb_id targetBlocks ->
  exists chosen, findChosen (Some targetBlocks) r = Some chosen
                 /\ chosen ∈ targetBlocks /\ tb_id chosen = r.
Proof.
  intros Hr. apply elem_of_map in Hr as (tb & Htb & Hid).
  unfold findChosen. simpl.
  destruct (List.find _ targetBlocks) as [chosen|] eqn:Hfind.
  - apply List.find_some in Hfind as [Hin Hdec]. apply bool_decide_eq_true in Hdec.
    exists chosen. by rewrite <- list_elem_of_In in Hin.
  - rewrite find_none_iff in Hfind. specialize (Hfind tb Htb).
    by apply bool_decide_eq_false in Hfind.
Qed.


(** Once the candidates are assembled and the request is validated, [execute]
    is the decision taken on the gateway's answer. *)
Lemma execute_after_gateway (ext : VyinIntentRouter.Externals) (block : SerializedBlock)
    (inputs : gmap string JsVal) (context : ExecutionContext)
    (targetBlocks : option (list TargetBlock)) (request : string * ToolParams) :
  getTargetBlocks ext block context = Ok targetBlocks ->
  prepare ext block inputs context targetBlocks = Ok request ->
  execute ext block inputs context
  = decide_route block inputs targetBlocks (executeTool ext request.1 request.2 context).
Proof. intros Htb Hreq. unfold execute. rewrite Htb. simpl. rewrite Hreq. done. Qed.

(** C4 (as the code has it).  When the gateway call succeeds, the response
    text is [String(output?.response || '')], trimmed and lower-cased, and it
    is compared for equality with the candidate ids.  If it equals one, the
    router returns the output whose selected path has that candidate's id, its
    type or ['unknown'] when the type is missing or empty, and its title or
    ['Untitled Block'] when the title is missing or empty. *)
Theorem execute_selects_matching_candidate (ext : VyinIntentRouter.Externals)
    (block : SerializedBlock) (inputs : gmap string JsVal) (context : ExecutionContext)
    (targetBlocks : list TargetBlock) (request : string * ToolParams) :
  getTargetBlocks ext block context = Ok (Some targetBlocks) ->
  prepare ext block inputs context (Some targetBlocks) = Ok request ->
  tr_success (executeTool ext request.1 request.2 context) = true ->
  responseTextOf (executeTool ext request.1 request.2 context) ∈ map tb_id targetBlocks ->
  responseTextOf (executeTool ext request.1 request.2 context)
  = toLowerCase (trim (toStr (jsOr (optProp (tr_output (executeTool ext request.1 request.2 context))
                                            "response") (VStr ""))))
  /\ exists chosen,
       chosen ∈ targetBlocks
       /\ tb_id chosen = responseTextOf (executeTool ext request.1 request.2 context)
       /\ execute ext block inputs context
          = Ok {| userInput := toStr (jsOr (field inputs "userInput") (VStr ""));
                  selectedPath :=
                    {| blockId := tb_id chosen;
                       blockType := strOr (tb_type chosen) "unknown";
                       blockTitle := strOr (tb_title chosen) "Untitled Block" |} |}.
Proof.
  intros Htb Hreq Hok Hmatch. split; [done |].
  destruct (findChosen_elem _ _ Hmatch) as (chosen & Hfind & Hin & Hid).
  exists chosen. split; [done |]. split; [done |].
  rewrite (execute_after_gateway _ _ _ _ _ _ Htb Hreq).
  unfold decide_route. rewrite Hok, Hfind. done.
Qed.


(** *** The properties on the sample workflows *)

(** With edges [X -> A], [A -> B], [A -> X], [A -> C] the candidates of [A]
    are [B] and [C]: [X] is a target of [A] and is left out as a predecessor. *)
Lemma getTargetBlocks_candidates_witness :
  exists targetBlocks,
    getTargetBlocks (Samples.answering "") Samples.routerA Samples.fanOut = Ok (Some targetBlocks)
    /\ map tb_id targetBlocks = ["B"; "C"].
Proof.
  destruct (getTargetBlocks_candidates (Samples.answering "") Samples.routerA Samples.fanOut
              fanOutWorkflow eq_refl) as (targetBlocks & Hget & Hids & _).
  - intros conn Hconn Hsrc. vm_compute in Hconn.
    repeat (apply elem_of_cons in Hconn as [-> | Hconn]);
      try (by apply elem_of_nil in Hconn); try discriminate Hsrc.
    + exists (Samples.mkBlock "B" (Some "agent") (Some "Billing")).
      split; [| reflexivity]. vm_compute. do 2 apply list_elem_of_further. apply list_elem_of_here.
    + exists (Samples.mkBlock "X" (Some "starter") (Some "Start")).
      split; [| reflexivity]. vm_compute. apply list_elem_of_here.
    + exists (Samples.mkBlock "C" (Some "agent") (Some "Care")).
      split; [| reflexivity]. vm_compute. do 3 apply list_elem_of_further. apply list_elem_of_here.
  - exists targetBlocks. split; [exact Hget |]. rewrite Hids. vm_compute. reflexivity.
Defined.

(** C1 as stated fails: two edges from the router to the same block give two
    descriptors with the same id. *)
Lemma getTargetBlocks_keeps_duplicates :
  exists targetBlocks,
    getTargetBlocks (Samples.answering "") Samples.routerA Samples.doubled = Ok (Some targetBlocks)
    /\ map tb_id targetBlocks = ["B"; "B"]
    /\ ~ NoDup (map tb_id targetBlocks).
Proof.
  eexists. split; [vm_compute; reflexivity |]. split; [reflexivity |].
  simpl. intros Hnodup. apply NoDup_cons in Hnodup as [Hnotin _].
  apply Hnotin, list_elem_of_here.
Qed.

(** An outgoing edge to a block that the workflow does not have makes
    [getTargetBlocks] throw, and a context without workflow gives [undefined]. *)
Example getTargetBlocks_without_target_or_workflow :
  getTargetBlocks (Samples.answering "") Samples.routerA
    (Samples.mkContext [Samples.routerA] [Samples.edge "A" "ghost"] ∅)
  = Throw (Error "Target block ghost not found")
  /\ getTargetBlocks (Samples.answering "") Samples.routerA
       {| ctx_workflowId := "wf-1"; ctx_workspaceId := None; ctx_workflow := None;
          ctx_blockStates := ∅ |}
     = Ok None.
Proof. split; vm_compute; reflexivity. Qed.

(** Candidates ["abc"] and ["def"], response [" ABC \n"]: ["abc"] is selected. *)
Lemma execute_selects_matching_candidate_witness :
  execute (Samples.answering (" ABC " +:+ Samples.newline)) Samples.routerA Samples.routerInputs
    Samples.chat
  = Ok {| userInput := "I need a refund";
          selectedPath :=
            {| blockId := "abc"; blockType := "function"; blockTitle := "Untitled Block" |} |}.
Proof.
  destruct (execute_selects_matching_candidate
              (Samples.answering (" ABC " +:+ Samples.newline)) Samples.routerA
              Samples.routerInputs Samples.chat chatCandidates chatRequest)
    as [_ (chosen & Hin & Hid & Hexec)].
  - vm_compute. reflexivity.
  - vm_compute. reflexivity.
  - vm_compute. reflexivity.
  - vm_compute. apply list_elem_of_here.
  - vm_compute in Hin.
    repeat (apply elem_of_cons in Hin as [-> | Hin]); try (by apply elem_of_nil in Hin).
    + rewrite Hexec. vm_compute. reflexivity.
    + vm_compute in Hid. discriminate Hid.
Defined.

(** C4 as stated fails: the candidate ["abc"] has the empty string as its
    title, and the output names ['Untitled Block'] instead. *)
Lemma execute_output_title_is_defaulted :
  exists chosen out,
    findChosen (Some chatCandidates) "abc" = Some chosen
    /\ execute (Samples.answering (" ABC " +:+ Samples.newline)) Samples.routerA
         Samples.routerInputs Samples.chat = Ok out
    /\ tb_title chosen = Some ""
    /\ blockTitle (selectedPath out) = "Untitled Block"
    /\ ~ carriesIdTypeTitle chosen out.
Proof.
  eexists. eexists. split; [vm_compute; reflexivity |]. split; [vm_compute; reflexivity |].
  split; [reflexivity |]. split; [reflexivity |].
  intros (_ & _ & Htitle). vm_compute in Htitle. discriminate Htitle.
Qed.


(** A router whose only outgoing edge leads back to its predecessor has no
    candidate, and fails even when the response names that block. *)
Example execute_without_candidates :
  getTargetBlocks (Samples.answering "t") Samples.routerA Samples.chatLoop = Ok (Some [])
  /\ execute (Samples.answering "t") Samples.routerA Samples.routerInputs Samples.chatLoop
     = Throw (Error "Invalid routing decision: t").
Proof. split; vm_compute; reflexivity. Qed.

(** ** Deployment version store *)

Lemma set_isActive_same (r : DeploymentVersionRow) : set_isActive (dv_isActive r) r = r.
Proof. by destruct r. Qed.

Lemma isVersionOf_true (id : string) (v : Z) (r : DeploymentVersionRow) :
  isVersionOf id v r = true <-> dv_workflowId r = id /\ dv_version r = v.
Proof.
  unfold isVersionOf. rewrite andb_true_iff, bool_decide_eq_true, Z.eqb_eq. done.
Qed.

Lemma isVersionOf_false (id : string) (v : Z) (r : DeploymentVersionRow) :
  isVersionOf id v r = false <-> ~ (dv_workflowId r = id /\ dv_version r = v).
Proof. rewrite <- isVersionOf_true. by destruct (isVersionOf id v r). Qed.

(** Deactivating then activating, row by row. *)
Lemma activate_updates (id : string) (v : Z) (rows : list DeploymentVersionRow) :
  updateWhere (isVersionOf id v) (set_isActive true)
    (updateWhere (isActiveOf id) (set_isActive false) rows)
  = map (activateRow id v) rows.
Proof.
  unfold updateWhere. rewrite map_map. apply map_ext. intros r.
  unfold activateRow, isActiveOf, isVersionOf.
  destruct r as [rid wid ver nm st act cb ca]; simpl.
  destruct (bool_decide (wid = id)) eqn:Hw; simpl.
  - destruct act; simpl; rewrite Hw; simpl; unfold set_isActive; simpl;
      by destruct (ver =? v).
  - by rewrite Hw.
Qed.

(** The first update does not change which rows the second one matches. *)
Lemma returning_after_deactivate (id : string) (v : Z) (rows : list DeploymentVersionRow) :
  length (map dv_id (returningWhere (isVersionOf id v) (set_isActive true)
                       (updateWhere (isActiveOf id) (set_isActive false) rows)))
  = length (List.filter (isVersionOf id v) rows).
Proof.
  unfold returningWhere, updateWhere. rewrite !length_map.
  induction rows as [|r rows IH]; [done |]. simpl.
  assert (isVersionOf id v (if isActiveOf id r then set_isActive false r else r)
          = isVersionOf id v r) as ->.
  { by destruct (isActiveOf id r). }
  destruct (isVersionOf id v r); simpl; by rewrite IH.
Qed.

Lemma filter_no_match {A : Type} (p : A -> bool) (l : list A) :
  (forall x, x ∈ l -> p x = false) -> List.filter p l = [].
Proof.
  induction l as [|a l IH]; intros Hl; [done |]. simpl.
  rewrite (Hl a (list_elem_of_here _ _)). apply IH.
  intros x Hx. apply Hl. by apply list_elem_of_further.
Qed.

Lemma updateWhere_no_match {A : Type} (p : A -> bool) (f : A -> A) (l : list A) :
  (forall x, x ∈ l -> p x = false) -> updateWhere p f l = l.
Proof.
  induction l as [|a l IH]; intros Hl; [done |]. simpl.
  rewrite (Hl a (list_elem_of_here _ _)). f_equal. apply IH.
  intros x Hx. apply Hl. by apply list_elem_of_further.
Qed.

(** With unique versions, a version that exists is matched by exactly its
    own row. *)
Lemma filter_version_unique (id : string) (v : Z) (rows : list DeploymentVersionRow)
    (r0 : DeploymentVersionRow) :
  NoDup (map versionKey rows) -> r0 ∈ rows -> dv_workflowId r0 = id -> dv_version r0 = v ->
  List.filter (isVersionOf id v) rows = [r0].
Proof.
  induction rows as [|a rows IH]; intros Hnd Hin Hw Hv.
  - by apply elem_of_nil in Hin.
  - simpl in Hnd. apply NoDup_cons in Hnd as [Hnotin Hnd]. simpl.
    destruct (isVersionOf id v a) eqn:Ha.
    + apply isVersionOf_true in Ha as [Haw Hav].
      assert (Hrest : forall x, x ∈ rows -> isVersionOf id v x = false).
      { intros x Hx. apply isVersionOf_false. intros [Hxw Hxv]. apply Hnotin.
        apply elem_of_map. exists x. split; [done |]. unfold versionKey. congruence. }
      rewrite (filter_no_match _ _ Hrest).
      apply elem_of_cons in Hin as [-> | Hin]; [done |].
      specialize (Hrest r0 Hin). apply isVersionOf_false in Hrest. by destruct Hrest.
    + apply elem_of_cons in Hin as [-> | Hin].
      * apply isVersionOf_false in Ha. by destruct Ha.
      * by apply IH.
Qed.

Lemma active_after_activate (id : string) (v : Z) (rows : list DeploymentVersionRow) :
  List.filter (isActiveOf id) (map (activateRow id v) rows)
  = map (set_isActive true) (List.filter (isVersionOf id v) rows).
Proof.
  induction rows as [|r rows IH]; [done |]. simpl. rewrite IH.
  unfold activateRow, isActiveOf, isVersionOf.
  destruct (bool_decide (dv_workflowId r = id)) eqn:Hw; simpl.
  - rewrite Hw. simpl. by destruct (dv_version r =? v).
  - by rewrite Hw.
Qed.

Lemma active_elsewhere (id other : string) (v : Z) (rows : list DeploymentVersionRow) :
  other <> id ->
  List.filter (isActiveOf other) (map (activateRow id v) rows)
  = List.filter (isActiveOf other) rows.
Proof.
  intros Hne. induction rows as [|r rows IH]; [done |]. simpl. rewrite IH.
  unfold activateRow, isActiveOf.
  destruct (bool_decide (dv_workflowId r = id)) eqn:Hw; [| done].
  apply bool_decide_eq_true in Hw. simpl.
  rewrite !bool_decide_eq_false_2 by congruence. done.
Qed.

(** The transaction body on a version that exists, and on one that does not. *)
Lemma activateTx_found (id : string) (v now : Z) (db : Db) :
  List.filter (isVersionOf id v) (workflowDeploymentVersion db) <> [] ->
  ActivateRoute.activateTx id v now db
  = Ok {| workflowDeploymentVersion := map (activateRow id v) (workflowDeploymentVersion db);
          workflow := map (deployRow id now) (workflow db) |}.
Proof.
  intros Hfound. unfold ActivateRoute.activateTx. simpl.
  rewrite returning_after_deactivate, activate_updates.
  destruct (List.filter (isVersionOf id v) (workflowDeploymentVersion db)); [done |].
  simpl. done.
Qed.

Lemma activateTx_missing (id : string) (v now : Z) (db : Db) :
  List.filter (isVersionOf id v) (workflowDeploymentVersion db) = [] ->
  ActivateRoute.activateTx id v now db = Throw (Error "Deployment version not found").
Proof.
  intros Hnone. unfold ActivateRoute.activateTx. simpl.
  by rewrite returning_after_deactivate, Hnone.
Qed.

Lemma Forall2_map_self {A B : Type} (P : A -> B -> Prop) (f : A -> B) (l : list A) :
  (forall x, x ∈ l -> P x (f x)) -> Forall2 P l (map f l).
Proof.
  induction l as [|a l IH]; intros Hl; simpl; constructor.
  - apply Hl, list_elem_of_here.
  - apply IH. intros x Hx. apply Hl. by apply list_elem_of_further.
Qed.

(** C2.  For a request that passes the API key check and names a version that
    exists, with versions unique per workflow, [POST] answers 200 with the
    deployment timestamp and leaves the database in the state the transaction
    body produced: in the workflow every row is active exactly when it is the
    requested version (so the formerly active row is cleared and the requested
    one set), rows of other workflows are untouched, the parent workflow is
    marked deployed with the timestamp, exactly one row of the workflow is
    active, and no workflow has more active rows than before: if at most one
    row per workflow was active, that still holds.  Row by row: the row of
    the parent workflow has [isDeployed] true and [deployedAt] the timestamp,
    every other workflow row is what it was; a version of the workflow
    differs from what it was in [isActive] only, which is true exactly for
    the requested version, and the versions of other workflows are what they
    were. *)
Theorem activate_success (ext : Deployments.Externals) (req : Request) (db : Db)
    (user : string) (v : Z) :
  authenticate ext req = inr user ->
  req_versionNum req = Finite v ->
  uniqueVersions db ->
  (exists r, r ∈ workflowDeploymentVersion db
             /\ dv_workflowId r = req_id req /\ dv_version r = v) ->
  exists db',
    ActivateRoute.POST ext req db
    = (db', createSuccessResponse
              (VObj [("success", VBool true); ("deployedAt", VNum (req_now req))]))
    /\ status (ActivateRoute.POST ext req db).2 = 200
    /\ workflowDeploymentVersion db'
       = map (activateRow (req_id req) v) (workflowDeploymentVersion db)
    /\ workflow db' = map (deployRow (req_id req) (req_now req)) (workflow db)
    /\ (exists r, activeRows (req_id req) db' = [r]
                  /\ dv_version r = v /\ dv_workflowId r = req_id req)
    /\ (forall other, other <> req_id req -> activeRows other db' = activeRows other db)
    /\ (atMostOneActive db -> atMostOneActive db')
    /\ Forall2 (fun w w' =>
                  w_id w' = w_id w
                  /\ if bool_decide (w_id w = req_id req)
                     then w_isDeployed w' = true /\ w_deployedAt w' = Some (req_now req)
                     else w' = w)
               (workflow db) (workflow db')
    /\ Forall2 (fun r r' =>
                  sameExceptActive r r'
                  /\ if bool_decide (dv_workflowId r = req_id req)
                     then dv_isActive r' = (dv_version r =? v)
                     else r' = r)
               (workflowDeploymentVersion db) (workflowDeploymentVersion db').
Proof.
  intros Hauth Hver Huniq (r0 & Hin & Hw & Hv).
  pose proof (filter_version_unique _ _ _ _ Huniq Hin Hw Hv) as Hone.
  assert (Htx : ActivateRoute.activateTx (req_id req) v (req_now req) db
                = Ok {| workflowDeploymentVersion :=
                          map (activateRow (req_id req) v) (workflowDeploymentVersion db);
                        workflow := map (deployRow (req_id req) (req_now req)) (workflow db) |}).
  { apply activateTx_found. by rewrite Hone. }
  assert (Hpost : ActivateRoute.POST ext req db
                  = ({| workflowDeploymentVersion :=
                          map (activateRow (req_id req) v) (workflowDeploymentVersion db);
                        workflow := map (deployRow (req_id req) (req_now req)) (workflow db) |},
                     createSuccessResponse
                       (VObj [("success", VBool true); ("deployedAt", VNum (req_now req))]))).
  { unfold ActivateRoute.POST, transaction. by rewrite Hauth, Hver, Htx. }
  eexists. split; [exact Hpost |]. rewrite Hpost. simpl.
  assert (Hactive : activeRows (req_id req)
                      {| workflowDeploymentVersion :=
                           map (activateRow (req_id req) v) (workflowDeploymentVersion db);
                         workflow := map (deployRow (req_id req) (req_now req)) (workflow db) |}
                    = [set_isActive true r0]).
  { unfold activeRows. simpl. by rewrite active_after_activate, Hone. }
  assert (Hother : forall other, other <> req_id req ->
            activeRows other
              {| workflowDeploymentVersion :=
                   map (activateRow (req_id req) v) (workflowDeploymentVersion db);
                 workflow := map (deployRow (req_id req) (req_now req)) (workflow db) |}
            = activeRows other db).
  { intros other Hne. unfold activeRows. simpl. by apply active_elsewhere. }
  repeat split; try done.
  - exists (set_isActive true r0). by rewrite Hactive.
  - intros Hinv other. destruct (decide (other = req_id req)) as [-> | Hne].
    + by rewrite Hactive.
    + rewrite (Hother other Hne). apply Hinv.
  - apply Forall2_map_self. intros w _. unfold deployRow.
    destruct (bool_decide (w_id w = req_id req)); by repeat split.
  - apply Forall2_map_self. intros r _. unfold activateRow, sameExceptActive.
    destruct (bool_decide (dv_workflowId r = req_id req)); by repeat split.
Qed.

(** C3.  For a request that passes the API key check and names a version with
    no row in the workflow, the transaction throws and [POST] leaves the
    database exactly as it was: the same rows are active and the workflow's
    deployed flag and timestamp are what they were. *)
Theorem activate_missing_version_rolls_back (ext : Deployments.Externals) (req : Request)
    (db : Db) (user : string) (v : Z) :
  authenticate ext req = inr user ->
  req_versionNum req = Finite v ->
  (forall r, r ∈ workflowDeploymentVersion db ->
     ~ (dv_workflowId r = req_id req /\ dv_version r = v)) ->
  transaction (ActivateRoute.activateTx (req_id req) v (req_now req)) db
  = (db, Throw (Error "Deployment version not found"))
  /\ (ActivateRoute.POST ext req db).1 = db
  /\ status (ActivateRoute.POST ext req db).2 <> 200
  /\ (forall id, activeRows id (ActivateRoute.POST ext req db).1 = activeRows id db)
  /\ workflow (ActivateRoute.POST ext req db).1 = workflow db.
Proof.
  intros Hauth Hver Hnone.
  assert (Htx : ActivateRoute.activateTx (req_id req) v (req_now req) db
                = Throw (Error "Deployment version not found")).
  { apply activateTx_missing, filter_no_match. intros r Hr.
    apply isVersionOf_false. by apply Hnone. }
  assert (Hpost : ActivateRoute.POST ext req db
                  = (db, createErrorResponse "Deployment version not found" 500)).
  { unfold ActivateRoute.POST, transaction. by rewrite Hauth, Hver, Htx. }
  unfold transaction. rewrite Htx, Hpost. simpl. repeat split; done.
Qed.

(** The [try] block of [PATCH] on a body whose [name] is a string. *)
Lemma renameBody_string (id : string) (v : Z) (fields : list (string * JsVal)) (name : string)
    (db : Db) :
  lookupField "name" fields = Some (VStr name) ->
  VersionRoute.renameBody id v (Ok (VObj fields)) db
  = if (String.length (trim name) =? 0)%nat then
      Ok (db, createErrorResponse "Name cannot be empty" 400)
    else if (100 <? String.length (trim name))%nat then
      Ok (db, createErrorResponse "Name must be 100 characters or less" 400)
    else
      match returningWhere (isVersionOf id v) (set_name (trim name))
              (workflowDeploymentVersion db) with
      | [] =>
          Ok (with_versions
                (updateWhere (isVersionOf id v) (set_name (trim name))
                   (workflowDeploymentVersion db)) db,
              createErrorResponse "Deployment version not found" 404)
      | updated :: _ =>
          Ok (with_versions
                (updateWhere (isVersionOf id v) (set_name (trim name))
                   (workflowDeploymentVersion db)) db,
              createSuccessResponse (VObj [("name", VersionRoute.nameToJs (dv_name updated))]))
      end.
Proof. intros Hname. unfold VersionRoute.renameBody. simpl. rewrite Hname. done. Qed.

(** C6.  For a request that passes the API key and write access checks, with a
    finite version and a JSON body whose [name] is a string: a trimmed name of
    length 0 or above 100 is answered 400 and nothing changes; a trimmed name
    of 1 to 100 characters is answered 404 with nothing changed when no row
    matches, and otherwise 200, where the matching row gets the trimmed name
    and every row keeps all its other fields. *)
Theorem rename_outcomes (ext : Deployments.Externals) (req : Request) (db : Db)
    (user : string) (accessContext : AccessContext) (v : Z)
    (fields : list (string * JsVal)) (name : string) :
  authenticate ext req = inr user ->
  getWorkflowAccessContext ext (req_id req) user = Some accessContext ->
  VersionRoute.canWriteOf accessContext = true ->
  req_versionNum req = Finite v ->
  req_json req = Ok (VObj fields) ->
  lookupField "name" fields = Some (VStr name) ->
  ((String.length (trim name) = 0%nat \/ (100 < String.length (trim name))%nat) ->
     (VersionRoute.PATCH ext req db).1 = db
     /\ status (VersionRoute.PATCH ext req db).2 = 400)
  /\ ((1 <= String.length (trim name) <= 100)%nat ->
      (forall r, r ∈ workflowDeploymentVersion db ->
         ~ (dv_workflowId r = req_id req /\ dv_version r = v)) ->
      (VersionRoute.PATCH ext req db).1 = db
      /\ status (VersionRoute.PATCH ext req db).2 = 404)
  /\ ((1 <= String.length (trim name) <= 100)%nat ->
      (exists r, r ∈ workflowDeploymentVersion db
                 /\ dv_workflowId r = req_id req /\ dv_version r = v) ->
      (VersionRoute.PATCH ext req db).2
      = createSuccessResponse (VObj [("name", VStr (trim name))])
      /\ status (VersionRoute.PATCH ext req db).2 = 200
      /\ workflowDeploymentVersion (VersionRoute.PATCH ext req db).1
         = map (renameRow (req_id req) v (trim name)) (workflowDeploymentVersion db)
      /\ workflow (VersionRoute.PATCH ext req db).1 = workflow db
      /\ Forall2 (fun r r' =>
                    sameExceptName r r'
                    /\ (dv_name r' = dv_name r
                        \/ (dv_workflowId r = req_id req /\ dv_version r = v
                            /\ dv_name r' = Some (trim name))))
           (workflowDeploymentVersion db)
           (workflowDeploymentVersion (VersionRoute.PATCH ext req db).1)).
Proof.
  intros Hauth Haccess Hwrite Hver Hjson Hname.
  assert (Hpatch : VersionRoute.PATCH ext req db
                   = match VersionRoute.renameBody (req_id req) v (Ok (VObj fields)) db with
                     | Ok out => out
                     | Throw error =>
                         (db, createErrorResponse
                                (messageOr error "Failed to rename deployment version") 500)
                     end).
  { unfold VersionRoute.PATCH. by rewrite Hauth, Haccess, Hwrite, Hver, Hjson. }
  rewrite Hpatch, (renameBody_string _ _ _ _ _ Hname). clear Hpatch.
  split; [| split].
  - intros [Hzero | Hlong].
    + rewrite Hzero. done.
    + destruct (String.length (trim name)) as [|n] eqn:Hlen; [lia |].
      replace (100 <? S n)%nat with true by (symmetry; apply Nat.ltb_lt; lia). done.
  - intros [Hlo Hhi] Hnone.
    destruct (String.length (trim name)) as [|n] eqn:Hlen; [lia |].
    replace (100 <? S n)%nat with false by (symmetry; apply Nat.ltb_ge; lia).
    assert (Hno : forall r, r ∈ workflowDeploymentVersion db ->
                    isVersionOf (req_id req) v r = false).
    { intros r Hr. apply isVersionOf_false. by apply Hnone. }
    unfold returningWhere. rewrite (filter_no_match _ _ Hno), (updateWhere_no_match _ _ _ Hno).
    simpl. by destruct db.
  - intros [Hlo Hhi] (r0 & Hin & Hw & Hv).
    destruct (String.length (trim name)) as [|n] eqn:Hlen; [lia |].
    replace (100 <? S n)%nat with false by (symmetry; apply Nat.ltb_ge; lia).
    unfold returningWhere.
    destruct (List.filter (isVersionOf (req_id req) v) (workflowDeploymentVersion db))
      as [|updated rest] eqn:Hfilter.
    { assert (Hr0 : r0 ∈ List.filter (isVersionOf (req_id req) v) (workflowDeploymentVersion db)).
      { apply list_elem_of_In, filter_In. split; [by apply list_elem_of_In |].
        by apply isVersionOf_true. }
      rewrite Hfilter in Hr0. by apply elem_of_nil in Hr0. }
    simpl. repeat split; try done.
    unfold updateWhere. apply Forall2_map_self. intros r _. unfold sameExceptName.
    destruct (isVersionOf (req_id req) v r) eqn:Hr; simpl.
    + apply isVersionOf_true in Hr as [? ?]. repeat split; try done. by right.
    + repeat split; try done. by left.
Qed.

(** *** The deployment routes on a sample database *)

(** [activate(W, 5)] with version 3 active: version 5 becomes the only active
    version of [W]. *)
Lemma activate_success_witness :
  status (ActivateRoute.POST StoreSamples.ext (StoreSamples.request 5 VNull) StoreSamples.db).2
  = 200
  /\ map dv_version
       (activeRows "W"
          (ActivateRoute.POST StoreSamples.ext (StoreSamples.request 5 VNull) StoreSamples.db).1)
     = [5].
Proof.
  destruct (activate_success StoreSamples.ext (StoreSamples.request 5 VNull) StoreSamples.db
              "u1" 5) as (db' & Hpost & Hstatus & _ & _ & (r & Hactive & Hv & _) & _).
  - vm_compute. reflexivity.
  - reflexivity.
  - unfold uniqueVersions. apply (bool_decide_unpack _). vm_compute. exact I.
  - exists (StoreSamples.row "r4" "W" 5 false). split; [| split; reflexivity].
    vm_compute. do 3 apply list_elem_of_further. apply list_elem_of_here.
  - split; [exact Hstatus |]. rewrite Hpost. cbn [fst].
    change (activeRows "W" db')
      with (activeRows (req_id (StoreSamples.request 5 VNull)) db').
    rewrite Hactive. cbn [map]. by rewrite Hv.
Defined.

(** [activate(W, 99)]: nothing changes. *)
Lemma activate_missing_version_rolls_back_witness :
  (ActivateRoute.POST StoreSamples.ext (StoreSamples.request 99 VNull) StoreSamples.db).1
  = StoreSamples.db.
Proof.
  destruct (activate_missing_version_rolls_back StoreSamples.ext (StoreSamples.request 99 VNull)
              StoreSamples.db "u1" 99) as (_ & Hsame & _).
  - vm_compute. reflexivity.
  - reflexivity.
  - intros r Hr [_ Hv]. vm_compute in Hr.
    repeat (apply elem_of_cons in Hr as [-> | Hr]); try (by apply elem_of_nil in Hr);
      discriminate Hv.
  - exact Hsame.
Defined.

(** C7 fails on the code: activating a version that does not exist is
    answered with status 500, the message of the error thrown inside the
    transaction being passed to the generic [catch] clause, whereas the
    [GET] route of the same version answers the same message with 404. *)
Theorem activate_missing_version_status :
  (ActivateRoute.POST StoreSamples.ext (StoreSamples.request 99 VNull) StoreSamples.db).2
  = createErrorResponse "Deployment version not found" 500
  /\ status (ActivateRoute.POST StoreSamples.ext (StoreSamples.request 99 VNull)
               StoreSamples.db).2 = 500
  /\ VersionRoute.GET StoreSamples.ext (StoreSamples.request 99 VNull) StoreSamples.db
     = createErrorResponse "Deployment version not found" 404.
Proof. repeat split; vm_compute; reflexivity. Qed.

(** A name of exactly 100 characters, surrounded by white space, renames
    version 4 of [W] and nothing else. *)
Lemma rename_outcomes_witness :
  String.length StoreSamples.name100 = 100%nat
  /\ status (VersionRoute.PATCH StoreSamples.ext
               (StoreSamples.request 4
                  (VObj [("name", VStr ("  " +:+ StoreSamples.name100 +:+ " "))]))
               StoreSamples.db).2 = 200
  /\ map dv_name
       (workflowDeploymentVersion
          (VersionRoute.PATCH StoreSamples.ext
             (StoreSamples.request 4
                (VObj [("name", VStr ("  " +:+ StoreSamples.name100 +:+ " "))]))
             StoreSamples.db).1)
     = [None; Some StoreSamples.name100; None; None].
Proof.
  split; [vm_compute; reflexivity |].
  destruct (rename_outcomes StoreSamples.ext
              (StoreSamples.request 4
                 (VObj [("name", VStr ("  " +:+ StoreSamples.name100 +:+ " "))]))
              StoreSamples.db "u1" {| isOwner := false; workspacePermission := Some "write" |} 4
              [("name", VStr ("  " +:+ StoreSamples.name100 +:+ " "))]
              ("  " +:+ StoreSamples.name100 +:+ " "))
    as (_ & _ & Hfound); try (vm_compute; reflexivity).
  destruct Hfound as (_ & Hstatus & Hrows & _).
  - vm_compute. split; lia.
  - exists (StoreSamples.row "r2" "W" 4 false). split; [| split; reflexivity].
    vm_compute. apply list_elem_of_further, list_elem_of_here.
  - split; [exact Hstatus |]. rewrite Hrows. vm_compute. reflexivity.
Defined.

(** The boundaries of the name length: empty and 101 characters are refused,
    and a version that does not exist is not found. *)
Example rename_boundaries :
  status (VersionRoute.PATCH StoreSamples.ext
            (StoreSamples.request 4 (VObj [("name", VStr "   ")])) StoreSamples.db).2 = 400
  /\ status (VersionRoute.PATCH StoreSamples.ext
               (StoreSamples.request 4 (VObj [("name", VStr ("x" +:+ StoreSamples.name100))]))
               StoreSamples.db).2 = 400
  /\ status (VersionRoute.PATCH StoreSamples.ext
               (StoreSamples.request 99 (VObj [("name", VStr "v99")])) StoreSamples.db).2 = 404.
Proof. repeat split; vm_compute; reflexivity. Qed.

(** ** One-time embed codes *)

Lemma storeCode_stored (codec : Json) (code : string) (payload : JsVal) (ttl t0 : Z)
    (st st1 : Stores) :
  storeCode codec code payload ttl t0 st = Ok st1 ->
  stored code st1
  = Some {| value := JSON_stringify codec payload; expiry := t0 + ttl * 1000 |}.
Proof.
  unfold storeCode, stored. destruct (redis st) as [srv|] eqn:Hredis.
  - destruct (answers srv); [| discriminate].
    unfold redis_set. destruct (ttl <=? 0); [discriminate |]. simpl.
    intros [= <-]. simpl. apply lookup_insert_eq.
  - intros [= <-]. simpl. apply lookup_insert_eq.
Qed.

(** A store that has taken a code takes commands. *)
Lemma storeCode_answers (codec : Json) (code : string) (payload : JsVal) (ttl t0 : Z)
    (st st1 : Stores) (srv : Server) :
  storeCode codec code payload ttl t0 st = Ok st1 -> redis st = Some srv ->
  exists srv1, redis st1 = Some srv1 /\ answers srv1 = true.
Proof.
  unfold storeCode. intros Hstore Hredis. rewrite Hredis in Hstore.
  destruct (answers srv) eqn:Hanswers; [| discriminate].
  destruct (redis_set _ _ ttl t0 (entries srv)) as [db|]; [| discriminate].
  simpl in Hstore. injection Hstore as <-. simpl. rewrite Hanswers. by eexists.
Qed.

(** With a Redis server that answers, a live, non-empty entry is found by
    the first step of every call, which changes nothing. *)
Lemma consumeCode_begin_live (codec : Json) (code : string) (now : Z) (st : Stores)
    (srv : Server) (e : Entry) :
  redis st = Some srv -> answers srv = true ->
  stored code st = Some e -> now < expiry e -> value e <> "" ->
  consumeCode_begin codec code now st = (AwaitingDel (value e), st).
Proof.
  unfold stored, consumeCode_begin, redis_get. intros -> -> -> Hlive Hvalue.
  replace (now <? expiry e) with true by (symmetry; apply Z.ltb_lt; lia).
  by replace (String.eqb (value e) "") with false by (symmetry; by apply String.eqb_neq).
Qed.

(** With a Redis server that answers, the second step returns what the text
    parses to, whatever the server still holds. *)
Lemma consumeCode_end_answered (codec : Json) (code text : string) (st : Stores)
    (srv : Server) :
  redis st = Some srv -> answers srv = true ->
  exists st',
    consumeCode_end codec code text st = (parseOrNull codec text, st')
    /\ stored code st' = None
    /\ exists srv', redis st' = Some srv' /\ answers srv' = true.
Proof.
  unfold consumeCode_end, stored. intros -> Hanswers. rewrite Hanswers.
  eexists. split; [reflexivity |]. simpl. rewrite Hanswers. split; [| by eexists].
  apply lookup_delete_eq.
Qed.

(** In a store that takes commands a live, non-empty entry is handed out
    and removed by a call that runs alone. *)
Lemma consumeCode_live (codec : Json) (code : string) (now : Z) (st : Stores) (e : Entry) :
  (forall srv, redis st = Some srv -> answers srv = true) ->
  stored code st = Some e -> now < expiry e -> value e <> "" ->
  exists st',
    consumeCode codec code now st = (parseOrNull codec (value e), st')
    /\ stored code st' = None.
Proof.
  intros Hanswers Hstored Hlive Hvalue. unfold consumeCode.
  destruct (redis st) as [srv|] eqn:Hredis.
  - rewrite (consumeCode_begin_live codec code now st srv e Hredis (Hanswers srv eq_refl)
               Hstored Hlive Hvalue).
    destruct (consumeCode_end_answered codec code (value e) st srv Hredis
                (Hanswers srv eq_refl)) as (st' & Hend & Hgone & _).
    by exists st'.
  - unfold consumeCode_begin, stored in *. rewrite Hredis in *. rewrite Hstored.
    replace (expiry e <? now) with false by (symmetry; apply Z.ltb_ge; lia).
    eexists. split; [reflexivity |]. simpl. apply lookup_delete_eq.
Qed.

(** A server that does not answer makes every call throw, whatever the
    code. *)
Lemma consumeCode_silent (codec : Json) (code : string) (now : Z) (st : Stores)
    (srv : Server) :
  redis st = Some srv -> answers srv = false ->
  consumeCode codec code now st = (Throw connectionError, st).
Proof.
  unfold consumeCode, consumeCode_begin. by intros -> ->.
Qed.

(** C9 fails on the code when a Redis client is configured.  A code stored
    with a payload that the JSON codec writes as a non-empty text and reads
    back unchanged is handed out and removed by a call that runs alone,
    before the time to live runs out.  But the call sends [redis.get] and
    [redis.del] as two commands with an [await] between them: of two calls
    that overlap, each finds the entry before the other has deleted it, and
    both return the payload.  And neither command is inside a [try]: when the
    server does not answer, [consumeCode] throws, for a stored code as for
    an unknown or expired one. *)
Theorem consumeCode_not_one_shot (codec : Json) (code : string) (payload : JsVal)
    (ttl t0 : Z) (st st1 : Stores) (srv : Server) :
  redis st = Some srv ->
  storeCode codec code payload ttl t0 st = Ok st1 ->
  JSON_stringify codec payload <> "" ->
  JSON_parse codec (JSON_stringify codec payload) = Ok payload ->
  (forall t1, t1 < t0 + ttl * 1000 ->
     exists st2,
       consumeCode codec code t1 st1 = (Ok payload, st2) /\ stored code st2 = None)
  /\ (forall ta tb, ta < t0 + ttl * 1000 -> tb < t0 + ttl * 1000 ->
        exists text stA stB,
          consumeCode_begin codec code ta st1 = (AwaitingDel text, st1)
          /\ consumeCode_begin codec code tb st1 = (AwaitingDel text, st1)
          /\ consumeCode_end codec code text st1 = (Ok payload, stA)
          /\ consumeCode_end codec code text stA = (Ok payload, stB))
  /\ (forall other t, consumeCode codec other t (withAnswers false st1)
                      = (Throw connectionError, withAnswers false st1)).
Proof.
  intros Hredis Hstore Htext Hround.
  pose proof (storeCode_stored _ _ _ _ _ _ _ Hstore) as Hstored.
  destruct (storeCode_answers _ _ _ _ _ _ _ _ Hstore Hredis) as (srv1 & Hredis1 & Hanswers1).
  assert (Hparse : parseOrNull codec (JSON_stringify codec payload) = Ok payload).
  { unfold parseOrNull. by rewrite Hround. }
  split; [| split].
  - intros t1 Hlive.
    assert (Hserves : forall srv', redis st1 = Some srv' -> answers srv' = true)
      by (intros srv' Hsrv'; congruence).
    destruct (consumeCode_live codec code t1 st1 _ Hserves Hstored Hlive Htext)
      as (st2 & Hconsume & Hgone).
    exists st2. simpl in Hconsume. by rewrite Hparse in Hconsume.
  - intros ta tb Hta Htb.
    destruct (consumeCode_end_answered codec code (JSON_stringify codec payload) st1 srv1
                Hredis1 Hanswers1) as (stA & HendA & _ & srvA & HredisA & HanswersA).
    destruct (consumeCode_end_answered codec code (JSON_stringify codec payload) stA srvA
                HredisA HanswersA) as (stB & HendB & _).
    exists (JSON_stringify codec payload), stA, stB.
    rewrite Hparse in HendA, HendB.
    split; [| split; [| split]]; try done.
    + by apply (consumeCode_begin_live codec code ta st1 srv1 _ Hredis1 Hanswers1 Hstored).
    + by apply (consumeCode_begin_live codec code tb st1 srv1 _ Hredis1 Hanswers1 Hstored).
  - intros other t. eapply consumeCode_silent.
    + unfold withAnswers. rewrite Hredis1. reflexivity.
    + reflexivity.
Qed.

(** A code issued at time 1000000 for 120 seconds on a Redis server: two
    calls that both send [redis.get] before either sends [redis.del] both
    return the payload, and a call to a server that does not answer throws
    for a code that was never issued. *)
Lemma consumeCode_not_one_shot_witness :
  (exists stA stB,
     consumeCode_begin CodeSamples.stringCodec "c0de" 1060000 CodeSamples.issuedRedis
     = (AwaitingDel (BotsRoute.dquote +:+ "ws-1" +:+ BotsRoute.dquote), CodeSamples.issuedRedis)
     /\ consumeCode_begin CodeSamples.stringCodec "c0de" 1060001 CodeSamples.issuedRedis
        = (AwaitingDel (BotsRoute.dquote +:+ "ws-1" +:+ BotsRoute.dquote),
           CodeSamples.issuedRedis)
     /\ consumeCode_end CodeSamples.stringCodec "c0de"
          (BotsRoute.dquote +:+ "ws-1" +:+ BotsRoute.dquote) CodeSamples.issuedRedis
        = (Ok (VStr "ws-1"), stA)
     /\ consumeCode_end CodeSamples.stringCodec "c0de"
          (BotsRoute.dquote +:+ "ws-1" +:+ BotsRoute.dquote) stA
        = (Ok (VStr "ws-1"), stB))
  /\ consumeCode CodeSamples.stringCodec "never-issued" 1060000 CodeSamples.silentRedis
     = (Throw connectionError, CodeSamples.silentRedis).
Proof.
  destruct (consumeCode_not_one_shot CodeSamples.stringCodec "c0de" (VStr "ws-1")
              CODE_TTL_SECONDS 1000000 CodeSamples.freshRedis CodeSamples.issuedRedis
              {| answers := true; entries := ∅ |}) as (_ & Hrace & _).
  - reflexivity.
  - vm_compute. reflexivity.
  - vm_compute. discriminate.
  - vm_compute. reflexivity.
  - split; [| vm_compute; reflexivity].
    destruct (Hrace 1060000 1060001) as (text & stA & stB & HbeginA & HbeginB & HendA & HendB);
      [vm_compute; reflexivity | vm_compute; reflexivity |].
    assert (text = BotsRoute.dquote +:+ "ws-1" +:+ BotsRoute.dquote) as ->.
    { vm_compute in HbeginA. by injection HbeginA as <-. }
    by exists stA, stB.
Defined.

(** ** Bot listing: identifiers beyond the safe integer range *)

(** C8 fails on the code: the pattern requires the colon right after the
    key.  With the identifier written right after the colon (white space
    allowed) the text handed to the decoder has it quoted; with white space
    before the colon the text is handed over unchanged, so the identifier
    2^53 + 1 is decoded as a native number, the nearest double 2^53, and
    returned as that number. *)
Theorem bots_GET_misses_spaced_colon :
  BotsRoute.fixResponseText BotSamples.compactBody = BotSamples.quotedBody
  /\ BotsRoute.fixResponseText BotSamples.spacedBody = BotSamples.spacedBody
  /\ (forall parse,
        BotsRoute.GET (BotSamples.ext BotSamples.spacedBody parse) None
        = BotSamples.answer (parse BotSamples.spacedBody))
  /\ BotsRoute.nearestDouble 9007199254740993 = 9007199254740992
  /\ BotSamples.answer (Ok BotSamples.spacedDecoded)
     = json (VObj [("bots", VArr [VObj [("bot_id", VNum 9007199254740992);
                                        ("bot_nickname", VStr "Ada")]]);
                   ("total", VNum 1); ("next", VNull); ("previous", VNull)]) 200.
Proof.
  split; [vm_compute; reflexivity |]. split; [vm_compute; reflexivity |].
  split; [| split; vm_compute; reflexivity].
  intros parse. unfold BotsRoute.GET, BotSamples.answer. simpl.
  unfold BotsRoute.listBots. simpl.
  replace (BotsRoute.fixResponseText BotSamples.spacedBody) with BotSamples.spacedBody
    by (vm_compute; reflexivity).
  reflexivity.
Qed.

(** ** Further properties of the intent router *)

Lemma mapThrowing_inv {A B : Type} (f : A -> JsResult B) (l : list A) (bs : list B) :
  mapThrowing f l = Ok bs -> Forall2 (fun a b => f a = Ok b) l bs.
Proof.
  revert bs. induction l as [|a l IH]; simpl; intros bs Hmap.
  - injection Hmap as <-. constructor.
  - destruct (f a) as [b|] eqn:Hfa; [| discriminate].
    destruct (mapThrowing f l) as [bs'|]; [| discriminate].
    injection Hmap as <-. constructor; [done | by apply IH].
Qed.

Lemma describeTarget_id (ext : VyinIntentRouter.Externals) (context : ExecutionContext)
    (wf : SerializedWorkflow) (conn : SerializedConnection) (d : TargetBlock) :
  describeTarget ext context wf conn = Ok d -> tb_id d = conn_target conn.
Proof.
  unfold describeTarget, findBlock.
  destruct (List.find _ (wf_blocks wf)) as [b|] eqn:Hfind; [| discriminate].
  intros [= <-]. simpl. apply List.find_some in Hfind as [_ Hid].
  by apply bool_decide_eq_true in Hid.
Qed.

(** Whenever [getTargetBlocks] returns a list, its ids are the candidate ids. *)
Lemma getTargetBlocks_ids (ext : VyinIntentRouter.Externals) (block : SerializedBlock)
    (context : ExecutionContext) (targetBlocks : list TargetBlock) :
  getTargetBlocks ext block context = Ok (Some targetBlocks) ->
  exists wf, ctx_workflow context = Some wf /\ map tb_id targetBlocks = candidateIds block wf.
Proof.
  unfold getTargetBlocks. destruct (ctx_workflow context) as [wf|]; [| discriminate].
  fold (outgoing block wf).
  destruct (mapThrowing _ (outgoing block wf)) as [described|] eqn:Hmap; [| discriminate].
  simpl. intros [= <-]. exists wf. split; [done |].
  apply mapThrowing_inv in Hmap.
  pose proof (filter_fmap_comm tb_id (fun c => c ∉ previousBlockIds block wf) described) as Hcomm.
  simpl in Hcomm. rewrite Hcomm. unfold candidateIds. f_equal.
  generalize dependent (outgoing block wf). intros conns Hmap. clear Hcomm.
  induction Hmap as [|conn d conns ds Hd _ IH]; [done |]. simpl.
  by rewrite (describeTarget_id _ _ _ _ _ Hd), IH.
Qed.

Lemma lowerChar_idem (c : ascii) : lowerChar (lowerChar c) = lowerChar c.
Proof. destruct c as [[] [] [] [] [] [] [] []]; reflexivity. Qed.

Lemma lowerChar_space (c : ascii) : isWhiteSpace (lowerChar c) = isWhiteSpace c.
Proof. destruct c as [[] [] [] [] [] [] [] []]; reflexivity. Qed.

Lemma toLowerCase_idem (s : string) : toLowerCase (toLowerCase s) = toLowerCase s.
Proof. induction s as [|c s IH]; simpl; [done |]. by rewrite lowerChar_idem, IH. Qed.

Lemma trimStart_toLowerCase (s : string) :
  trimStart (toLowerCase s) = toLowerCase (trimStart s).
Proof.
  induction s as [|c s IH]; simpl; [done |].
  rewrite lowerChar_space. by destruct (isWhiteSpace c).
Qed.

Lemma trimEnd_toLowerCase (s : string) : trimEnd (toLowerCase s) = toLowerCase (trimEnd s).
Proof.
  induction s as [|c s IH]; simpl; [done |].
  rewrite IH, lowerChar_space.
  destruct (trimEnd s); simpl; [by destruct (isWhiteSpace c) | done].
Qed.

Lemma trimEnd_idem (s : string) : trimEnd (trimEnd s) = trimEnd s.
Proof.
  induction s as [|c s IH]; simpl; [done |].
  destruct (trimEnd s) as [|c' t] eqn:Ht.
  - destruct (isWhiteSpace c) eqn:Hc; simpl; [done | by rewrite Hc].
  - simpl in *. by rewrite IH.
Qed.

(** What [trimStart] returns does not start with white space. *)
Lemma trimStart_head (s : string) :
  match trimStart s with
  | EmptyString => True
  | String c _ => isWhiteSpace c = false
  end.
Proof.
  induction s as [|c s IH]; simpl; [done |].
  destruct (isWhiteSpace c) eqn:Hc; [done | by simpl].
Qed.

(** [trimEnd] keeps the head of a string that does not start with white
    space. *)
Lemma trimStart_trimEnd (s : string) :
  match s with
  | EmptyString => True
  | String c _ => isWhiteSpace c = false
  end ->
  trimStart (trimEnd s) = trimEnd s.
Proof.
  destruct s as [|c s]; simpl; [done |]. intros Hc.
  destruct (trimEnd s); rewrite ?Hc; simpl; by rewrite ?Hc.
Qed.

Lemma trim_idem (s : string) : trim (trim s) = trim s.
Proof.
  unfold trim. rewrite (trimStart_trimEnd (trimStart s) (trimStart_head s)).
  apply trimEnd_idem.
Qed.

Lemma trim_toLowerCase (s : string) : trim (toLowerCase s) = toLowerCase (trim s).
Proof. unfold trim. by rewrite trimStart_toLowerCase, trimEnd_toLowerCase. Qed.

(** X1.  Whatever the gateway answers, a block the router returns as selected
    is the target of one of the router's outgoing edges, is no direct
    predecessor of the router and is not the router itself; and its id is in
    normal form: lower-casing or trimming it changes nothing, so a block whose
    id has an upper-case letter or white space at an end is never selected. *)
Theorem execute_selection_sound (ext : VyinIntentRouter.Externals) (block : SerializedBlock)
    (inputs : gmap string JsVal) (context : ExecutionContext) (out : BlockOutput) :
  execute ext block inputs context = Ok out ->
  exists wf,
    ctx_workflow context = Some wf
    /\ (exists conn, conn ∈ wf_connections wf /\ conn_source conn = b_id block
                     /\ conn_target conn = blockId (selectedPath out))
    /\ (forall conn, conn ∈ wf_connections wf -> conn_target conn = b_id block ->
          conn_source conn <> blockId (selectedPath out))
    /\ blockId (selectedPath out) <> b_id block
    /\ toLowerCase (blockId (selectedPath out)) = blockId (selectedPath out)
    /\ trim (blockId (selectedPath out)) = blockId (selectedPath out).
Proof.
  unfold execute. intros Hexec.
  destruct (getTargetBlocks ext block context) as [targetBlocks|] eqn:Htb; [| discriminate].
  simpl in Hexec.
  destruct (prepare ext block inputs context targetBlocks) as [request|]; [| discriminate].
  simpl in Hexec. unfold decide_route in Hexec.
  destruct (negb (tr_success _)); [discriminate |].
  destruct (findChosen targetBlocks _) as [chosen|] eqn:Hfind; [| discriminate].
  injection Hexec as <-. simpl.
  destruct targetBlocks as [tbs|]; [| discriminate]. simpl in Hfind.
  apply List.find_some in Hfind as [Hin Hid]. apply bool_decide_eq_true in Hid.
  destruct (getTargetBlocks_ids _ _ _ _ Htb) as (wf & Hwf & Hids).
  assert (Hcand : tb_id chosen ∈ candidateIds block wf).
  { rewrite <- Hids. apply elem_of_map. exists chosen. by rewrite list_elem_of_In. }
  apply elem_of_candidateIds in Hcand as [Hedge Hnopred].
  exists wf. split; [done |]. split; [exact Hedge |].
  assert (Hpred : forall conn, conn ∈ wf_connections wf -> conn_target conn = b_id block ->
                    conn_source conn <> tb_id chosen).
  { intros conn Hconn Htarget Hsource. apply Hnopred. by exists conn. }
  split; [exact Hpred |]. split.
  - intros Hself. destruct Hedge as (conn & Hconn & Hsource & Htarget).
    apply (Hpred conn Hconn); congruence.
  - rewrite Hid. unfold responseTextOf.
    split; [apply toLowerCase_idem |]. by rewrite trim_toLowerCase, trim_idem.
Qed.

(** On the sample chat workflow the answer [" ABC \n"] selects ["abc"]. *)
Lemma execute_selection_sound_witness :
  exists wf,
    ctx_workflow Samples.chat = Some wf
    /\ (forall conn, conn ∈ wf_connections wf -> conn_target conn = "A" ->
          conn_source conn <> "abc").
Proof.
  destruct (execute_selection_sound (Samples.answering (" ABC " +:+ Samples.newline))
              Samples.routerA Samples.routerInputs Samples.chat
              {| userInput := "I need a refund";
                 selectedPath := {| blockId := "abc"; blockType := "function";
                                    blockTitle := "Untitled Block" |} |})
    as (wf & Hwf & _ & Hpred & _).
  - vm_compute. reflexivity.
  - exists wf. split; [exact Hwf | exact Hpred].
Defined.

(** ** Further properties of the deployment routes *)

Lemma existsb_filter {A : Type} (p : A -> bool) (l : list A) :
  existsb p l = match List.filter p l with [] => false | _ :: _ => true end.
Proof.
  induction l as [|a l IH]; simpl; [done |]. destruct (p a); simpl; [done | exact IH].
Qed.

(** [POST] is its request checks followed by the transaction. *)
Lemma POST_decided (ext : Deployments.Externals) (req : Request) (db : Db) :
  ActivateRoute.POST ext req db
  = match activateDecision ext req with
    | inl response => (db, response)
    | inr versionNum =>
        if hasVersion (req_id req) versionNum db then
          (activated (req_id req) versionNum (req_now req) db,
           createSuccessResponse
             (VObj [("success", VBool true); ("deployedAt", VNum (req_now req))]))
        else (db, createErrorResponse "Deployment version not found" 500)
    end.
Proof.
  unfold ActivateRoute.POST, activateDecision.
  destruct (authenticate ext req) as [unauthorized | user]; [done |].
  destruct (req_versionNum req) as [v |]; [| done].
  unfold hasVersion, transaction. rewrite existsb_filter.
  destruct (List.filter (isVersionOf (req_id req) v) (workflowDeploymentVersion db)) eqn:Hfilter.
  - by rewrite (activateTx_missing _ _ _ _ Hfilter).
  - rewrite activateTx_found; [done |]. by rewrite Hfilter.
Qed.

(** [PATCH] is its request checks followed by the update. *)
Lemma PATCH_decided (ext : Deployments.Externals) (req : Request) (db : Db) :
  VersionRoute.PATCH ext req db
  = match renameDecision ext req with
    | inl response => (db, response)
    | inr (versionNum, n) =>
        if hasVersion (req_id req) versionNum db then
          (renamed (req_id req) versionNum n db,
           createSuccessResponse (VObj [("name", VStr n)]))
        else (db, createErrorResponse "Deployment version not found" 404)
    end.
Proof.
  unfold VersionRoute.PATCH, renameDecision.
  destruct (authenticate ext req) as [unauthorized | user]; [done |].
  destruct (getWorkflowAccessContext ext (req_id req) user) as [accessContext |]; [| done].
  destruct (negb (VersionRoute.canWriteOf accessContext)); [done |].
  destruct (req_versionNum req) as [v |]; [| done].
  unfold VersionRoute.renameBody.
  destruct (req_json req) as [body | error]; [| done]. simpl.
  destruct (prop body "name") as [name | error]; [| done]. simpl.
  destruct name as [| | | | name | |]; try done.
  destruct (String.length (trim name) =? 0)%nat; [done |].
  destruct (100 <? String.length (trim name))%nat; [done |].
  unfold hasVersion, returningWhere. rewrite existsb_filter.
  destruct (List.filter (isVersionOf (req_id req) v) (workflowDeploymentVersion db)) eqn:Hfilter.
  - simpl. rewrite updateWhere_no_match; [by destruct db |].
    intros r Hr. destruct (isVersionOf (req_id req) v r) eqn:Hcond; [| done].
    assert (Hin : In r (List.filter (isVersionOf (req_id req) v) (workflowDeploymentVersion db))).
    { apply filter_In. split; [by apply list_elem_of_In | done]. }
    rewrite Hfilter in Hin. destruct Hin.
  - done.
Qed.

Lemma isVersionOf_activateRow (id id' : string) (v v' : Z) (r : DeploymentVersionRow) :
  isVersionOf id v (activateRow id' v' r) = isVersionOf id v r.
Proof. unfold activateRow. by destruct (bool_decide (dv_workflowId r = id')). Qed.

Lemma isVersionOf_renameRow (id id' : string) (v v' : Z) (n : string) (r : DeploymentVersionRow) :
  isVersionOf id v (renameRow id' v' n r) = isVersionOf id v r.
Proof. unfold renameRow. by destruct (isVersionOf id' v' r). Qed.

Lemma hasVersion_activated (id id' : string) (v v' now : Z) (db : Db) :
  hasVersion id v (activated id' v' now db) = hasVersion id v db.
Proof.
  unfold hasVersion, activated. simpl.
  induction (workflowDeploymentVersion db) as [|r rows IH]; [done |]. simpl.
  by rewrite isVersionOf_activateRow, IH.
Qed.

Lemma hasVersion_renamed (id id' : string) (v v' : Z) (n : string) (db : Db) :
  hasVersion id v (renamed id' v' n db) = hasVersion id v db.
Proof.
  unfold hasVersion, renamed. simpl.
  induction (workflowDeploymentVersion db) as [|r rows IH]; [done |]. simpl.
  by rewrite isVersionOf_renameRow, IH.
Qed.

Lemma Forall2_refl_on {A : Type} (P : A -> A -> Prop) (l : list A) :
  (forall x, P x x) -> Forall2 P l l.
Proof. intros HP. induction l; constructor; auto. Qed.

Lemma active_ids_renamed (id id' : string) (v : Z) (n : string)
    (rows : list DeploymentVersionRow) :
  map dv_id (List.filter (isActiveOf id) (map (renameRow id' v n) rows))
  = map dv_id (List.filter (isActiveOf id) rows).
Proof.
  induction rows as [|r rows IH]; [done |]. simpl.
  assert (isActiveOf id (renameRow id' v n r) = isActiveOf id r) as ->.
  { unfold renameRow. by destruct (isVersionOf id' v r). }
  assert (dv_id (renameRow id' v n r) = dv_id r) as Hid.
  { unfold renameRow. by destruct (isVersionOf id' v r). }
  destruct (isActiveOf id r); simpl; by rewrite ?Hid, IH.
Qed.

(** X2.  Whatever the request and its outcome, the activate route neither
    adds nor removes a row and changes nothing in a deployment version but
    [isActive], and that only in the workflow of the request; of the workflow
    table it changes only the row of that workflow; and every answer other
    than 200 leaves the whole database as it was. *)
Theorem activate_frame (ext : Deployments.Externals) (req : Request) (db : Db) :
  Forall2 (fun r r' => sameExceptActive r r' /\ (dv_workflowId r <> req_id req -> r' = r))
    (workflowDeploymentVersion db)
    (workflowDeploymentVersion (ActivateRoute.POST ext req db).1)
  /\ Forall2 (fun w w' => w_id w' = w_id w /\ (w_id w <> req_id req -> w' = w))
       (workflow db) (workflow (ActivateRoute.POST ext req db).1)
  /\ (status (ActivateRoute.POST ext req db).2 <> 200 ->
      (ActivateRoute.POST ext req db).1 = db).
Proof.
  rewrite POST_decided.
  assert (Hsame : Forall2 (fun r r' => sameExceptActive r r'
                                       /\ (dv_workflowId r <> req_id req -> r' = r))
                    (workflowDeploymentVersion db) (workflowDeploymentVersion db)
                  /\ Forall2 (fun w w' => w_id w' = w_id w /\ (w_id w <> req_id req -> w' = w))
                       (workflow db) (workflow db)).
  { split; apply Forall2_refl_on; intros x; unfold sameExceptActive; repeat split; done. }
  destruct Hsame as [Hrows Hworkflows].
  destruct (activateDecision ext req) as [response | v]; simpl; [done |].
  destruct (hasVersion (req_id req) v db); simpl; [| done].
  split; [| split; [| done]].
  - apply Forall2_map_self. intros r _. unfold activateRow, sameExceptActive.
    destruct (bool_decide (dv_workflowId r = req_id req)) eqn:Hw; simpl.
    + apply bool_decide_eq_true in Hw. repeat split; done.
    + repeat split; done.
  - apply Forall2_map_self. intros w _. unfold deployRow.
    destruct (bool_decide (w_id w = req_id req)) eqn:Hw; simpl.
    + apply bool_decide_eq_true in Hw. repeat split; done.
    + repeat split; done.
Qed.

(** X3.  Whatever the request and its outcome, the rename route changes
    nothing in a deployment version but [name], and that only in rows of the
    requested workflow and version; it leaves the workflow table and the
    active versions of every workflow alone; every answer other than 200
    leaves the database as it was; and the database changes only for a caller
    who passed the API key check and is the owner or holds the admin or write
    permission. *)
Theorem rename_frame (ext : Deployments.Externals) (req : Request) (db : Db) :
  Forall2 (fun r r' => sameExceptName r r'
                       /\ (r' <> r -> dv_workflowId r = req_id req
                                      /\ req_versionNum req = Finite (dv_version r)))
    (workflowDeploymentVersion db)
    (workflowDeploymentVersion (VersionRoute.PATCH ext req db).1)
  /\ workflow (VersionRoute.PATCH ext req db).1 = workflow db
  /\ (forall id, map dv_id (activeRows id (VersionRoute.PATCH ext req db).1)
                 = map dv_id (activeRows id db))
  /\ (status (VersionRoute.PATCH ext req db).2 <> 200 ->
      (VersionRoute.PATCH ext req db).1 = db)
  /\ ((VersionRoute.PATCH ext req db).1 <> db ->
      exists user accessContext,
        authenticate ext req = inr user
        /\ getWorkflowAccessContext ext (req_id req) user = Some accessContext
        /\ (isOwner accessContext = true
            \/ workspacePermission accessContext = Some "admin"
            \/ workspacePermission accessContext = Some "write")).
Proof.
  rewrite PATCH_decided.
  assert (Hsame : Forall2 (fun r r' => sameExceptName r r'
                             /\ (r' <> r -> dv_workflowId r = req_id req
                                            /\ req_versionNum req = Finite (dv_version r)))
                    (workflowDeploymentVersion db) (workflowDeploymentVersion db)).
  { apply Forall2_refl_on. intros x. unfold sameExceptName. repeat split; done. }
  destruct (renameDecision ext req) as [response | [v n]] eqn:Hdecision; simpl.
  { repeat split; try done. }
  destruct (hasVersion (req_id req) v db); simpl; [| repeat split; done].
  unfold renameDecision in Hdecision.
  destruct (authenticate ext req) as [| user]; [discriminate |].
  destruct (getWorkflowAccessContext ext (req_id req) user) as [accessContext |] eqn:Haccess;
    [| discriminate].
  destruct (VersionRoute.canWriteOf accessContext) eqn:Hwrite; [| discriminate].
  simpl in Hdecision.
  destruct (req_versionNum req) as [v' |] eqn:Hver; [| discriminate].
  assert (v' = v) as ->.
  { destruct (req_json req ≫= _) as [[| | | | name | |] |]; try discriminate.
    destruct (String.length (trim name) =? 0)%nat; [discriminate |].
    destruct (100 <? String.length (trim name))%nat; [discriminate |]. congruence. }
  split; [| split; [done | split; [| split; [done |]]]].
  - apply Forall2_map_self. intros r _. unfold renameRow, sameExceptName.
    destruct (isVersionOf (req_id req) v r) eqn:Hr; simpl; [| repeat split; done].
    apply isVersionOf_true in Hr as [Hw Hv]. repeat split; try done. by rewrite Hv.
  - intros id. unfold activeRows. simpl. apply active_ids_renamed.
  - intros _. exists user, accessContext. split; [done |]. split; [done |].
    unfold VersionRoute.canWriteOf in Hwrite.
    apply orb_true_iff in Hwrite as [Hwrite | Hwrite];
      [apply orb_true_iff in Hwrite as [Hwrite | Hwrite] |].
    + by left.
    + right. left. by apply bool_decide_eq_true in Hwrite.
    + right. right. by apply bool_decide_eq_true in Hwrite.
Qed.

(** X4.  Renaming is idempotent: sending the same rename request again gives
    the same answer and leaves the database as the first request left it. *)
Theorem rename_idempotent (ext : Deployments.Externals) (req : Request) (db : Db) :
  VersionRoute.PATCH ext req (VersionRoute.PATCH ext req db).1
  = VersionRoute.PATCH ext req db.
Proof.
  rewrite (PATCH_decided ext req db).
  destruct (renameDecision ext req) as [response | [v n]] eqn:Hdecision; simpl.
  { by rewrite PATCH_decided, Hdecision. }
  destruct (hasVersion (req_id req) v db) eqn:Hhas; simpl.
  - rewrite PATCH_decided, Hdecision, hasVersion_renamed, Hhas. f_equal.
    unfold renamed. simpl. f_equal. rewrite map_map. apply map_ext. intros r.
    unfold renameRow at 1. rewrite isVersionOf_renameRow.
    destruct (isVersionOf (req_id req) v r) eqn:Hr; unfold renameRow; by rewrite Hr.
  - by rewrite PATCH_decided, Hdecision, Hhas.
Qed.

(** X5.  The last activation wins: after two accepted activation requests for
    the same workflow, the second for a version that exists, the deployment
    versions are what the second request alone would have left, whatever the
    first one activated. *)
Theorem activate_last_wins (ext : Deployments.Externals) (req1 req2 : Request) (db : Db)
    (user1 user2 : string) (v1 v2 : Z) :
  authenticate ext req1 = inr user1 -> req_versionNum req1 = Finite v1 ->
  authenticate ext req2 = inr user2 -> req_versionNum req2 = Finite v2 ->
  req_id req1 = req_id req2 ->
  (exists r, r ∈ workflowDeploymentVersion db
             /\ dv_workflowId r = req_id req2 /\ dv_version r = v2) ->
  workflowDeploymentVersion
    (ActivateRoute.POST ext req2 (ActivateRoute.POST ext req1 db).1).1
  = workflowDeploymentVersion (ActivateRoute.POST ext req2 db).1
  /\ workflowDeploymentVersion (ActivateRoute.POST ext req2 db).1
     = map (activateRow (req_id req2) v2) (workflowDeploymentVersion db).
Proof.
  intros Hauth1 Hver1 Hauth2 Hver2 Hid (r0 & Hin & Hw & Hv).
  assert (Hhas : hasVersion (req_id req2) v2 db = true).
  { unfold hasVersion. apply existsb_exists. exists r0.
    split; [by apply list_elem_of_In | by apply isVersionOf_true]. }
  rewrite !POST_decided. unfold activateDecision.
  rewrite Hauth1, Hver1, Hauth2, Hver2, Hhas. simpl.
  split; [| done]. rewrite Hid.
  destruct (hasVersion (req_id req2) v1 db); simpl.
  - rewrite hasVersion_activated, Hhas. simpl.
    rewrite map_map. apply map_ext. intros r. unfold activateRow.
    destruct (bool_decide (dv_workflowId r = req_id req2)) eqn:Hr; simpl; by rewrite Hr.
  - by rewrite Hhas.
Qed.

Lemma activateRow_renameRow (idA idP : string) (vA vP : Z) (n : string)
    (r : DeploymentVersionRow) :
  activateRow idA vA (renameRow idP vP n r) = renameRow idP vP n (activateRow idA vA r).
Proof.
  destruct r as [rid wid ver nm st act cb ca].
  unfold activateRow, renameRow, isVersionOf. simpl.
  destruct (bool_decide (wid = idA)) eqn:HA;
    destruct (bool_decide (wid = idP) && (ver =? vP)) eqn:HP;
    cbn; rewrite ?HA, ?HP; cbn; rewrite ?HA, ?HP; reflexivity.
Qed.

(** X6.  Renaming and activating commute: in either order the two requests
    get the same answers and leave the same database. *)
Theorem rename_activate_commute (ext : Deployments.Externals) (reqA reqP : Request) (db : Db) :
  (ActivateRoute.POST ext reqA (VersionRoute.PATCH ext reqP db).1).1
  = (VersionRoute.PATCH ext reqP (ActivateRoute.POST ext reqA db).1).1
  /\ (ActivateRoute.POST ext reqA (VersionRoute.PATCH ext reqP db).1).2
     = (ActivateRoute.POST ext reqA db).2
  /\ (VersionRoute.PATCH ext reqP (ActivateRoute.POST ext reqA db).1).2
     = (VersionRoute.PATCH ext reqP db).2.
Proof.
  rewrite !POST_decided, !PATCH_decided.
  destruct (activateDecision ext reqA) as [responseA | vA];
    destruct (renameDecision ext reqP) as [responseP | [vP n]]; simpl;
    try done;
    try (by match goal with
            | |- context [hasVersion ?i ?v db] => destruct (hasVersion i v db)
            end).
  destruct (hasVersion (req_id reqP) vP db) eqn:HP;
    destruct (hasVersion (req_id reqA) vA db) eqn:HA; simpl;
    rewrite ?hasVersion_renamed, ?hasVersion_activated, ?HP, ?HA; simpl; try done.
  split; [| done]. unfold activated, renamed. simpl. f_equal.
  rewrite !map_map. apply map_ext. intros r. apply activateRow_renameRow.
Qed.

(** Activating version 4 and then version 5 of [W] leaves what activating
    version 5 alone leaves. *)
Lemma activate_last_wins_witness :
  map dv_isActive
    (workflowDeploymentVersion
       (ActivateRoute.POST StoreSamples.ext (StoreSamples.request 5 VNull)
          (ActivateRoute.POST StoreSamples.ext (StoreSamples.request 4 VNull) StoreSamples.db).1).1)
  = [false; false; true; true].
Proof.
  destruct (activate_last_wins StoreSamples.ext (StoreSamples.request 4 VNull)
              (StoreSamples.request 5 VNull) StoreSamples.db "u1" "u1" 4 5)
    as [Hboth Halone].
  1-5: vm_compute; reflexivity.
  - exists (StoreSamples.row "r4" "W" 5 false). split; [| split; reflexivity].
    vm_compute. do 3 apply list_elem_of_further. apply list_elem_of_here.
  - rewrite Hboth, Halone. vm_compute. reflexivity.
Defined.

(** ** Further properties of the one-time codes *)

Lemma append_inj_l (p a b : string) : p +:+ a = p +:+ b -> a = b.
Proof. induction p as [|c p IH]; simpl; [done |]. intros [= H]. by apply IH. Qed.

Lemma consumeCode_spends (codec : Json) (code : string) (t1 t2 : Z) (st : Stores)
    (first : JsVal) :
  (consumeCode codec code t1 st).1 = Ok first -> t1 <= t2 ->
  spent code t2 (consumeCode codec code t1 st).2.
Proof.
  unfold consumeCode, consumeCode_begin, spent. intros Hfirst Htime.
  destruct (redis st) as [srv|] eqn:Hredis.
  - destruct (answers srv) eqn:Hanswers; [| discriminate].
    destruct (redis_get (CODE_PREFIX +:+ code) t1 (entries srv)) as [text|] eqn:Hget1.
    + destruct (String.eqb text "") eqn:Hempty.
      * simpl. rewrite Hredis. intros text2 Hget2. unfold redis_get in Hget1, Hget2.
        destruct (entries srv !! (CODE_PREFIX +:+ code)) as [e|]; [| done].
        destruct (t2 <? expiry e); [| done]. injection Hget2 as <-.
        destruct (t1 <? expiry e); [| done]. injection Hget1 as <-.
        by apply String.eqb_eq.
      * unfold consumeCode_end. rewrite Hredis, Hanswers. simpl. intros text2.
        unfold redis_get, redis_del. by rewrite lookup_delete_eq.
    + simpl. rewrite Hredis. intros text2 Hget2. unfold redis_get in Hget1, Hget2.
      destruct (entries srv !! (CODE_PREFIX +:+ code)) as [e|]; [| done].
      destruct (t2 <? expiry e) eqn:Hlive2; [| done].
      destruct (t1 <? expiry e) eqn:Hlive1; [done |].
      apply Z.ltb_lt in Hlive2. apply Z.ltb_ge in Hlive1. lia.
  - destruct (inMemoryCodes st !! (CODE_PREFIX +:+ code)) as [e|] eqn:He.
    + destruct (expiry e <? t1); simpl; apply lookup_delete_eq.
    + simpl. by rewrite Hredis.
Qed.

Lemma consumeCode_of_spent (codec : Json) (code : string) (now : Z) (st : Stores) (b : bool) :
  spent code now st ->
  (consumeCode codec code now (withAnswers b st)).1 = Ok VNull
  \/ (b = false /\ (consumeCode codec code now (withAnswers b st)).1 = Throw connectionError).
Proof.
  unfold spent, consumeCode, consumeCode_begin, withAnswers.
  destruct (redis st) as [srv|] eqn:Hredis; simpl.
  - intros Hspent. destruct b; [left | by right].
    destruct (redis_get _ now (entries srv)) as [text|] eqn:Hget; [| done].
    by rewrite (Hspent text eq_refl).
  - intros Hspent. left. by rewrite Hredis, Hspent.
Qed.

(** X7.  Calls that do not overlap hand out no code twice: whatever the
    stores hold and whatever the payload, when a [consumeCode] call that ran
    alone has returned (a payload or [null]; it did not throw), a later call
    for the same code that runs alone returns no payload.  It returns [null],
    or it throws because the Redis server has stopped answering in the
    meantime. *)
Theorem consumeCode_never_twice (codec : Json) (code : string) (t1 t2 : Z) (st : Stores)
    (first : JsVal) (b : bool) :
  (consumeCode codec code t1 st).1 = Ok first ->
  t1 <= t2 ->
  (consumeCode codec code t2 (withAnswers b (consumeCode codec code t1 st).2)).1 = Ok VNull
  \/ (b = false
      /\ (consumeCode codec code t2 (withAnswers b (consumeCode codec code t1 st).2)).1
         = Throw connectionError).
Proof.
  intros Hfirst Htime. apply consumeCode_of_spent.
  by apply (consumeCode_spends codec code t1 t2 st first).
Qed.

(** X8.  Codes do not interfere: storing or consuming one code leaves the
    entry of every other code as it was, and so does each of the two steps of
    a consuming call, wherever other calls run in between. *)
Theorem codes_are_independent (codec : Json) (code other : string) (st : Stores) :
  other <> code ->
  (forall now, stored other (consumeCode codec code now st).2 = stored other st)
  /\ (forall payload ttl now st1,
        storeCode codec code payload ttl now st = Ok st1 -> stored other st1 = stored other st)
  /\ (forall now, stored other (consumeCode_begin codec code now st).2 = stored other st)
  /\ (forall text, stored other (consumeCode_end codec code text st).2 = stored other st).
Proof.
  intros Hne.
  assert (Hkey : CODE_PREFIX +:+ code <> CODE_PREFIX +:+ other).
  { intros Heq. apply Hne. symmetry. by apply (append_inj_l CODE_PREFIX). }
  assert (Hbegin : forall now s,
            stored other (consumeCode_begin codec code now s).2 = stored other s).
  { intros now s. unfold consumeCode_begin, stored.
    destruct (redis s) as [srv|] eqn:Hredis.
    - destruct (answers srv); [| simpl; by rewrite Hredis].
      destruct (redis_get _ now (entries srv)) as [v|]; [| simpl; by rewrite Hredis].
      destruct (String.eqb v ""); simpl; by rewrite Hredis.
    - destruct (inMemoryCodes s !! (CODE_PREFIX +:+ code)) as [e|];
        [| simpl; by rewrite Hredis].
      destruct (expiry e <? now); simpl; by rewrite lookup_delete_ne. }
  assert (Hend : forall text s,
            stored other (consumeCode_end codec code text s).2 = stored other s).
  { intros text s. unfold consumeCode_end, stored.
    destruct (redis s) as [srv|] eqn:Hredis; [| simpl; by rewrite Hredis].
    destruct (answers srv); simpl; [| by rewrite Hredis].
    unfold redis_del. by rewrite lookup_delete_ne. }
  split; [| split; [| split]].
  - intros now. unfold consumeCode. specialize (Hbegin now st).
    destruct (consumeCode_begin codec code now st) as [[result | text] st']; [done |].
    simpl in Hbegin. by rewrite Hend.
  - intros payload ttl now st1. unfold storeCode, stored.
    destruct (redis st) as [srv|] eqn:Hredis.
    + destruct (answers srv); [| discriminate].
      unfold redis_set. destruct (ttl <=? 0); [discriminate |]. simpl.
      intros [= <-]. simpl. by rewrite lookup_insert_ne.
    + intros [= <-]. simpl. by rewrite lookup_insert_ne.
  - intros now. apply Hbegin.
  - intros text. apply Hend.
Qed.

(** The issued sample code is spent by the first call, with and without a
    Redis server. *)
Lemma consumeCode_never_twice_witness :
  (consumeCode CodeSamples.stringCodec "c0de" 1060000 CodeSamples.issuedRedis).1
  = Ok (VStr "ws-1")
  /\ (consumeCode CodeSamples.stringCodec "c0de" 1060001
        (consumeCode CodeSamples.stringCodec "c0de" 1060000 CodeSamples.issuedRedis).2).1
     = Ok VNull.
Proof.
  split; [vm_compute; reflexivity |].
  destruct (consumeCode_never_twice CodeSamples.stringCodec "c0de" 1060000 1060001
              CodeSamples.issuedRedis (VStr "ws-1") true) as [Hnull | [Hfalse _]].
  - vm_compute. reflexivity.
  - lia.
  - etrans; [| exact Hnull]. vm_compute. reflexivity.
  - discriminate Hfalse.
Defined.

(** Consuming another code leaves the issued one in place. *)
Lemma codes_are_independent_witness :
  stored "c0de" (consumeCode CodeSamples.stringCodec "beef" 1060000 CodeSamples.issued).2
  = stored "c0de" CodeSamples.issued.
Proof.
  destruct (codes_are_independent CodeSamples.stringCodec "beef" "c0de" CodeSamples.issued)
    as [Hconsume _]; [discriminate |]. apply Hconsume.
Defined.

(** ** Further properties of the identifier patch *)

Lemma prefix_append (p x : string) : String.prefix p (p +:+ x) = true.
Proof.
  induction p as [|c p IH]; simpl; [by destruct x |].
  destruct (ascii_dec c c); [exact IH | done].
Qed.

Lemma dropChars_append (p x : string) : BotsRoute.dropChars (String.length p) (p +:+ x) = x.
Proof. induction p as [|c p IH]; simpl; [done | exact IH]. Qed.

Lemma takeWhileChar_append (p : ascii -> bool) (w x : string) :
  allChars p w = true -> headIs p x = false -> BotsRoute.takeWhileChar p (w +:+ x) = w.
Proof.
  induction w as [|c w IH]; simpl; intros Hw Hx.
  - destruct x as [|c x]; simpl in *; [done | by rewrite Hx].
  - apply andb_true_iff in Hw as [Hc Hw]. by rewrite Hc, IH.
Qed.

Lemma replaceFrom_skip (key : string) (n : nat) (s : string) :
  BotsRoute.replaceFrom key n s = BotsRoute.replaceFrom key 0 (BotsRoute.dropChars n s).
Proof.
  revert n. induction s as [|c s IH]; intros [|n]; simpl; done.
Qed.

Lemma append_cons (x : ascii) (a b : string) : String x a +:+ b = String x (a +:+ b).
Proof. reflexivity. Qed.

Lemma append_assoc_s (a b c : string) : (a +:+ b) +:+ c = a +:+ b +:+ c.
Proof. induction a as [|x a IH]; [done |]. rewrite !append_cons. by f_equal. Qed.

Lemma length_append_s (a b : string) :
  String.length (a +:+ b) = (String.length a + String.length b)%nat.
Proof. induction a as [|x a IH]; [done |]. rewrite append_cons. simpl. by f_equal. Qed.

(** A digit is neither white space nor a quote. *)
Lemma isDigit_not_space (c : ascii) : isDigit c = true -> isWhiteSpace c = false.
Proof. destruct c as [[] [] [] [] [] [] [] []]; simpl; intros H; done. Qed.

Lemma prefix_cons_ne (a b : ascii) (s1 s2 : string) :
  a <> b -> String.prefix (String a s1) (String b s2) = false.
Proof. intros Hne. simpl. by destruct (ascii_dec a b). Qed.

(** Text without a quote character holds no match and is copied. *)
Lemma replaceFrom_no_quote (key pre s : string) :
  allChars (fun c => negb (isQuote c)) pre = true ->
  BotsRoute.replaceFrom key 0 (pre +:+ s) = pre +:+ BotsRoute.replaceFrom key 0 s.
Proof.
  induction pre as [|c pre IH]; simpl; intros Hpre; [done |].
  apply andb_true_iff in Hpre as [Hc Hpre].
  rewrite append_cons. simpl.
  assert (BotsRoute.matchAt key (String c (pre +:+ s)) = None) as ->.
  { unfold BotsRoute.matchAt, BotsRoute.keyColon, BotsRoute.dquote.
    rewrite !append_cons, prefix_cons_ne; [done |].
    intros <-. discriminate Hc. }
  by rewrite IH.
Qed.

(** X9.  Wherever a member ["key":] is followed by optional white space and
    a run of digits that ends the number, and the text before it holds no
    quote character, the patch writes the text before it unchanged, then the
    key, then exactly those digits between quotes, however many they are, and
    goes on with the rest of the text. *)
Theorem quoteIntegerField_member (key pre spaces digits rest : string) :
  allChars (fun c => negb (isQuote c)) pre = true ->
  allChars isWhiteSpace spaces = true ->
  allChars isDigit digits = true ->
  digits <> "" ->
  headIs isDigit rest = false ->
  BotsRoute.quoteIntegerField key
    (pre +:+ BotsRoute.keyColon key +:+ spaces +:+ digits +:+ rest)
  = pre +:+ BotsRoute.keyColon key +:+ BotsRoute.dquote +:+ digits +:+ BotsRoute.dquote
    +:+ BotsRoute.quoteIntegerField key rest.
Proof.
  intros Hpre Hspaces Hdigits Hnonempty Hrest.
  unfold BotsRoute.quoteIntegerField. rewrite (replaceFrom_no_quote _ _ _ Hpre). f_equal.
  assert (Hmatch : BotsRoute.matchAt key
                     (BotsRoute.keyColon key +:+ spaces +:+ digits +:+ rest)
                   = Some (digits,
                           (String.length (BotsRoute.keyColon key) + String.length spaces
                            + String.length digits)%nat)).
  { unfold BotsRoute.matchAt. rewrite prefix_append, dropChars_append.
    assert (Hhead : headIs isWhiteSpace (digits +:+ rest) = false).
    { destruct digits as [|d digits]; [done |]. simpl in *.
      apply andb_true_iff in Hdigits as [Hd _]. by apply isDigit_not_space. }
    rewrite (takeWhileChar_append _ _ _ Hspaces Hhead), dropChars_append.
    rewrite (takeWhileChar_append _ _ _ Hdigits Hrest).
    destruct digits; [done | reflexivity]. }
  destruct (BotsRoute.keyColon key +:+ spaces +:+ digits +:+ rest) as [|c s'] eqn:Htext.
  { unfold BotsRoute.matchAt in Hmatch. discriminate Hmatch. }
  simpl. rewrite Hmatch, replaceFrom_skip.
  assert (Hdrop : BotsRoute.dropChars
                    (String.length (BotsRoute.keyColon key) + String.length spaces
                     + String.length digits) (String c s') = rest).
  { rewrite <- Htext, <- !length_append_s.
    rewrite <- (append_assoc_s (BotsRoute.keyColon key) spaces (digits +:+ rest)).
    rewrite <- (append_assoc_s (BotsRoute.keyColon key +:+ spaces) digits rest).
    apply dropChars_append. }
  assert (Hpos : exists m, (String.length (BotsRoute.keyColon key) + String.length spaces
                            + String.length digits)%nat = S m).
  { unfold BotsRoute.keyColon, BotsRoute.dquote. simpl. eexists. reflexivity. }
  destruct Hpos as [m Hm]. rewrite Hm in Hdrop |- *. simpl in Hdrop.
  replace (S m - 1)%nat with m by lia. by rewrite Hdrop.
Qed.

(** An identifier of forty digits, two blanks after the colon. *)
Lemma quoteIntegerField_member_witness :
  BotsRoute.quoteIntegerField "bot_id"
    ("{" +:+ BotsRoute.keyColon "bot_id" +:+ "  "
     +:+ "1234567890123456789012345678901234567890" +:+ "}")
  = "{" +:+ BotsRoute.keyColon "bot_id" +:+ BotsRoute.dquote
    +:+ "1234567890123456789012345678901234567890" +:+ BotsRoute.dquote +:+ "}".
Proof.
  rewrite (quoteIntegerField_member "bot_id" "{" "  "
             "1234567890123456789012345678901234567890" "}");
    [reflexivity | reflexivity | reflexivity | reflexivity | discriminate | reflexivity].
Defined.

(** ** System-managed environment keys *)

Lemma splitOn_pieces (sep : ascii) (s piece : string) :
  piece ∈ SystemManagedEnv.splitOn sep s ->
  allChars (fun c => negb (Ascii.eqb c sep)) piece = true.
Proof.
  revert piece. induction s as [|c s IH]; simpl; intros piece Hin.
  - apply list_elem_of_singleton in Hin as ->. done.
  - destruct (Ascii.eqb c sep) eqn:Hc.
    + apply elem_of_cons in Hin as [-> | Hin]; [done | by apply IH].
    + destruct (SystemManagedEnv.splitOn sep s) as [|p ps].
      * apply list_elem_of_singleton in Hin as ->. simpl. by rewrite Hc.
      * apply elem_of_cons in Hin as [-> | Hin].
        -- simpl. rewrite Hc. simpl. apply IH, list_elem_of_here.
        -- apply IH. by apply list_elem_of_further.
Qed.

Lemma allChars_trimStart (p : ascii -> bool) (s : string) :
  allChars p s = true -> allChars p (trimStart s) = true.
Proof.
  induction s as [|c s IH]; simpl; [done |]. intros Hs.
  destruct (isWhiteSpace c); [| done].
  apply andb_true_iff in Hs as [_ Hs]. by apply IH.
Qed.

Lemma allChars_trimEnd (p : ascii -> bool) (s : string) :
  allChars p s = true -> allChars p (trimEnd s) = true.
Proof.
  induction s as [|c s IH]; simpl; [done |]. intros Hs.
  apply andb_true_iff in Hs as [Hc Hs]. specialize (IH Hs).
  destruct (trimEnd s) as [|c' t].
  - destruct (isWhiteSpace c); simpl; [done | by rewrite Hc].
  - change (allChars p (String c (String c' t)) = true). simpl in *. by rewrite Hc.
Qed.

Lemma allChars_trim (p : ascii -> bool) (s : string) :
  allChars p s = true -> allChars p (trim s) = true.
Proof. intros Hs. by apply allChars_trimEnd, allChars_trimStart. Qed.

Lemma elem_of_parsedKeys (raw k : string) :
  k ∈ SystemManagedEnv.parsedKeys raw <->
  k <> "" /\ exists piece, piece ∈ SystemManagedEnv.splitOn ","%char raw /\ trim piece = k.
Proof.
  unfold SystemManagedEnv.parsedKeys.
  rewrite list_elem_of_In, filter_In, <- list_elem_of_In, elem_of_map, Nat.ltb_lt.
  split; intros [H1 H2].
  - split; [| done]. intros ->. simpl in H2. lia.
  - split; [done |]. destruct k; [done | simpl; lia].
Qed.

(** X10.  Whatever [SYSTEM_MANAGED_USER_ENV_KEYS] is set to (or not at all),
    the four GIM credential keys are system-managed; a further key is
    system-managed exactly when it is the trimmed, non-empty form of one of
    the comma-separated pieces of the setting; and no system-managed key is
    empty, starts or ends with white space, or contains a comma. *)
Theorem getSystemManagedUserEnvKeysSet_spec (env_keys : option string) :
  (forall k, k ∈ SystemManagedEnv.defaults ->
     k ∈ SystemManagedEnv.getSystemManagedUserEnvKeysSet env_keys)
  /\ (forall k, k ∈ SystemManagedEnv.getSystemManagedUserEnvKeysSet env_keys <->
        k ∈ SystemManagedEnv.defaults
        \/ (k <> "" /\ exists piece,
              piece ∈ SystemManagedEnv.splitOn ","%char (strOr env_keys "")
              /\ trim piece = k))
  /\ (forall k, k ∈ SystemManagedEnv.getSystemManagedUserEnvKeysSet env_keys ->
        k <> "" /\ trim k = k /\ allChars notComma k = true).
Proof.
  assert (Hmem : forall k, k ∈ SystemManagedEnv.getSystemManagedUserEnvKeysSet env_keys <->
            k ∈ SystemManagedEnv.defaults
            \/ (k <> "" /\ exists piece,
                  piece ∈ SystemManagedEnv.splitOn ","%char (strOr env_keys "")
                  /\ trim piece = k)).
  { intros k. unfold SystemManagedEnv.getSystemManagedUserEnvKeysSet.
    by rewrite elem_of_list_to_set, elem_of_app, elem_of_parsedKeys. }
  split; [| split; [exact Hmem |]].
  - intros k Hk. apply Hmem. by left.
  - intros k Hk. apply Hmem in Hk as [Hk | (Hne & piece & Hpiece & <-)].
    + unfold SystemManagedEnv.defaults in Hk.
      repeat (apply elem_of_cons in Hk as [-> | Hk]); try (by apply elem_of_nil in Hk);
        (split; [discriminate | split; vm_compute; reflexivity]).
    + split; [done |]. split; [apply trim_idem |].
      apply allChars_trim. by apply (splitOn_pieces ","%char (strOr env_keys "")).
Qed.

(** ** Environment routes *)

Import EnvStore.

Lemma preserveKeys_lookup (keys : list string) (existing incoming : gmap string string)
    (k : string) :
  EnvironmentRoute.preserveKeys keys existing incoming !! k
  = if decide (k ∈ keys) then
      match nonEmpty (existing !! k) with
      | Some v => Some v
      | None => incoming !! k
      end
    else incoming !! k.
Proof.
  induction keys as [|key keys IH].
  - destruct (decide (k ∈ [])) as [Hin | _]; [by apply elem_of_nil in Hin | done].
  - cbn [EnvironmentRoute.preserveKeys foldr].
    fold (EnvironmentRoute.preserveKeys keys existing incoming).
    destruct (decide (k = key)) as [-> | Hne].
    + destruct (decide (key ∈ key :: keys)) as [_ | Hnot];
        [| destruct Hnot; apply list_elem_of_here].
      destruct (existing !! key) as [v|] eqn:Hv; simpl.
      * destruct (String.eqb v "") eqn:Hempty.
        -- rewrite IH. destruct (decide (key ∈ keys)); [| done].
           simpl. by rewrite Hempty.
        -- by rewrite lookup_insert_eq.
      * rewrite IH. by destruct (decide (key ∈ keys)).
    + assert (Hstep : forall acc : gmap string string,
                match existing !! key with
                | Some v => if String.eqb v "" then acc else <[key := v]> acc
                | None => acc
                end !! k = acc !! k).
      { intros acc. destruct (existing !! key) as [v|]; [| done].
        destruct (String.eqb v ""); [done |]. by rewrite lookup_insert_ne. }
      rewrite Hstep, IH.
      destruct (decide (k ∈ keys)) as [Hin | Hnotin];
        destruct (decide (k ∈ key :: keys)) as [Hin' | Hnotin']; try done.
      * destruct Hnotin'. by apply list_elem_of_further.
      * apply elem_of_cons in Hin' as [-> | Hin']; done.
Qed.

Lemma Forall2_map_total {A B : Type} (f : A -> JsResult B) (g : A -> B) (l : list A)
    (bs : list B) :
  (forall a b, f a = Ok b -> g a = b) ->
  Forall2 (fun a b => f a = Ok b) l bs -> bs = map g l.
Proof.
  intros Hg H. induction H as [|a b l bs Hab _ IH]; simpl; [done |].
  by rewrite (Hg a b Hab), IH.
Qed.

(** The result of [encryptAll], key by key, and what its success means. *)
Lemma encryptAll_ok (c : Crypto) (variables encrypted : gmap string string) :
  encryptAll c variables = Ok encrypted ->
  (forall k, encrypted !! k = (variables !! k) ≫= encryptedOf c)
  /\ (forall k v, variables !! k = Some v -> exists e, encryptSecret c v = Ok e).
Proof.
  unfold encryptAll.
  destruct (mapThrowing _ (map_to_list variables)) as [entries|] eqn:Hmap; [| discriminate].
  simpl. intros [= <-]. apply mapThrowing_inv in Hmap.
  set (enc := fun v => match encryptSecret c v with Ok e => e | Throw _ => "" end).
  assert (Hentries : entries = map (prod_map id enc) (map_to_list variables)).
  { eapply Forall2_map_total; [| exact Hmap].
    intros [k v] b. simpl. unfold enc.
    destruct (encryptSecret c v); simpl; [by intros [= <-] | discriminate]. }
  assert (Hall : forall k v, variables !! k = Some v -> exists e, encryptSecret c v = Ok e).
  { intros k v Hkv. apply elem_of_map_to_list in Hkv.
    clear Hentries. induction Hmap as [|[k' v'] b l bs Hab _ IH].
    - by apply elem_of_nil in Hkv.
    - apply elem_of_cons in Hkv as [[= <- <-] | Hkv]; [| by apply IH].
      simpl in Hab. destruct (encryptSecret c v) as [e|]; [by exists e | discriminate]. }
  split; [| exact Hall].
  intros k. rewrite Hentries.
  change (map (prod_map id enc) (map_to_list variables))
    with (prod_map id enc <$> map_to_list variables).
  rewrite list_to_map_fmap, list_to_map_to_list, lookup_fmap.
  destruct (variables !! k) as [v|] eqn:Hv; simpl; [| done].
  destruct (Hall k v Hv) as [e He]. unfold enc, encryptedOf. by rewrite He.
Qed.

Lemma encryptAll_succeeds (c : Crypto) (variables : gmap string string) :
  (forall k v, variables !! k = Some v -> exists e, encryptSecret c v = Ok e) ->
  exists encrypted, encryptAll c variables = Ok encrypted.
Proof.
  intros Hall. unfold encryptAll.
  set (enc := fun v => match encryptSecret c v with Ok e => e | Throw _ => "" end).
  rewrite (mapThrowing_ok _ (prod_map id enc)); [by eexists |].
  intros [k v] Hkv. apply elem_of_map_to_list in Hkv.
  destruct (Hall k v Hkv) as [e He]. simpl. unfold enc. by rewrite He.
Qed.

Lemma storedVariables_upsert (user fresh : string) (variables : gmap string string) (now : Z)
    (table : gmap string EnvRow) :
  storedVariables user (upsert user fresh variables now table) = variables
  /\ (forall other, other <> user ->
        upsert user fresh variables now table !! other = table !! other).
Proof.
  unfold storedVariables, upsert.
  destruct (table !! user); split; try (by rewrite lookup_insert_eq);
    intros other Hne; by rewrite lookup_insert_ne.
Qed.




(** What a successful user [POST] does, as one equation. *)
Lemma user_POST_success (c : Crypto) (req : EnvironmentRoute.Request)
    (table : gmap string EnvRow) (user : string) (parsed : JsVal)
    (variables : gmap string string) :
  EnvironmentRoute.req_session req = Some user -> user <> "" ->
  EnvironmentRoute.req_json req = Ok parsed ->
  EnvVarSchema_parse c parsed = Some variables ->
  (forall k v, variables !! k = Some v -> k ∉ SYSTEM_MANAGED_USER_ENV_KEYS c ->
     exists e, encryptSecret c v = Ok e) ->
  exists encrypted,
    (forall k, encrypted !! k
               = if decide (k ∈ SYSTEM_MANAGED_USER_ENV_KEYS c) then None
                 else (variables !! k) ≫= encryptedOf c)
    /\ EnvironmentRoute.POST c req table
       = (upsert user (rowIdOr (table !! user) (randomUUID c))
            (EnvironmentRoute.preserveKeys (elements (SYSTEM_MANAGED_USER_ENV_KEYS c))
               (storedVariables user table) encrypted)
            (EnvironmentRoute.req_now req) table,
          {| status := 200; body := SuccessBody |}).
Proof.
  intros Hsession Huser Hjson Hparse Hcan.
  unfold EnvironmentRoute.POST. rewrite Hsession.
  replace (String.eqb user "") with false by (symmetry; by apply String.eqb_neq).
  rewrite Hjson. simpl. unfold EnvironmentRoute.update. rewrite Hparse.
  destruct (encryptAll_succeeds c
              (filter (fun kv => kv.1 ∉ SYSTEM_MANAGED_USER_ENV_KEYS c) variables))
    as [encrypted Hencrypt].
  { intros k v Hkv. apply map_lookup_filter_Some in Hkv as [Hkv Hk]. by apply (Hcan k v). }
  rewrite Hencrypt. simpl. exists encrypted. split; [| done].
  intros k. apply encryptAll_ok in Hencrypt as [Hlookup _].
  rewrite Hlookup, map_lookup_filter.
  destruct (decide (k ∈ SYSTEM_MANAGED_USER_ENV_KEYS c)) as [Hk | Hk];
    destruct (variables !! k) as [v|]; simpl; try done.
  - rewrite option_guard_False; [done |]. simpl. intros Hnot. by apply Hnot.
  - by rewrite option_guard_True.
Qed.



(** X12.  When the user is signed in, the body passes the schema and every
    variable that is not system-managed can be encrypted, [POST] answers 200
    and replaces the user's variables: a key that is not system-managed holds
    the encrypted value of the request, or nothing if the request does not
    name it (variables left out of the request are deleted); other users'
    rows are untouched. *)
Theorem environment_POST_replaces_user_keys (c : Crypto) (req : EnvironmentRoute.Request)
    (table : gmap string EnvRow) (user : string) (parsed : JsVal)
    (variables : gmap string string) :
  EnvironmentRoute.req_session req = Some user -> user <> "" ->
  EnvironmentRoute.req_json req = Ok parsed ->
  EnvVarSchema_parse c parsed = Some variables ->
  (forall k v, variables !! k = Some v -> k ∉ SYSTEM_MANAGED_USER_ENV_KEYS c ->
     exists e, encryptSecret c v = Ok e) ->
  (EnvironmentRoute.POST c req table).2 = {| status := 200; body := SuccessBody |}
  /\ (forall k, k ∉ SYSTEM_MANAGED_USER_ENV_KEYS c ->
        storedVariables user (EnvironmentRoute.POST c req table).1 !! k
        = (variables !! k) ≫= encryptedOf c)
  /\ (forall other, other <> user ->
        (EnvironmentRoute.POST c req table).1 !! other = table !! other).
Proof.
  intros Hsession Huser Hjson Hparse Hcan.
  destruct (user_POST_success c req table user parsed variables Hsession Huser Hjson Hparse
              Hcan) as (encrypted & Hencrypted & ->).
  cbn [fst snd].
  destruct (storedVariables_upsert user
              (rowIdOr (table !! user) (randomUUID c))
              (EnvironmentRoute.preserveKeys (elements (SYSTEM_MANAGED_USER_ENV_KEYS c))
                 (storedVariables user table) encrypted)
              (EnvironmentRoute.req_now req) table) as [Hstored Hothers].
  split; [done |]. split; [| exact Hothers].
  intros k Hk. rewrite Hstored, preserveKeys_lookup.
  rewrite decide_False by (by rewrite elem_of_elements).
  rewrite Hencrypted. by rewrite decide_False.
Qed.

Lemma environment_POST_replaces_user_keys_witness :
  (EnvironmentRoute.POST (EnvSamples.crypto None) EnvSamples.userRequest EnvSamples.table).2
  = {| status := 200; body := SuccessBody |}
  /\ storedVariables "u1"
       (EnvironmentRoute.POST (EnvSamples.crypto None) EnvSamples.userRequest
          EnvSamples.table).1 !! "OPENAI_KEY" = Some "enc:sk-new"
  /\ storedVariables "u1"
       (EnvironmentRoute.POST (EnvSamples.crypto None) EnvSamples.userRequest
          EnvSamples.table).1 !! "REGION" = Some "enc:eu".
Proof.
  destruct (environment_POST_replaces_user_keys (EnvSamples.crypto None) EnvSamples.userRequest
              EnvSamples.table "u1"
              (VObj [("variables",
                      VObj [("SYSTEM_MANAGED_GIM_APPLICATION_ID", VStr "evil");
                            ("OPENAI_KEY", VStr "sk-new"); ("REGION", VStr "eu")])])
              EnvSamples.userVariables)
    as (Hstatus & Hstored & _).
  - vm_compute. reflexivity.
  - discriminate.
  - vm_compute. reflexivity.
  - vm_compute. reflexivity.
  - intros k v _ _. eexists. reflexivity.
  - split; [exact Hstatus |].
    split; (etrans; [apply Hstored; apply (bool_decide_unpack _); vm_compute; reflexivity |]);
      vm_compute; reflexivity.
Defined.






(** What the internal [POST] does once the caller is authenticated and the
    body passes the schema. *)
Lemma internal_update_stored (c : Crypto) (user : string) (parsed : JsVal) (now : Z)
    (table table' : gmap string EnvRow) (response : Response) :
  InternalEnvironmentRoute.update c user parsed now table = Ok (table', response) ->
  (forall other, other <> user -> table' !! other = table !! other)
  /\ (forall k,
       storedVariables user table' !! k
       = match EnvVarSchema_parse c parsed ≫= (fun variables => variables !! k) with
         | Some v =>
             if decide (k ∈ SYSTEM_MANAGED_USER_ENV_KEYS c) then encryptedOf c v
             else storedVariables user table !! k
         | None => storedVariables user table !! k
         end)
  /\ (forall k v,
        EnvVarSchema_parse c parsed ≫= (fun variables => variables !! k) = Some v ->
        k ∈ SYSTEM_MANAGED_USER_ENV_KEYS c -> exists e, encryptSecret c v = Ok e).
Proof.
  unfold InternalEnvironmentRoute.update.
  destruct (EnvVarSchema_parse c parsed) as [variables|]; simpl.
  2: { intros [= <- _]. by repeat split. }
  destruct (bool_decide _) eqn:Hempty.
  - intros [= <- _]. apply bool_decide_eq_true in Hempty.
    assert (Hnone : forall k v, variables !! k = Some v ->
                      k ∈ SYSTEM_MANAGED_USER_ENV_KEYS c -> False).
    { intros k v Hv Hk.
      assert (Hin : filter (fun kv : string * string =>
                              kv.1 ∈ SYSTEM_MANAGED_USER_ENV_KEYS c)
                      variables !! k = Some v) by (by apply map_lookup_filter_Some).
      by rewrite Hempty, lookup_empty in Hin. }
    split; [done |]. split.
    + intros k. destruct (variables !! k) as [v|] eqn:Hv; [| done].
      destruct (decide (k ∈ SYSTEM_MANAGED_USER_ENV_KEYS c)) as [Hk | Hk]; [| done].
      destruct (Hnone k v Hv Hk).
    + intros k v Hv Hk. destruct (Hnone k v Hv Hk).
  - destruct (encryptAll c _) as [encrypted|] eqn:Hencrypt; [| discriminate].
    simpl. intros [= <- _].
    destruct (storedVariables_upsert user (rowIdOr (table !! user) (randomUUID c))
                (encrypted ∪ existingEncryptedOf (table !! user)) now table)
      as [Hstored Hothers].
    apply encryptAll_ok in Hencrypt as [Hlookup Hall].
    split; [exact Hothers |]. split.
    + intros k. rewrite Hstored, lookup_union, Hlookup, map_lookup_filter.
      fold (storedVariables user table).
      destruct (variables !! k) as [v|] eqn:Hv; simpl.
      * destruct (decide (k ∈ SYSTEM_MANAGED_USER_ENV_KEYS c)) as [Hk | Hk].
        -- rewrite option_guard_True by done. simpl.
           destruct (Hall k v) as [e He]; [by apply map_lookup_filter_Some |].
           unfold encryptedOf. rewrite He.
           by destruct (storedVariables user table !! k).
        -- rewrite option_guard_False by done. simpl.
           by destruct (storedVariables user table !! k).
      * by destruct (storedVariables user table !! k).
    + intros k v Hv Hk. apply (Hall k v). by apply map_lookup_filter_Some.
Qed.

Lemma internal_POST_cases (c : Crypto) (auth : string -> AuthResult)
    (req : InternalEnvironmentRoute.Request) (table : gmap string EnvRow) :
  (InternalEnvironmentRoute.POST c auth req table).1 = table
  \/ exists user parsed response,
       InternalEnvironmentRoute.authenticate auth (InternalEnvironmentRoute.req_headers req)
       = inr user
       /\ InternalEnvironmentRoute.req_json req = Ok parsed
       /\ InternalEnvironmentRoute.update c user parsed (InternalEnvironmentRoute.req_now req)
            table
          = Ok ((InternalEnvironmentRoute.POST c auth req table).1, response)
       /\ (InternalEnvironmentRoute.POST c auth req table).2 = response.
Proof.
  unfold InternalEnvironmentRoute.POST.
  destruct (InternalEnvironmentRoute.authenticate _ _) as [unauthorized | user]; [by left |].
  destruct (InternalEnvironmentRoute.req_json req) as [parsed | error]; [| by left]. simpl.
  destruct (InternalEnvironmentRoute.update _ _ _ _ _) as [[table' response] | error]
    eqn:Hupdate; [| by left].
  right. by exists user, parsed, response.
Qed.

(** X15.  The internal route [POST] only ever writes system-managed keys:
    whatever the request, the caller and the outcome, every variable of every
    user whose key is not system-managed is stored afterwards exactly as
    before, and no stored variable at all is removed. *)
Theorem internal_POST_only_system_keys (c : Crypto) (auth : string -> AuthResult)
    (req : InternalEnvironmentRoute.Request) (table : gmap string EnvRow) (user k : string) :
  (k ∉ SYSTEM_MANAGED_USER_ENV_KEYS c ->
     storedVariables user (InternalEnvironmentRoute.POST c auth req table).1 !! k
     = storedVariables user table !! k)
  /\ (is_Some (storedVariables user table !! k) ->
        is_Some (storedVariables user (InternalEnvironmentRoute.POST c auth req table).1 !! k)).
Proof.
  destruct (internal_POST_cases c auth req table)
    as [-> | (caller & parsed & response & _ & _ & Hupdate & _)]; [done |].
  apply internal_update_stored in Hupdate as (Hothers & Hstored & Hencrypted).
  destruct (decide (user = caller)) as [-> | Hne].
  2: { unfold storedVariables. by rewrite (Hothers user Hne). }
  rewrite Hstored.
  destruct (EnvVarSchema_parse c parsed ≫= _) as [v|] eqn:Hv; [| done].
  destruct (decide (k ∈ SYSTEM_MANAGED_USER_ENV_KEYS c)) as [Hk | Hk]; [| done].
  split; [done |]. intros _.
  destruct (Hencrypted k v Hv Hk) as [e He]. unfold encryptedOf. by rewrite He.
Qed.








(** ** The cached workspace id *)

Lemma cachedKeys_fmap (f : WorkflowCache.Redis -> WorkflowCache.Redis)
    (redis : option WorkflowCache.Redis) :
  cachedKeys (f <$> redis)
  = match redis with Some r => WorkflowCache.keys (f r) | None => ∅ end.
Proof. by destruct redis. Qed.

Lemma cacheHit_live (cacheKey : string) (now : Z) (redis : option WorkflowCache.Redis)
    (cached : string) :
  WorkflowCache.cacheHit cacheKey now redis = Some cached ->
  redis_get cacheKey now (cachedKeys redis) = Some cached /\ cached <> "".
Proof.
  unfold WorkflowCache.cacheHit. destruct redis as [r|]; [| done]. simpl.
  destruct (WorkflowCache.reachable r); [| done].
  destruct (redis_get cacheKey now (WorkflowCache.keys r)) as [c|]; [| done].
  destruct (String.eqb c "") eqn:Hc; [done |]. intros [= ->].
  split; [done |]. by apply String.eqb_neq.
Qed.

Lemma redis_get_later (key : string) (now now' : Z) (db : gmap string Entry) (v : string) :
  now <= now' -> redis_get key now' db = Some v -> redis_get key now db = Some v.
Proof.
  unfold redis_get. intros Hle. destruct (db !! key) as [e|]; [| done].
  destruct (now' <? expiry e) eqn:Hlive; [| done]. intros [= <-].
  apply Z.ltb_lt in Hlive. replace (now <? expiry e) with true; [done |].
  symmetry. apply Z.ltb_lt. lia.
Qed.

Lemma cacheFill_keys (cacheKey workspaceId : string) (ttlSeconds now : Z)
    (r : WorkflowCache.Redis) :
  WorkflowCache.keys (WorkflowCache.cacheFill cacheKey workspaceId ttlSeconds now r)
  = WorkflowCache.keys r
  \/ WorkflowCache.keys (WorkflowCache.cacheFill cacheKey workspaceId ttlSeconds now r)
     = <[cacheKey := {| value := workspaceId; expiry := now + ttlSeconds * 1000 |}]>
         (WorkflowCache.keys r).
Proof.
  unfold WorkflowCache.cacheFill, redis_set.
  destruct (WorkflowCache.reachable r); [| by left].
  destruct (ttlSeconds <=? 0); [by left | by right].
Qed.

(** X18.  Cache and table agree, and stay in agreement: when every live cache
    entry holds the workspace id the [workflow] table has, a look-up returns
    what the table has for the workflow -- from the cache or from the table,
    with or without a cache server, whether or not the server answers -- and
    the cache it leaves agrees with the table at every later instant. *)
Theorem getWorkspaceIdForWorkflow_coherent (workflowId : string) (ttlSeconds now : Z)
    (redis : option WorkflowCache.Redis) (table : list WorkflowCache.WorkflowRow) :
  coherent now redis table ->
  workflowId <> "" ->
  (WorkflowCache.getWorkspaceIdForWorkflow workflowId ttlSeconds now redis table).1
  = WorkflowCache.selectWorkspaceId workflowId table
  /\ forall now', now <= now' ->
       coherent now'
         (WorkflowCache.getWorkspaceIdForWorkflow workflowId ttlSeconds now redis table).2
         table.
Proof.
  intros Hcoherent Hid.
  assert (Hlater : forall now', now <= now' -> coherent now' redis table).
  { intros now' Hle w cached Hget Hne. apply Hcoherent; [| done].
    by apply (redis_get_later _ now now'). }
  unfold WorkflowCache.getWorkspaceIdForWorkflow.
  replace (String.eqb workflowId "") with false by (symmetry; by apply String.eqb_neq).
  destruct (WorkflowCache.cacheHit _ now redis) as [cached|] eqn:Hhit.
  - apply cacheHit_live in Hhit as [Hget Hne]. cbn [fst snd].
    split; [| exact Hlater]. symmetry. by apply Hcoherent.
  - cbn [fst snd]. split; [done |]. intros now' Hle.
    destruct (WorkflowCache.selectWorkspaceId workflowId table) as [w|] eqn:Hselect;
      [| by apply Hlater].
    destruct (String.eqb w "") eqn:Hw; [by apply Hlater |].
    intros other cached. rewrite cachedKeys_fmap.
    destruct redis as [r|]; [| by unfold redis_get; rewrite lookup_empty].
    destruct (cacheFill_keys (WorkflowCache.CACHE_KEY_PREFIX +:+ workflowId) w ttlSeconds now r)
      as [-> | ->]; [by apply (Hlater now' Hle other cached) |].
    unfold redis_get.
    destruct (decide (other = workflowId)) as [-> | Hother].
    + rewrite lookup_insert_eq. simpl.
      destruct (now' <? now + ttlSeconds * 1000); [| done]. by intros [= <-].
    + rewrite lookup_insert_ne.
      * apply (Hlater now' Hle other cached).
      * intros Hkey. apply append_inj_l in Hkey. done.
Qed.

Lemma getWorkspaceIdForWorkflow_coherent_witness :
  (WorkflowCache.getWorkspaceIdForWorkflow "wf-1" WorkflowCache.DEFAULT_TTL_SECONDS
     1700000000000 CacheSamples.empty CacheSamples.table).1 = Some "ws-A".
Proof.
  destruct (getWorkspaceIdForWorkflow_coherent "wf-1" WorkflowCache.DEFAULT_TTL_SECONDS
              1700000000000 CacheSamples.empty CacheSamples.table) as [Hresult _].
  - intros w cached Hget. vm_compute in Hget. discriminate.
  - discriminate.
  - etrans; [exact Hresult |]. vm_compute. reflexivity.
Defined.

(** X19.  Nothing invalidates the cache: once a look-up has found a
    non-empty workspace id in the table and the cache server has taken it
    (the server answers, the time to live is positive), every look-up before
    the time to live runs out returns that id, whatever the table says by
    then -- a workflow that has moved to another workspace, or is gone, is
    still reported under the old one. *)
Theorem getWorkspaceIdForWorkflow_stale (workflowId w : string) (ttlSeconds ttlSeconds' : Z)
    (t1 t2 : Z) (r : WorkflowCache.Redis) (table table' : list WorkflowCache.WorkflowRow) :
  workflowId <> "" -> w <> "" ->
  WorkflowCache.reachable r = true -> 0 < ttlSeconds ->
  WorkflowCache.cacheHit (WorkflowCache.CACHE_KEY_PREFIX +:+ workflowId) t1 (Some r) = None ->
  WorkflowCache.selectWorkspaceId workflowId table = Some w ->
  t2 < t1 + ttlSeconds * 1000 ->
  (WorkflowCache.getWorkspaceIdForWorkflow workflowId ttlSeconds' t2
     (WorkflowCache.getWorkspaceIdForWorkflow workflowId ttlSeconds t1 (Some r) table).2
     table').1
  = Some w.
Proof.
  intros Hid Hw Hup Httl Hmiss Hselect Hlive.
  assert (Hid' : String.eqb workflowId "" = false) by (by apply String.eqb_neq).
  assert (Hw' : String.eqb w "" = false) by (by apply String.eqb_neq).
  assert (Hfirst :
    (WorkflowCache.getWorkspaceIdForWorkflow workflowId ttlSeconds t1 (Some r) table).2
    = Some {| WorkflowCache.reachable := true;
              WorkflowCache.keys :=
                <[WorkflowCache.CACHE_KEY_PREFIX +:+ workflowId :=
                    {| value := w; expiry := t1 + ttlSeconds * 1000 |}]>
                  (WorkflowCache.keys r) |}).
  { unfold WorkflowCache.getWorkspaceIdForWorkflow. rewrite Hid', Hmiss, Hselect, Hw'.
    cbn [fst snd fmap option_fmap option_map].
    unfold WorkflowCache.cacheFill, redis_set. rewrite Hup.
    by replace (ttlSeconds <=? 0) with false by (symmetry; apply Z.leb_gt; lia). }
  rewrite Hfirst. unfold WorkflowCache.getWorkspaceIdForWorkflow at 1. rewrite Hid'.
  unfold WorkflowCache.cacheHit, redis_get. cbn [WorkflowCache.reachable WorkflowCache.keys].
  rewrite lookup_insert_eq. cbn [expiry value].
  replace (t2 <? t1 + ttlSeconds * 1000) with true by (symmetry; apply Z.ltb_lt; lia).
  by rewrite Hw'.
Qed.

Lemma getWorkspaceIdForWorkflow_stale_witness :
  (WorkflowCache.getWorkspaceIdForWorkflow "wf-1" WorkflowCache.DEFAULT_TTL_SECONDS
     1700003600000
     (WorkflowCache.getWorkspaceIdForWorkflow "wf-1" WorkflowCache.DEFAULT_TTL_SECONDS
        1700000000000 CacheSamples.empty CacheSamples.table).2
     CacheSamples.moved).1
  = Some "ws-A"
  /\ WorkflowCache.selectWorkspaceId "wf-1" CacheSamples.moved = Some "ws-B".
Proof.
  split; [| reflexivity].
  apply (getWorkspaceIdForWorkflow_stale "wf-1" "ws-A" WorkflowCache.DEFAULT_TTL_SECONDS
           WorkflowCache.DEFAULT_TTL_SECONDS 1700000000000 1700003600000
           {| WorkflowCache.reachable := true; WorkflowCache.keys := ∅ |}
           CacheSamples.table CacheSamples.moved);
    try discriminate; try (vm_compute; reflexivity).
Defined.

(** ** Parameters of the chat response tool *)

Lemma suggestionKeyOf_truthy (params : gmap string JsVal) :
  truthy (VyinChatResponseBlock.suggestionKeyOf params) = true.
Proof.
  unfold VyinChatResponseBlock.suggestionKeyOf.
  destruct (field params "suggestionType") as [| | | |s| |]; try done.
  destruct (0 <? String.length (trim s))%nat eqn:Hlen; [| done].
  destruct s; [by vm_compute in Hlen | done].
Qed.

Lemma looksLikeMetaarray_wrapped (suggestionKey items : JsVal) :
  truthy suggestionKey = true -> VyinChatResponseBlock.isArray items = true ->
  VyinChatResponseBlock.looksLikeMetaarray (VyinChatResponseBlock.wrapped suggestionKey items)
  = true.
Proof.
  intros Hkey Hitems. unfold VyinChatResponseBlock.looksLikeMetaarray. simpl.
  by rewrite Hkey, Hitems.
Qed.

Lemma fromParsed_well_formed (suggestionKey parsed : JsVal) :
  truthy suggestionKey = true ->
  VyinChatResponseBlock.fromParsed suggestionKey parsed = VUndefined
  \/ VyinChatResponseBlock.looksLikeMetaarray
       (VyinChatResponseBlock.fromParsed suggestionKey parsed) = true.
Proof.
  intros Hkey. unfold VyinChatResponseBlock.fromParsed.
  destruct (VyinChatResponseBlock.isArray parsed) eqn:Harray.
  - right. destruct (VyinChatResponseBlock.looksLikeMetaarray parsed) eqn:Hmeta; [done |].
    by apply looksLikeMetaarray_wrapped.
  - destruct (VyinChatResponseBlock.isArray (optProp parsed "value")) eqn:Hvalue; simpl.
    + destruct (truthy (optProp parsed "key")) eqn:Htruthy; simpl.
      * right. unfold VyinChatResponseBlock.looksLikeMetaarray. simpl.
        by rewrite Htruthy, Hvalue.
      * destruct (VyinChatResponseBlock.isString _ (optProp parsed "key")) eqn:Hstring.
        -- destruct (optProp parsed "key") as [| | | |s| |]; try done.
           simpl in Hstring. apply String.eqb_eq in Hstring as ->. done.
        -- destruct (_ && _) eqn:Hfirst; [| by left]. right.
           apply andb_true_iff in Hfirst as [Hv Hk].
           unfold VyinChatResponseBlock.looksLikeMetaarray. by rewrite Hk, Hv.
    + destruct (_ && _) eqn:Hfirst; [| by left]. right.
      apply andb_true_iff in Hfirst as [Hv Hk].
      unfold VyinChatResponseBlock.looksLikeMetaarray. by rewrite Hk, Hv.
Qed.

(** X20.  In editor mode ([dataMode] is ['json']) an editor value that is an
    array, or a text that is neither blank nor a variable reference, never
    lets the builder's [metaarray] through and never yields a malformed one:
    the computed [metaarray] is the same whatever [params.metaarray] holds
    (or whether it is there at all), and, whatever the JSON decoder returns
    or throws, it is [undefined] or has a first entry with a truthy [key] and
    an array [value]; for an array it is never [undefined].  The message is
    passed on untouched. *)
Theorem params_editor_mode_well_formed (codec : Json) (params : gmap string JsVal) :
  field params "dataMode" = VStr "json" ->
  isSuggestionSource (VyinChatResponseBlock.rawOf (field params "editorValue")) = true ->
  (VyinChatResponseBlock.params codec params !! "metaarray" = Some VUndefined
   /\ VyinChatResponseBlock.isArray
        (VyinChatResponseBlock.rawOf (field params "editorValue")) = false
   \/ exists metaarray,
        VyinChatResponseBlock.params codec params !! "metaarray" = Some metaarray
        /\ VyinChatResponseBlock.looksLikeMetaarray metaarray = true)
  /\ (forall builder,
        VyinChatResponseBlock.params codec (<["metaarray" := builder]> params) !! "metaarray"
        = VyinChatResponseBlock.params codec params !! "metaarray"
        /\ VyinChatResponseBlock.params codec (delete "metaarray" params) !! "metaarray"
           = VyinChatResponseBlock.params codec params !! "metaarray")
  /\ VyinChatResponseBlock.params codec params !! "message" = Some (field params "message").
Proof.
  intros Hmode Hsource. split; [| split; [| done]].
  2: { assert (Hsame : forall params',
                 field params' "dataMode" = VStr "json" ->
                 field params' "suggestionType" = field params "suggestionType" ->
                 field params' "editorValue" = field params "editorValue" ->
                 VyinChatResponseBlock.params codec params' !! "metaarray"
                 = VyinChatResponseBlock.params codec params !! "metaarray").
       { intros params' Hmode' Hkey Heditor.
         unfold VyinChatResponseBlock.params. rewrite !lookup_insert_eq. f_equal.
         unfold VyinChatResponseBlock.metaarrayOf, VyinChatResponseBlock.suggestionKeyOf.
         rewrite Hmode, Hmode', Hkey, Heditor. simpl.
         destruct (VyinChatResponseBlock.rawOf (field params "editorValue"))
           as [| | | |raw|arr|fields]; try done.
         simpl in Hsource. apply andb_true_iff in Hsource as [Hlen Href].
         apply negb_true_iff in Href. by rewrite Href, Hlen. }
       intros builder. split; apply Hsame; unfold field;
         by rewrite ?lookup_insert_ne, ?lookup_delete_ne. }
  unfold VyinChatResponseBlock.params. rewrite lookup_insert_eq.
  unfold VyinChatResponseBlock.metaarrayOf. rewrite Hmode. simpl.
  pose proof (suggestionKeyOf_truthy params) as Hkey.
  destruct (VyinChatResponseBlock.rawOf (field params "editorValue"))
    as [| | | |raw|arr|fields]; try done.
  - simpl in Hsource. apply andb_true_iff in Hsource as [Hlen Href].
    apply negb_true_iff in Href. rewrite Href, Hlen.
    destruct (JSON_parse codec (trim raw)) as [parsed|]; [| by left].
    destruct (fromParsed_well_formed (VyinChatResponseBlock.suggestionKeyOf params) parsed Hkey)
      as [-> | Hmeta]; [by left |].
    right. by eexists.
  - right. destruct (VyinChatResponseBlock.looksLikeMetaarray (VArr arr)) eqn:Hmeta.
    + by eexists.
    + eexists. split; [done |]. by apply looksLikeMetaarray_wrapped.
Qed.

Lemma params_editor_mode_well_formed_witness :
  VyinChatResponseBlock.params ResponseSamples.codec ResponseSamples.editorParams !! "metaarray"
  = Some (VArr [VObj [("key", VStr "quick_replies"); ("value", VArr [VNum 1; VNum 2])]])
  /\ VyinChatResponseBlock.params ResponseSamples.codec ResponseSamples.editorParams !! "message"
     = Some (VStr "Continue?").
Proof.
  destruct (params_editor_mode_well_formed ResponseSamples.codec ResponseSamples.editorParams)
    as (_ & _ & Hmessage).
  - vm_compute. reflexivity.
  - vm_compute. reflexivity.
  - split; [vm_compute; reflexivity |].
    etrans; [exact Hmessage |]. vm_compute. reflexivity.
Defined.

(** ** The signed text *)

Lemma allChars_append (p : ascii -> bool) (a b : string) :
  allChars p (a +:+ b) = allChars p a && allChars p b.
Proof.
  induction a as [|c a IH]; [done |]. rewrite append_cons. simpl.
  by rewrite IH, andb_assoc.
Qed.

(** A text is cut at its first separator in one way only. *)
Lemma cut_at_first (sep : ascii) (a a' r r' : string) :
  allChars (fun c => negb (Ascii.eqb c sep)) a = true ->
  allChars (fun c => negb (Ascii.eqb c sep)) a' = true ->
  a +:+ String sep r = a' +:+ String sep r' -> a = a' /\ r = r'.
Proof.
  revert a'. induction a as [|c a IH]; intros [|c' a'] Ha Ha' Heq.
  - by injection Heq as ->.
  - rewrite append_cons in Heq. injection Heq as <- _. simpl in Ha'.
    by rewrite Ascii.eqb_refl in Ha'.
  - rewrite append_cons in Heq. injection Heq as -> _. simpl in Ha.
    by rewrite Ascii.eqb_refl in Ha.
  - rewrite !append_cons in Heq. injection Heq as <- Heq. simpl in Ha, Ha'.
    apply andb_true_iff in Ha as [_ Ha]. apply andb_true_iff in Ha' as [_ Ha'].
    destruct (IH a' Ha Ha' Heq) as [-> ->]. done.
Qed.

(** A text is cut at its last separator in one way only. *)
Lemma cut_at_last (sep : ascii) (s s' n n' : string) :
  allChars (fun c => negb (Ascii.eqb c sep)) n = true ->
  allChars (fun c => negb (Ascii.eqb c sep)) n' = true ->
  s +:+ String sep n = s' +:+ String sep n' -> s = s' /\ n = n'.
Proof.
  intros Hn Hn'.
  assert (Hinside : forall x y, allChars (fun c => negb (Ascii.eqb c sep))
                                  (x +:+ String sep y) = false).
  { intros x y. rewrite allChars_append. simpl. rewrite Ascii.eqb_refl. simpl.
    apply andb_false_r. }
  revert s'. induction s as [|c s IH]; intros [|c' s'] Heq.
  - by injection Heq as ->.
  - rewrite append_cons in Heq. injection Heq as _ ->. by rewrite Hinside in Hn.
  - rewrite append_cons in Heq. injection Heq as _ <-. by rewrite Hinside in Hn'.
  - rewrite !append_cons in Heq. injection Heq as <- Heq.
    destruct (IH s' Heq) as [-> ->]. done.
Qed.

(** X21.  The signed text determines what was signed: when method, path,
    time stamp and nonce hold no line feed, two requests with the same
    signing payload have the same method, path, body, time stamp and nonce --
    also when the bodies hold line feeds.  A signature computed for one
    request therefore covers no other. *)
Theorem payloadOf_injective (method path body timestamp nonce : string)
    (method' path' body' timestamp' nonce' : string) :
  allChars notLF (method +:+ path +:+ timestamp +:+ nonce) = true ->
  allChars notLF (method' +:+ path' +:+ timestamp' +:+ nonce') = true ->
  SignedRequest.payloadOf method path body timestamp nonce
  = SignedRequest.payloadOf method' path' body' timestamp' nonce' ->
  method = method' /\ path = path' /\ body = body' /\ timestamp = timestamp'
  /\ nonce = nonce'.
Proof.
  rewrite !allChars_append, !andb_true_iff.
  intros (Hm & Hp & Ht & Hn) (Hm' & Hp' & Ht' & Hn').
  unfold SignedRequest.payloadOf, SignedRequest.LF. rewrite !append_cons. simpl.
  intros Heq.
  apply cut_at_first in Heq as [-> Heq]; [| done | done].
  apply cut_at_first in Heq as [-> Heq]; [| done | done].
  assert (Heq' : (body +:+ String "010" timestamp) +:+ String "010" nonce
                 = (body' +:+ String "010" timestamp') +:+ String "010" nonce').
  { by rewrite !append_assoc_s, !append_cons. }
  apply cut_at_last in Heq' as [Heq' ->]; [| done | done].
  apply cut_at_last in Heq' as [-> ->]; [| done | done].
  done.
Qed.

Lemma payloadOf_injective_witness :
  SignedRequest.payloadOf "POST" "/api/internal/auth/embed-session/init"
    ("{" +:+ SignedRequest.LF +:+ "}") "1700000000000" "n-1"
  <> SignedRequest.payloadOf "POST" "/api/internal/auth/embed-session/init"
       "{" "}" ("1700000000000" +:+ "n-1").
Proof.
  intros Heq.
  apply (payloadOf_injective "POST" "/api/internal/auth/embed-session/init"
           ("{" +:+ SignedRequest.LF +:+ "}") "1700000000000" "n-1"
           "POST" "/api/internal/auth/embed-session/init"
           "{" "}" ("1700000000000" +:+ "n-1")) in Heq as (_ & _ & Hbody & _).
  - discriminate Hbody.
  - vm_compute. reflexivity.
  - vm_compute. reflexivity.
Defined.

(** ** The cookie of the embed script *)

Lemma splitOn_nonempty (sep : ascii) (s : string) : SystemManagedEnv.splitOn sep s <> [].
Proof.
  destruct s as [|c s]; simpl; [done |].
  destruct (Ascii.eqb c sep); [done |]. by destruct (SystemManagedEnv.splitOn sep s).
Qed.

Lemma joinWith_cons (sep x y : string) (l : list string) :
  joinWith sep (x :: y :: l) = x +:+ sep +:+ joinWith sep (y :: l).
Proof. reflexivity. Qed.

(** [s.split(sep).join(sep)] is [s]. *)
Lemma join_split (sep : ascii) (s : string) :
  joinWith (String sep EmptyString) (SystemManagedEnv.splitOn sep s) = s.
Proof.
  induction s as [|c s IH]; [done |]. simpl.
  pose proof (splitOn_nonempty sep s) as Hne.
  destruct (Ascii.eqb c sep) eqn:Hc.
  - apply Ascii.eqb_eq in Hc as ->.
    destruct (SystemManagedEnv.splitOn sep s) as [|piece pieces]; [done |].
    rewrite joinWith_cons, IH. reflexivity.
  - destruct (SystemManagedEnv.splitOn sep s) as [|piece pieces]; [done |].
    destruct pieces as [|piece' pieces].
    + simpl in *. by rewrite IH.
    + rewrite joinWith_cons in *. rewrite append_cons. by rewrite IH.
Qed.

Lemma splitOn_free (sep : ascii) (x : string) :
  allChars (fun c => negb (Ascii.eqb c sep)) x = true ->
  SystemManagedEnv.splitOn sep x = [x].
Proof.
  induction x as [|c x IH]; [done |]. simpl. intros Hx.
  apply andb_true_iff in Hx as [Hc Hx]. apply negb_true_iff in Hc. rewrite Hc.
  by rewrite (IH Hx).
Qed.

Lemma splitOn_append (sep : ascii) (x rest : string) :
  allChars (fun c => negb (Ascii.eqb c sep)) x = true ->
  SystemManagedEnv.splitOn sep (x +:+ String sep rest)
  = x :: SystemManagedEnv.splitOn sep rest.
Proof.
  induction x as [|c x IH]; intros Hx.
  - simpl. by rewrite Ascii.eqb_refl.
  - rewrite append_cons. simpl in *.
    apply andb_true_iff in Hx as [Hc Hx]. apply negb_true_iff in Hc. rewrite Hc.
    by rewrite (IH Hx).
Qed.

(** [parts.join(sep).split(sep)] is [parts], for parts without [sep]. *)
Lemma split_join (sep : ascii) (parts : list string) :
  parts <> [] ->
  Forall (fun x => allChars (fun c => negb (Ascii.eqb c sep)) x = true) parts ->
  SystemManagedEnv.splitOn sep (joinWith (String sep EmptyString) parts) = parts.
Proof.
  intros Hne Hfree. induction Hfree as [|x l Hx Hl IH]; [done |].
  destruct l as [|y l].
  - simpl. by apply splitOn_free.
  - rewrite joinWith_cons, append_cons.
    change (EmptyString +:+ ?r) with r.
    rewrite (splitOn_append sep x _ Hx). by rewrite IH.
Qed.

Lemma kept_parts_free (h : string) :
  Forall (fun x => allChars (fun c => negb (Ascii.eqb c ";"%char)) x = true)
    (List.filter GimEmbed.keepsPart (SystemManagedEnv.splitOn ";"%char h)).
Proof.
  apply Forall_forall. intros part Hpart. apply list_elem_of_In, filter_In in Hpart as [Hin _].
  apply list_elem_of_In in Hin. by apply (splitOn_pieces _ h).
Qed.

(** X22.  The cookie the embed script writes: a header without a part that
    starts with [secure] (white space and case aside) is written as it is;
    otherwise exactly those parts are dropped and the others are kept, in
    order; what is written never holds such a part; and filtering it again
    changes nothing. *)
Theorem cookieFor_drops_secure (h : string) :
  ((forall part, part ∈ SystemManagedEnv.splitOn ";"%char h -> GimEmbed.keepsPart part = true) ->
     GimEmbed.cookieFor h = h)
  /\ (List.filter GimEmbed.keepsPart (SystemManagedEnv.splitOn ";"%char h) <> [] ->
        SystemManagedEnv.splitOn ";"%char (GimEmbed.cookieFor h)
        = List.filter GimEmbed.keepsPart (SystemManagedEnv.splitOn ";"%char h))
  /\ (forall part, part ∈ SystemManagedEnv.splitOn ";"%char (GimEmbed.cookieFor h) ->
        GimEmbed.keepsPart part = true)
  /\ GimEmbed.cookieFor (GimEmbed.cookieFor h) = GimEmbed.cookieFor h.
Proof.
  assert (Hsplit : List.filter GimEmbed.keepsPart (SystemManagedEnv.splitOn ";"%char h) <> [] ->
                   SystemManagedEnv.splitOn ";"%char (GimEmbed.cookieFor h)
                   = List.filter GimEmbed.keepsPart (SystemManagedEnv.splitOn ";"%char h)).
  { intros Hne. unfold GimEmbed.cookieFor. apply split_join; [done | apply kept_parts_free]. }
  assert (Hkept : forall part, part ∈ SystemManagedEnv.splitOn ";"%char (GimEmbed.cookieFor h) ->
                    GimEmbed.keepsPart part = true).
  { intros part.
    destruct (List.filter GimEmbed.keepsPart (SystemManagedEnv.splitOn ";"%char h))
      as [|x l] eqn:Hfilter.
    - unfold GimEmbed.cookieFor. rewrite Hfilter. simpl. intros Hpart.
      apply list_elem_of_singleton in Hpart as ->. reflexivity.
    - rewrite Hsplit by done. intros Hpart. rewrite <- Hfilter in Hpart.
      apply list_elem_of_In, filter_In in Hpart as [_ Hkeeps]. exact Hkeeps. }
  assert (Hid : forall l, (forall part, part ∈ l -> GimEmbed.keepsPart part = true) ->
                  List.filter GimEmbed.keepsPart l = l).
  { intros l Hall. induction l as [|x l IH]; [done |]. simpl.
    rewrite (Hall x (list_elem_of_here _ _)). f_equal. apply IH.
    intros part Hpart. apply Hall. by apply list_elem_of_further. }
  repeat split; [| exact Hsplit | exact Hkept |].
  - intros Hall. unfold GimEmbed.cookieFor. rewrite (Hid _ Hall). apply join_split.
  - unfold GimEmbed.cookieFor at 1. rewrite (Hid _ Hkept). apply join_split.
Qed.

(** ** The base URL of an application *)

Lemma getSubstitution_plain (matched before after template : string) :
  allChars notDollar template = true ->
  Gim.getSubstitution matched before after template = template.
Proof.
  induction template as [|c rest IH]; [done |]. simpl. unfold notDollar at 1.
  intros Hplain. apply andb_true_iff in Hplain as [Hc Hrest].
  apply negb_true_iff in Hc. rewrite Hc. by rewrite (IH Hrest).
Qed.

Lemma append_nil_l (x : string) : EmptyString +:+ x = x.
Proof. reflexivity. Qed.

Lemma prefix_split (p s : string) :
  String.prefix p s = true -> s = p +:+ BotsRoute.dropChars (String.length p) s.
Proof.
  revert s. induction p as [|c p IH]; intros s; [done |].
  destruct s as [|c' s]; [done |]. simpl.
  destruct (ascii_dec c c') as [<- | _]; [| done].
  intros Hp. rewrite append_cons. f_equal. by apply IH.
Qed.

Lemma indexOf_nil (pattern : string) :
  Gim.indexOf pattern "" = if String.prefix pattern "" then Some 0%nat else None.
Proof. reflexivity. Qed.

Lemma indexOf_cons (pattern : string) (c : ascii) (s : string) :
  Gim.indexOf pattern (String c s)
  = if String.prefix pattern (String c s) then Some 0%nat else S <$> Gim.indexOf pattern s.
Proof. reflexivity. Qed.

Lemma indexOf_None (pattern s : string) :
  Gim.indexOf pattern s = None -> occursNowhere pattern s.
Proof.
  induction s as [|c s IH]; intros Hindex b1 b2 Hcut.
  - destruct b1; [| done]. rewrite append_nil_l in Hcut. subst b2.
    rewrite indexOf_nil in Hindex. by destruct (String.prefix pattern "").
  - rewrite indexOf_cons in Hindex.
    destruct (String.prefix pattern (String c s)) eqn:Hprefix; [done |].
    destruct (Gim.indexOf pattern s) as [i|] eqn:Hrest; [done |].
    destruct b1 as [|c1 b1].
    + rewrite append_nil_l in Hcut. by subst b2.
    + rewrite append_cons in Hcut. injection Hcut as _ Hcut. by apply (IH eq_refl b1).
Qed.

Lemma indexOf_Some (pattern s : string) (i : nat) :
  Gim.indexOf pattern s = Some i ->
  exists before after,
    s = before +:+ pattern +:+ after
    /\ String.substring 0 i s = before
    /\ BotsRoute.dropChars (i + String.length pattern) s = after
    /\ firstOccurrence pattern before after.
Proof.
  revert i. induction s as [|c s IH]; intros i Hindex.
  - rewrite indexOf_nil in Hindex. destruct pattern; [| done].
    injection Hindex as <-.
    exists "", "". repeat split. intros b1 b2 Hcut Hb2. by destruct b1, b2.
  - rewrite indexOf_cons in Hindex.
    destruct (String.prefix pattern (String c s)) eqn:Hprefix.
    + injection Hindex as <-.
      exists "", (BotsRoute.dropChars (String.length pattern) (String c s)).
      split; [by apply prefix_split |]. repeat split.
      intros b1 b2 Hcut Hb2. by destruct b1, b2.
    + destruct (Gim.indexOf pattern s) as [j|] eqn:Hrest; [| done].
      injection Hindex as <-.
      destruct (IH j eq_refl) as (before & after & Hs & Hbefore & Hafter & Hfirst).
      exists (String c before), after. rewrite append_cons.
      split; [by rewrite <- Hs |]. split; [by simpl; rewrite Hbefore |].
      split; [exact Hafter |].
      intros b1 b2 Hcut Hb2. destruct b1 as [|c1 b1].
      * rewrite append_nil_l in Hcut. subst b2. rewrite append_cons, <- Hs. exact Hprefix.
      * rewrite append_cons in Hcut. injection Hcut as _ Hcut. by apply (Hfirst b1).
Qed.

(** X23.  The application's base URL: for an application id without dollar
    sign, the configured base URL (a leading [@] dropped) has its first
    [gate] -- and no other -- replaced by the id; a base URL without [gate]
    is returned as it is, the application id ignored.  [base] is the base
    URL without application, as the function returns it for the empty id. *)
Theorem getGimBaseUrl_first_gate (env_GIM_BASE_URL : option string) (appId : string)
    (baseUrlRaw : option string) (base : string) :
  Gim.getGimBaseUrl env_GIM_BASE_URL "" baseUrlRaw = base ->
  appId <> "" -> allChars notDollar appId = true ->
  (occursNowhere "gate" base
   /\ Gim.getGimBaseUrl env_GIM_BASE_URL appId baseUrlRaw = base)
  \/ exists before after,
       base = before +:+ "gate" +:+ after
       /\ firstOccurrence "gate" before after
       /\ Gim.getGimBaseUrl env_GIM_BASE_URL appId baseUrlRaw = before +:+ appId +:+ after.
Proof.
  intros Hbase HappId Hplain. unfold Gim.getGimBaseUrl in *.
  replace (String.eqb appId "") with false by (symmetry; by apply String.eqb_neq).
  simpl in Hbase.
  destruct (String.eqb (Gim.stripLeadingAt _) "") eqn:Hempty.
  - subst base. left. split; [| done]. intros b1 b2 Hcut. by destruct b1, b2.
  - subst base. unfold Gim.replaceString.
    destruct (Gim.indexOf "gate" _) as [i|] eqn:Hindex.
    + right. apply indexOf_Some in Hindex as (before & after & Hs & -> & -> & Hfirst).
      exists before, after. by rewrite getSubstitution_plain.
    + left. split; [by apply indexOf_None | done].
Qed.

Lemma getGimBaseUrl_first_gate_witness :
  (occursNowhere "gate" "https://gate.gateway.example"
   /\ Gim.getGimBaseUrl (Some "@https://gate.gateway.example") "app-42" None
      = "https://gate.gateway.example")
  \/ exists before after,
       "https://gate.gateway.example" = before +:+ "gate" +:+ after
       /\ firstOccurrence "gate" before after
       /\ Gim.getGimBaseUrl (Some "@https://gate.gateway.example") "app-42" None
          = before +:+ "app-42" +:+ after.
Proof.
  apply (getGimBaseUrl_first_gate (Some "@https://gate.gateway.example") "app-42" None
           "https://gate.gateway.example").
  - vm_compute. reflexivity.
  - discriminate.
  - vm_compute. reflexivity.
Defined.

(** ** Reading a deployment version *)

Lemma selectVersion_map (f : DeploymentVersionRow -> DeploymentVersionRow) (id : string)
    (versionNum : Z) (rows : list DeploymentVersionRow) (workflows : list WorkflowRow) :
  (forall r, isVersionOf id versionNum (f r) = isVersionOf id versionNum r) ->
  VersionRoute.selectVersion id versionNum
    {| workflowDeploymentVersion := map f rows; workflow := workflows |}
  = f <$> head (List.filter (isVersionOf id versionNum) rows).
Proof.
  intros Hsame. unfold VersionRoute.selectVersion. simpl.
  induction rows as [|r rows IH]; [done |]. simpl. rewrite Hsame.
  destruct (isVersionOf id versionNum r); [done | exact IH].
Qed.

Lemma GET_reads_state (ext : Deployments.Externals) (req : Request) (db db' : Db) :
  (forall versionNum,
     dv_state <$> VersionRoute.selectVersion (req_id req) versionNum db'
     = dv_state <$> VersionRoute.selectVersion (req_id req) versionNum db) ->
  VersionRoute.GET ext req db' = VersionRoute.GET ext req db.
Proof.
  intros Hstate. unfold VersionRoute.GET.
  destruct (authenticate ext req) as [unauthorized | userId]; [done |].
  destruct (getWorkflowAccessContext ext (req_id req) userId) as [accessContext|]; [| done].
  destruct (negb _); [done |].
  destruct (req_versionNum req) as [versionNum|]; [| done].
  specialize (Hstate versionNum).
  destruct (VersionRoute.selectVersion (req_id req) versionNum db') as [row'|];
    destruct (VersionRoute.selectVersion (req_id req) versionNum db) as [row|];
    simpl in Hstate; try done.
  injection Hstate as ->. done.
Qed.

(** X24.  A deployed state is read-only for the other routes: whatever
    activation and rename requests have been served in between, [GET]
    answers every request exactly as before.  The state a version was
    deployed with can therefore not be changed through this API. *)
Theorem GET_unaffected_by_writes (ext : Deployments.Externals) (req reqA reqP : Request)
    (db : Db) :
  VersionRoute.GET ext req (ActivateRoute.POST ext reqA db).1 = VersionRoute.GET ext req db
  /\ VersionRoute.GET ext req (VersionRoute.PATCH ext reqP db).1 = VersionRoute.GET ext req db.
Proof.
  split; apply GET_reads_state; intros versionNum.
  - rewrite POST_decided. destruct (activateDecision ext reqA) as [response | vA]; [done |].
    destruct (hasVersion (req_id reqA) vA db); [| done]. cbn [fst]. unfold activated.
    rewrite selectVersion_map by (intros r; apply isVersionOf_activateRow).
    unfold VersionRoute.selectVersion.
    destruct (head _) as [row|]; [| done]. simpl. unfold activateRow.
    by destruct (bool_decide _).
  - rewrite PATCH_decided. destruct (renameDecision ext reqP) as [response | [vP n]]; [done |].
    destruct (hasVersion (req_id reqP) vP db); [| done]. cbn [fst]. unfold renamed.
    rewrite selectVersion_map by (intros r; apply isVersionOf_renameRow).
    unfold VersionRoute.selectVersion.
    destruct (head _) as [row|]; [| done]. simpl. unfold renameRow.
    by destruct (isVersionOf _ _ row).
Qed.

(** ** The workspace scope of an embed session *)

(** The first part of a path that goes on with a slash, or ends. *)
Lemma splitOn_first_part (sep : ascii) (id rest : string) :
  allChars (fun c => negb (Ascii.eqb c sep)) id = true ->
  headIs (fun c => negb (Ascii.eqb c sep)) rest = false ->
  exists parts, SystemManagedEnv.splitOn sep (id +:+ rest) = id :: parts.
Proof.
  intros Hid Hrest. destruct rest as [|c rest].
  - exists []. replace (id +:+ "") with id; [by apply splitOn_free |].
    clear Hid. induction id as [|x id IH]; [done |]. rewrite append_cons. by f_equal.
  - simpl in Hrest. apply negb_false_iff, Ascii.eqb_eq in Hrest as ->.
    eexists. by apply splitOn_append.
Qed.

Lemma outOfScope_ids (id w : string) :
  id <> "" -> w <> "" ->
  Middleware.outOfScope (Some id) (Some w) = negb (String.eqb id w).
Proof.
  intros Hid Hw. unfold Middleware.outOfScope.
  replace (String.eqb id "") with false by (symmetry; by apply String.eqb_neq).
  by replace (String.eqb w "") with false by (symmetry; by apply String.eqb_neq).
Qed.

(** X25.  An embed session stays inside its workspace: for a token that
    names workspace [w], a page under [/workspace/{id}] is let through exactly
    when [id] is [w] and is otherwise redirected to the session's own
    workspace, and a request under [/api/workspaces/{id}] or
    [/api/v2/workspaces/{id}] is let through exactly when [id] is [w] and is
    otherwise refused with 403 -- whatever follows the id in the path. *)
Theorem enforceEmbedWorkspaceScope_scoped (id w rest : string) :
  id <> "" -> w <> "" -> allChars notSlash id = true -> headIs notSlash rest = false ->
  Middleware.enforceEmbedWorkspaceScope ("/workspace/" +:+ id +:+ rest) (Some w)
  = (if String.eqb id w then Middleware.ScopePass
     else Middleware.ScopeRedirect ("/workspace/" +:+ w +:+ "/w"))
  /\ Middleware.enforceEmbedWorkspaceScope ("/api/workspaces/" +:+ id +:+ rest) (Some w)
     = (if String.eqb id w then Middleware.ScopePass else Middleware.ScopeForbidden)
  /\ Middleware.enforceEmbedWorkspaceScope ("/api/v2/workspaces/" +:+ id +:+ rest) (Some w)
     = (if String.eqb id w then Middleware.ScopePass else Middleware.ScopeForbidden).
Proof.
  intros Hid Hw Hfree Hrest.
  destruct (splitOn_first_part "/"%char id rest Hfree Hrest) as [parts Hparts].
  assert (Hpage : Middleware.part 2 ("/workspace/" +:+ id +:+ rest) = Some id).
  { unfold Middleware.part.
    change ("/workspace/" +:+ id +:+ rest)
      with ("" +:+ String "/" ("workspace" +:+ String "/" (id +:+ rest))).
    rewrite !splitOn_append by reflexivity. by rewrite Hparts. }
  assert (Hapi : Middleware.part 3 ("/api/workspaces/" +:+ id +:+ rest) = Some id).
  { unfold Middleware.part.
    change ("/api/workspaces/" +:+ id +:+ rest)
      with ("" +:+ String "/" ("api" +:+ String "/" ("workspaces" +:+ String "/" (id +:+ rest)))).
    rewrite !splitOn_append by reflexivity. by rewrite Hparts. }
  assert (Hv2 : Middleware.part 4 ("/api/v2/workspaces/" +:+ id +:+ rest) = Some id).
  { unfold Middleware.part.
    change ("/api/v2/workspaces/" +:+ id +:+ rest)
      with ("" +:+ String "/" ("api" +:+ String "/" ("v2" +:+ String "/"
              ("workspaces" +:+ String "/" (id +:+ rest))))).
    rewrite !splitOn_append by reflexivity. by rewrite Hparts. }
  unfold Middleware.enforceEmbedWorkspaceScope.
  rewrite Hpage, Hapi, Hv2, !outOfScope_ids by done.
  rewrite (prefix_append "/workspace/"), (prefix_append "/api/workspaces/"),
    (prefix_append "/api/v2/workspaces/").
  replace (String.prefix "/workspace/" ("/api/workspaces/" +:+ id +:+ rest)) with false
    by reflexivity.
  replace (String.prefix "/workspace/" ("/api/v2/workspaces/" +:+ id +:+ rest)) with false
    by reflexivity.
  replace (String.prefix "/api/workspaces/" ("/api/v2/workspaces/" +:+ id +:+ rest)) with false
    by reflexivity.
  by destruct (String.eqb id w).
Qed.

Lemma enforceEmbedWorkspaceScope_scoped_witness :
  Middleware.enforceEmbedWorkspaceScope "/workspace/ws-2/w/wf-9" (Some "ws-1")
  = Middleware.ScopeRedirect "/workspace/ws-1/w"
  /\ Middleware.enforceEmbedWorkspaceScope "/api/workspaces/ws-2/w/wf-9" (Some "ws-1")
     = Middleware.ScopeForbidden.
Proof.
  destruct (enforceEmbedWorkspaceScope_scoped "ws-2" "ws-1" "/w/wf-9")
    as (Hpage & Hapi & _); try discriminate; try (vm_compute; reflexivity).
  split; [exact Hpage | exact Hapi].
Defined.
(** ** Fresh ids for a template *)

Section TemplateIdsFacts.

Variable uuid : nat -> string.

Lemma assign_new {A : Type} (key : string) (value : A) (entries : list (string * A)) :
  key <> "__proto__" -> TemplateIds.arrayIndex key = None -> key ∉ map fst entries ->
  TemplateIds.assign key value entries = (entries ++ [(key, value)])%list.
Proof.
  intros Hproto Hindex Hnew. unfold TemplateIds.assign.
  replace (String.eqb key "__proto__") with false by (symmetry; by apply String.eqb_neq).
  by rewrite bool_decide_eq_false_2, Hindex.
Qed.

Lemma plainSet_other (key value k : string) (own : gmap string string) :
  k <> key -> TemplateIds.plainSet key value own !! k = own !! k.
Proof.
  intros Hne. unfold TemplateIds.plainSet.
  destruct (String.eqb key "__proto__"); [done |]. by rewrite lookup_insert_ne.
Qed.

Lemma plainSet_same (key value : string) (own : gmap string string) :
  key <> "__proto__" -> TemplateIds.plainSet key value own !! key = Some value.
Proof.
  intros Hne. unfold TemplateIds.plainSet.
  replace (String.eqb key "__proto__") with false by (symmetry; by apply String.eqb_neq).
  by rewrite lookup_insert_eq.
Qed.

Lemma assignIds_count (keys : list string) (m : gmap string string) (n : nat) :
  (TemplateIds.assignIds uuid keys m n).2 = (n + length keys)%nat.
Proof.
  revert m n. induction keys as [|k keys IH]; intros m n; simpl; [lia |].
  rewrite IH. lia.
Qed.

Lemma assignIds_other (keys : list string) (m : gmap string string) (n : nat) (k : string) :
  k ∉ keys -> (TemplateIds.assignIds uuid keys m n).1 !! k = m !! k.
Proof.
  revert m n. induction keys as [|k' keys IH]; intros m n Hk; [done |]. simpl.
  apply not_elem_of_cons in Hk as [Hne Hk]. rewrite IH by done.
  by apply plainSet_other.
Qed.

Lemma assignIds_lookup (keys : list string) (m : gmap string string) (n i : nat) (k : string) :
  NoDup keys -> keys !! i = Some k -> k <> "__proto__" ->
  (TemplateIds.assignIds uuid keys m n).1 !! k = Some (uuid (n + i)).
Proof.
  revert m n i. induction keys as [|k' keys IH]; intros m n i Hnodup Hi Hproto; [done |].
  apply NoDup_cons in Hnodup as [Hfresh Hnodup]. simpl. destruct i as [|i].
  - injection Hi as ->. rewrite assignIds_other by done.
    rewrite plainSet_same by done. f_equal. f_equal. lia.
  - rewrite (IH _ _ i) by done. f_equal. f_equal. lia.
Qed.

(** The new ids of the blocks, in the order of the keys. *)
Lemma assignIds_ids (keys : list string) (n : nat) :
  NoDup keys -> "__proto__" ∉ keys ->
  map (fun k => (TemplateIds.assignIds uuid keys ∅ n).1 !! k) keys
  = map (fun i => Some (uuid i)) (seq n (length keys)).
Proof.
  intros Hnodup Hproto.
  apply list_eq; intros i; rewrite !list_lookup_fmap;
    destruct (keys !! i) as [k|] eqn:Hi; simpl.
  - rewrite (lookup_seq_lt _ _ i) by (by apply lookup_lt_Some in Hi). simpl.
    f_equal. apply assignIds_lookup; [done | done |].
    intros ->. apply Hproto. by eapply list_elem_of_lookup_2.
  - apply lookup_ge_None in Hi. by rewrite lookup_seq_ge.
Qed.

Lemma renewSubBlocks_spec (subBlocks : list (string * TemplateIds.SubBlock)) (n : nat) :
  (TemplateIds.renewSubBlocks uuid subBlocks n).2 = (n + length subBlocks)%nat
  /\ map (fun sub : string * TemplateIds.SubBlock => TemplateIds.sub_id sub.2)
         (TemplateIds.renewSubBlocks uuid subBlocks n).1
     = map uuid (seq n (length subBlocks))
  /\ map (fun sub : string * TemplateIds.SubBlock => (sub.1, TemplateIds.sub_fields sub.2))
         (TemplateIds.renewSubBlocks uuid subBlocks n).1
     = map (fun sub : string * TemplateIds.SubBlock => (sub.1, TemplateIds.sub_fields sub.2))
           subBlocks.
Proof.
  revert n. induction subBlocks as [|[subId subBlock] rest IH]; intros n; simpl.
  - split; [lia | done].
  - destruct (IH (S n)) as (Hcount & Hids & Hcontents).
    destruct (TemplateIds.renewSubBlocks uuid rest (S n)) as [rest' n'] eqn:Hrest.
    simpl in *. split; [lia |]. by rewrite Hids, Hcontents.
Qed.

Lemma map_uuid_seq_app (n a b : nat) :
  (map uuid (seq n a) ++ map uuid (seq (n + a) b))%list = map uuid (seq n (a + b)).
Proof. by rewrite seq_app, map_app. Qed.

Lemma renewBlocks_spec (m : gmap string string)
    (entries : list (string * TemplateIds.Block string))
    (acc : list (string * TemplateIds.Block TemplateIds.Ref)) (ids : list string) (n : nat) :
  map (fun e : string * TemplateIds.Block string => m !! e.1) entries = map Some ids ->
  NoDup ids ->
  (forall id, id ∈ ids ->
     id <> "__proto__" /\ TemplateIds.arrayIndex id = None /\ id ∉ map fst acc) ->
  exists new,
    (TemplateIds.renewBlocks uuid m entries acc n).1 = (acc ++ new)%list
    /\ map fst new = ids
    /\ Forall (fun entry : string * TemplateIds.Block TemplateIds.Ref =>
                 TemplateIds.block_id entry.2 = TemplateIds.RefId entry.1) new
    /\ map (fun e : string * TemplateIds.Block TemplateIds.Ref =>
              (TemplateIds.block_fields e.2, subBlockContents (TemplateIds.block_subBlocks e.2)))
           new
       = map (fun e : string * TemplateIds.Block string =>
                (TemplateIds.block_fields e.2,
                 subBlockContents (TemplateIds.block_subBlocks e.2)))
             entries
    /\ (n <= (TemplateIds.renewBlocks uuid m entries acc n).2)%nat
    /\ concat (map (fun entry : string * TemplateIds.Block TemplateIds.Ref =>
                      map (fun sub : string * TemplateIds.SubBlock => TemplateIds.sub_id sub.2)
                          (default [] (TemplateIds.block_subBlocks entry.2)))
                   new)
       = map uuid (seq n ((TemplateIds.renewBlocks uuid m entries acc n).2 - n)).
Proof.
  revert acc ids n.
  induction entries as [|[oldId block] rest IH]; intros acc ids n Hids Hnodup Hfresh.
  - destruct ids; [| done]. exists []. simpl. rewrite app_nil_r, Nat.sub_diag.
    by repeat split.
  - destruct ids as [|newId ids]; [done |]. simpl in Hids.
    injection Hids as HnewId Hids.
    apply NoDup_cons in Hnodup as [Hnew Hnodup].
    destruct (Hfresh newId) as (Hproto & Hindex & Hacc); [apply list_elem_of_here |].
    cbn [TemplateIds.renewBlocks]. unfold TemplateIds.newIdOf, TemplateIds.plainGet.
    rewrite HnewId. cbn [fst snd].
    assert (Hsubs : exists subBlocks n',
              match TemplateIds.block_subBlocks block with
              | Some subBlocks =>
                  let '(s, n') := TemplateIds.renewSubBlocks uuid subBlocks n in (Some s, n')
              | None => (None, n)
              end = (subBlocks, n')
              /\ (n <= n')%nat
              /\ map (fun sub : string * TemplateIds.SubBlock => TemplateIds.sub_id sub.2)
                     (default [] subBlocks)
                 = map uuid (seq n (n' - n))
              /\ subBlockContents subBlocks
                 = subBlockContents (TemplateIds.block_subBlocks block)).
    { destruct (TemplateIds.block_subBlocks block) as [subBlocks|].
      - destruct (renewSubBlocks_spec subBlocks n) as (Hcount & Hsubids & Hcontents).
        destruct (TemplateIds.renewSubBlocks uuid subBlocks n) as [s n'] eqn:Hs.
        simpl in *. exists (Some s), n'. split; [done |]. split; [lia |].
        simpl. rewrite Hsubids, Hcontents. split; [| done]. f_equal. f_equal. lia.
      - exists None, n. rewrite Nat.sub_diag. by repeat split. }
    destruct Hsubs as (subBlocks & n' & -> & Hle & Hsubids & Hcontents).
    rewrite assign_new by done.
    destruct (IH (acc ++ [(newId,
                {| TemplateIds.block_id := TemplateIds.RefId newId;
                   TemplateIds.block_subBlocks := subBlocks;
                   TemplateIds.block_fields := TemplateIds.block_fields block |})])%list
                ids n' Hids Hnodup)
      as (new & Hout & Hkeys & Hkeyed & Hfields & Hle' & Hrest).
    { intros id Hid.
      destruct (Hfresh id) as (Hp & Hi & Ha); [by apply list_elem_of_further |].
      split; [done |]. split; [done |]. rewrite map_app. simpl. intros Hin.
      apply elem_of_app in Hin as [Hin | Hin]; [done |].
      apply list_elem_of_singleton in Hin. by subst id. }
    eexists (_ :: new). rewrite Hout, <- app_assoc. split; [reflexivity |].
    simpl. rewrite Hkeys, Hfields, Hcontents. split; [done |]. split; [by constructor |].
    split; [done |]. split; [lia |].
    rewrite Hsubids, Hrest.
    match goal with
    | |- _ = map uuid (seq n (?N - n)) =>
        replace (N - n)%nat with ((n' - n) + (N - n'))%nat by lia
    end.
    rewrite <- map_uuid_seq_app. by replace (n + (n' - n))%nat with n' by lia.
Qed.

Lemma renewEdges_spec (m : gmap string string) (es : list (TemplateIds.Edge string))
    (n : nat) :
  (TemplateIds.renewEdges uuid m es n).2 = (n + length es)%nat
  /\ map TemplateIds.edge_id (TemplateIds.renewEdges uuid m es n).1
     = map uuid (seq n (length es))
  /\ map (fun e => (TemplateIds.edge_source e, TemplateIds.edge_target e))
         (TemplateIds.renewEdges uuid m es n).1
     = map (fun e => (TemplateIds.renamedIfMapped m (TemplateIds.edge_source e),
                      TemplateIds.renamedIfMapped m (TemplateIds.edge_target e))) es
  /\ map TemplateIds.edge_fields (TemplateIds.renewEdges uuid m es n).1
     = map TemplateIds.edge_fields es.
Proof.
  revert n. induction es as [|edge rest IH]; intros n; simpl.
  - split; [lia | done].
  - destruct (IH (S n)) as (Hcount & Hids & Hends & Hfields).
    destruct (TemplateIds.renewEdges uuid m rest (S n)) as [rest' n'] eqn:Hrest.
    simpl in *. split; [lia |]. by rewrite Hids, Hends, Hfields.
Qed.

Lemma renewSubflows_spec (m : gmap string string)
    (entries : list (string * TemplateIds.Subflow string))
    (acc : list (string * TemplateIds.Subflow TemplateIds.Ref)) (n : nat) :
  Inj (=) (=) uuid ->
  (forall i, uuid i <> "__proto__" /\ TemplateIds.arrayIndex (uuid i) = None) ->
  (forall i, (n <= i)%nat -> uuid i ∉ map fst acc) ->
  exists new,
    (TemplateIds.renewSubflows uuid m entries acc n).1 = (acc ++ new)%list
    /\ (TemplateIds.renewSubflows uuid m entries acc n).2 = (n + length entries)%nat
    /\ map fst new = map uuid (seq n (length entries))
    /\ Forall (fun entry : string * TemplateIds.Subflow TemplateIds.Ref =>
                 TemplateIds.flow_id entry.2 = entry.1) new
    /\ map (fun entry : string * TemplateIds.Subflow TemplateIds.Ref =>
              TemplateIds.flow_nodes entry.2) new
       = map (fun entry : string * TemplateIds.Subflow string =>
                map (TemplateIds.renamedNode m) (TemplateIds.flow_nodes entry.2)) entries
    /\ map (fun entry : string * TemplateIds.Subflow TemplateIds.Ref =>
              TemplateIds.flow_fields entry.2) new
       = map (fun entry : string * TemplateIds.Subflow string =>
                TemplateIds.flow_fields entry.2) entries.
Proof.
  intros Hinj Hplain. revert acc n.
  induction entries as [|[oldId flow] rest IH]; intros acc n Hfresh.
  - exists []. simpl. rewrite app_nil_r. repeat split; [lia | done].
  - cbn [TemplateIds.renewSubflows].
    rewrite assign_new by (try apply Hplain; apply Hfresh; lia).
    destruct (IH (acc ++ [(uuid n,
                {| TemplateIds.flow_id := uuid n;
                   TemplateIds.flow_nodes :=
                     map (TemplateIds.renamedNode m) (TemplateIds.flow_nodes flow);
                   TemplateIds.flow_fields := TemplateIds.flow_fields flow |})])%list (S n))
      as (new & Hout & Hcount & Hkeys & Hkeyed & Hnodes & Hfields).
    { intros i Hi. rewrite map_app. simpl. intros Hin.
      apply elem_of_app in Hin as [Hin | Hin].
      - apply (Hfresh i); [lia | done].
      - apply list_elem_of_singleton, Hinj in Hin. lia. }
    eexists (_ :: new). rewrite Hout, <- app_assoc. split; [reflexivity |].
    simpl. rewrite Hcount, Hkeys, Hnodes, Hfields.
    split; [lia |]. split; [done |]. split; [by constructor |]. done.
Qed.

End TemplateIdsFacts.

Lemma renewEdges_step (uuid : nat -> string) (m : gmap string string)
    (es : option (list (TemplateIds.Edge string))) (n : nat) :
  let r := match es with
           | Some es => let '(es', n') := TemplateIds.renewEdges uuid m es n in (Some es', n')
           | None => (None, n)
           end in
  r.2 = (n + length (default [] es))%nat
  /\ map TemplateIds.edge_id (default [] r.1) = map uuid (seq n (length (default [] es)))
  /\ map (fun e => (TemplateIds.edge_source e, TemplateIds.edge_target e)) (default [] r.1)
     = map (fun e => (TemplateIds.renamedIfMapped m (TemplateIds.edge_source e),
                      TemplateIds.renamedIfMapped m (TemplateIds.edge_target e)))
           (default [] es)
  /\ map TemplateIds.edge_fields (default [] r.1) = map TemplateIds.edge_fields (default [] es).
Proof.
  destruct es as [es|]; simpl.
  - pose proof (renewEdges_spec uuid m es n) as Hspec.
    by destruct (TemplateIds.renewEdges uuid m es n).
  - split; [lia | done].
Qed.

Lemma renewSubflows_step (uuid : nat -> string) (m : gmap string string)
    (flows : option (list (string * TemplateIds.Subflow string))) (n : nat) :
  Inj (=) (=) uuid ->
  (forall i, uuid i <> "__proto__" /\ TemplateIds.arrayIndex (uuid i) = None) ->
  let r := match flows with
           | Some ls =>
               let '(ls', n') := TemplateIds.renewSubflows uuid m ls [] n in (Some ls', n')
           | None => (None, n)
           end in
  r.2 = (n + length (default [] flows))%nat
  /\ map fst (default [] r.1) = map uuid (seq n (length (default [] flows)))
  /\ Forall (fun entry : string * TemplateIds.Subflow TemplateIds.Ref =>
               TemplateIds.flow_id entry.2 = entry.1) (default [] r.1)
  /\ map (fun entry : string * TemplateIds.Subflow TemplateIds.Ref =>
            TemplateIds.flow_nodes entry.2) (default [] r.1)
     = map (map (TemplateIds.renamedNode m))
           (map (fun entry : string * TemplateIds.Subflow string =>
                   TemplateIds.flow_nodes entry.2) (default [] flows))
  /\ map (fun entry : string * TemplateIds.Subflow TemplateIds.Ref =>
            TemplateIds.flow_fields entry.2) (default [] r.1)
     = map (fun entry : string * TemplateIds.Subflow string =>
              TemplateIds.flow_fields entry.2) (default [] flows).
Proof.
  intros Hinj Hplain. destruct flows as [ls|]; simpl.
  - destruct (renewSubflows_spec uuid m ls [] n Hinj Hplain)
      as (new & Hout & Hcount & Hkeys & Hkeyed & Hnodes & Hfields).
    { intros i _ Hin. by apply elem_of_nil in Hin. }
    destruct (TemplateIds.renewSubflows uuid m ls [] n) as [ls' n']. simpl in *. subst ls'.
    rewrite map_map. by repeat split.
  - split; [lia | done].
Qed.

(** What the function makes of a template, step by step. *)
Lemma updateTemplateUUIDsInPlace_core (uuid : nat -> string)
    (template : TemplateIds.WorkflowState string) (n : nat) :
  Inj (=) (=) uuid ->
  (forall i, uuid i <> "__proto__" /\ TemplateIds.arrayIndex (uuid i) = None) ->
  NoDup (blockIds template) -> "__proto__" ∉ blockIds template ->
  let m := (TemplateIds.assignIds uuid (blockIds template) ∅ n).1 in
  let r := TemplateIds.updateTemplateUUIDsInPlace uuid template n in
  map Some (blockIds r.1) = map (fun k => m !! k) (blockIds template)
  /\ allIds r.1 = map uuid (seq n (r.2 - n))
  /\ connections r.1
     = map (fun c : string * string =>
              (TemplateIds.renamedIfMapped m c.1, TemplateIds.renamedIfMapped m c.2))
           (connections template)
  /\ loopNodes r.1 = map (map (TemplateIds.renamedNode m)) (loopNodes template)
  /\ parallelNodes r.1 = map (map (TemplateIds.renamedNode m)) (parallelNodes template)
  /\ keyedById r.1
  /\ blockContents r.1 = blockContents template
  /\ otherContents r.1 = otherContents template.
Proof.
  intros Hinj Hplain Hnodup Hproto m r. subst m r.
  unfold TemplateIds.updateTemplateUUIDsInPlace, allIds, blockIds, subBlockIds, edgeIds,
    loopIds, parallelIds, connections, loopNodes, parallelNodes, keyedById, blockContents,
    otherContents in *.
  set (entries := default [] (TemplateIds.blocks template)) in *.
  pose proof (assignIds_count uuid (map fst entries) ∅ n) as Hn1.
  pose proof (assignIds_ids uuid (map fst entries) n Hnodup Hproto) as Hids.
  destruct (TemplateIds.assignIds uuid (map fst entries) ∅ n) as [m n1].
  cbn [fst snd] in Hn1, Hids |- *. rewrite length_map in *.
  rewrite map_map in Hids.
  rewrite <- (map_map uuid Some) in Hids.
  destruct (renewBlocks_spec uuid m entries [] (map uuid (seq n (length entries))) n1)
    as (new & Hout & Hkeys & Hkeyed & Hfields & Hle & Hsub).
  { exact Hids. }
  { apply NoDup_fmap_2; [done | apply NoDup_seq]. }
  { intros id Hid. apply list_elem_of_fmap in Hid as (i & -> & _).
    destruct (Hplain i). repeat split; try done. apply not_elem_of_nil. }
  destruct (TemplateIds.renewBlocks uuid m entries [] n1) as [newBlocks n2].
  cbn [fst snd] in Hout, Hle, Hsub. rewrite app_nil_l in Hout. subst newBlocks.
  destruct (renewEdges_step uuid m (TemplateIds.edges template) n2)
    as (Hn3 & Heids & Hends & Hefields).
  destruct (match TemplateIds.edges template with
            | Some es => _
            | None => _
            end) as [newEdges n3].
  cbn [fst snd] in Hn3, Heids, Hends, Hefields.
  destruct (renewSubflows_step uuid m (TemplateIds.loops template) n3 Hinj Hplain)
    as (Hn4 & Hlids & Hlkeyed & Hlnodes & Hlfields).
  destruct (match TemplateIds.loops template with
            | Some ls => _
            | None => _
            end) as [newLoops n4].
  cbn [fst snd] in Hn4, Hlids, Hlkeyed, Hlnodes, Hlfields.
  destruct (renewSubflows_step uuid m (TemplateIds.parallels template) n4 Hinj Hplain)
    as (Hn5 & Hpids & Hpkeyed & Hpnodes & Hpfields).
  destruct (match TemplateIds.parallels template with
            | Some ps => _
            | None => _
            end) as [newParallels n5].
  cbn [fst snd] in Hn5, Hpids, Hpkeyed, Hpnodes, Hpfields.
  cbn [fst snd TemplateIds.blocks TemplateIds.edges TemplateIds.loops TemplateIds.parallels].
  change (default [] (Some new)) with new.
  split; [by rewrite Hkeys, <- Hids, map_map |]. split.
  - rewrite Hkeys, Hsub, Heids, Hlids, Hpids. subst n1 n3 n4 n5.
    set (B := length entries). set (E := length (default [] (TemplateIds.edges template))).
    set (L := length (default [] (TemplateIds.loops template))).
    set (P := length (default [] (TemplateIds.parallels template))).
    replace (n2 + E + L + P - n)%nat with (B + ((n2 - (n + B)) + (E + (L + P))))%nat by lia.
    rewrite <- !map_uuid_seq_app.
    by replace (n + B + (n2 - (n + B)))%nat with n2 by lia.
  - rewrite Hends, Hlnodes, Hpnodes, Hfields, Hefields, Hlfields, Hpfields.
    rewrite map_map. by repeat split.
Qed.

Lemma renamedNode_block (uuid : nat -> string) (keys : list string) (n : nat) (k : string) :
  NoDup keys -> "__proto__" ∉ keys -> k ∈ keys ->
  exists i, keys !! i = Some k
    /\ (TemplateIds.assignIds uuid keys ∅ n).1 !! k = Some (uuid (n + i)%nat).
Proof.
  intros Hnodup Hproto Hk. pose proof Hk as Hin. apply list_elem_of_lookup in Hk as [i Hi].
  exists i. split; [done |]. apply assignIds_lookup; [done | done |]. by intros ->.
Qed.

(** X26.  New ids keep the shape of the template.  Let [randomUUID] never
    return the same id twice, nor the empty string, nor [__proto__], nor an
    array index, and let no block of the template be stored under
    [__proto__].  Then there is a renaming of the block ids, one to one on
    the blocks of the template, such that the new blocks are the old ones
    under their new ids, in order; every edge connects the renamed end points
    of the old edge, and the loops and parallels hold the renamed nodes;
    every block, loop and parallel is stored under the id it carries; and
    what the blocks, their sub-blocks, the edges, the loops and the parallels
    hold besides their ids is as before.  A name that is no block of the
    template stays as it is -- unless [Object.prototype] defines it: then the
    end point or node becomes that member of the prototype. *)
Theorem updateTemplateUUIDsInPlace_renames (uuid : nat -> string)
    (template : TemplateIds.WorkflowState string) (n : nat) :
  Inj (=) (=) uuid -> (forall i, uuid i <> "") ->
  (forall i, uuid i <> "__proto__" /\ TemplateIds.arrayIndex (uuid i) = None) ->
  NoDup (blockIds template) -> "__proto__" ∉ blockIds template ->
  exists rho : string -> TemplateIds.Ref,
    (forall k k', k ∈ blockIds template -> k' ∈ blockIds template -> rho k = rho k' -> k = k')
    /\ (forall k, k ∉ blockIds template -> rho k = unmapped k)
    /\ map TemplateIds.RefId
           (blockIds (TemplateIds.updateTemplateUUIDsInPlace uuid template n).1)
       = map rho (blockIds template)
    /\ blockContents (TemplateIds.updateTemplateUUIDsInPlace uuid template n).1
       = blockContents template
    /\ otherContents (TemplateIds.updateTemplateUUIDsInPlace uuid template n).1
       = otherContents template
    /\ connections (TemplateIds.updateTemplateUUIDsInPlace uuid template n).1
       = map (fun c : string * string => (rho c.1, rho c.2)) (connections template)
    /\ loopNodes (TemplateIds.updateTemplateUUIDsInPlace uuid template n).1
       = map (map rho) (loopNodes template)
    /\ parallelNodes (TemplateIds.updateTemplateUUIDsInPlace uuid template n).1
       = map (map rho) (parallelNodes template)
    /\ keyedById (TemplateIds.updateTemplateUUIDsInPlace uuid template n).1.
Proof.
  intros Hinj Hnonempty Hplain Hnodup Hproto.
  destruct (updateTemplateUUIDsInPlace_core uuid template n Hinj Hplain Hnodup Hproto)
    as (Hblocks & _ & Hends & Hloops & Hparallels & Hkeyed & Hcontents & Hother).
  set (m := (TemplateIds.assignIds uuid (blockIds template) ∅ n).1) in *.
  assert (Hblock : forall k, k ∈ blockIds template ->
            exists i, m !! k = Some (uuid i)
              /\ TemplateIds.renamedNode m k = TemplateIds.RefId (uuid i)
              /\ TemplateIds.renamedIfMapped m k = TemplateIds.RefId (uuid i)).
  { intros k Hk. destruct (renamedNode_block uuid _ n k Hnodup Hproto Hk) as (i & _ & Hi).
    fold m in Hi. exists (n + i)%nat. split; [done |].
    unfold TemplateIds.renamedNode, TemplateIds.renamedIfMapped, TemplateIds.plainGet.
    rewrite Hi. split; [done |].
    by replace (String.eqb (uuid (n + i)%nat) "") with false
      by (symmetry; apply String.eqb_neq, Hnonempty). }
  assert (Hfree : forall k, k ∉ blockIds template ->
            TemplateIds.renamedNode m k = unmapped k
            /\ TemplateIds.renamedIfMapped m k = unmapped k).
  { intros k Hk.
    unfold TemplateIds.renamedNode, TemplateIds.renamedIfMapped, TemplateIds.plainGet, unmapped.
    subst m. rewrite assignIds_other by done. rewrite lookup_empty.
    by destruct (bool_decide (k ∈ TemplateIds.objectPrototypeNames)). }
  assert (Hsame : forall k, TemplateIds.renamedIfMapped m k = TemplateIds.renamedNode m k).
  { intros k. destruct (decide (k ∈ blockIds template)) as [Hk | Hk].
    - destruct (Hblock k Hk) as (i & _ & -> & ->). done.
    - destruct (Hfree k Hk) as [-> ->]. done. }
  exists (TemplateIds.renamedNode m). repeat split; try done.
  - intros k k' Hk Hk' Heq.
    destruct (renamedNode_block uuid _ n k Hnodup Hproto Hk) as (i & Hi & Hmi).
    destruct (renamedNode_block uuid _ n k' Hnodup Hproto Hk') as (j & Hj & Hmj).
    fold m in Hmi, Hmj.
    unfold TemplateIds.renamedNode, TemplateIds.plainGet in Heq.
    rewrite Hmi, Hmj in Heq. injection Heq as Heq.
    apply Hinj in Heq. assert (i = j) as -> by lia. congruence.
  - intros k Hk. by apply Hfree.
  - apply list_eq. intros i.
    apply (f_equal (fun l => l !! i)) in Hblocks. rewrite !list_lookup_fmap in *.
    destruct (blockIds template !! i) as [k|] eqn:Hk; simpl in *.
    + destruct (Hblock k) as (j & Hj & -> & _); [by eapply list_elem_of_lookup_2 |].
      rewrite Hj in Hblocks.
      destruct (blockIds (TemplateIds.updateTemplateUUIDsInPlace uuid template n).1 !! i);
        simpl in *; congruence.
    + destruct (blockIds (TemplateIds.updateTemplateUUIDsInPlace uuid template n).1 !! i);
        simpl in *; congruence.
  - rewrite Hends. apply map_ext. intros [s t]. simpl. by rewrite !Hsame.
  - apply Hkeyed.
  - apply Hkeyed.
  - apply Hkeyed.
Qed.

(** X27.  No id is handed out twice.  Let no block of the template be stored
    under [__proto__], and let [randomUUID] never return the same id twice,
    nor [__proto__], nor an array index.  Then the ids the function writes --
    of the blocks, of their sub-blocks, of the edges, of the loops and of the
    parallels, in this order -- are the results of its calls of [randomUUID],
    one call each and in the order of the calls, so that all these ids are
    distinct; in particular a loop or parallel is never stored under the new
    id of a block, also when it was stored under the old id of its block
    before. *)
Theorem updateTemplateUUIDsInPlace_fresh (uuid : nat -> string)
    (template : TemplateIds.WorkflowState string) (n : nat) :
  Inj (=) (=) uuid ->
  (forall i, uuid i <> "__proto__" /\ TemplateIds.arrayIndex (uuid i) = None) ->
  NoDup (blockIds template) -> "__proto__" ∉ blockIds template ->
  allIds (TemplateIds.updateTemplateUUIDsInPlace uuid template n).1
  = map uuid (seq n ((TemplateIds.updateTemplateUUIDsInPlace uuid template n).2 - n))
  /\ NoDup (allIds (TemplateIds.updateTemplateUUIDsInPlace uuid template n).1)
  /\ forall id,
       id ∈ loopIds (TemplateIds.updateTemplateUUIDsInPlace uuid template n).1
       \/ id ∈ parallelIds (TemplateIds.updateTemplateUUIDsInPlace uuid template n).1 ->
       id ∉ blockIds (TemplateIds.updateTemplateUUIDsInPlace uuid template n).1.
Proof.
  intros Hinj Hplain Hnodup Hproto.
  destruct (updateTemplateUUIDsInPlace_core uuid template n Hinj Hplain Hnodup Hproto)
    as (_ & Hall & _).
  assert (Hdistinct : NoDup (allIds (TemplateIds.updateTemplateUUIDsInPlace uuid template n).1)).
  { rewrite Hall. apply NoDup_fmap_2; [done | apply NoDup_seq]. }
  split; [exact Hall |]. split; [exact Hdistinct |].
  intros id Hflow Hblock. unfold allIds in Hdistinct.
  apply NoDup_app in Hdistinct as (_ & Hapart & _).
  apply (Hapart id Hblock). rewrite !elem_of_app. destruct Hflow; auto.
Qed.

Lemma sample_uuid_inj : Inj (=) (=) TemplateSamples.uuid.
Proof.
  intros i j Heq. unfold TemplateSamples.uuid in Heq.
  apply append_inj_l in Heq. by apply (inj pretty).
Qed.

Lemma sample_uuid_plain (i : nat) :
  TemplateSamples.uuid i <> "__proto__"
  /\ TemplateIds.arrayIndex (TemplateSamples.uuid i) = None.
Proof. unfold TemplateSamples.uuid. split; [discriminate | reflexivity]. Qed.

Lemma updateTemplateUUIDsInPlace_renames_witness :
  keyedById (TemplateIds.updateTemplateUUIDsInPlace TemplateSamples.uuid
               TemplateSamples.template 0).1
  /\ connections (TemplateIds.updateTemplateUUIDsInPlace TemplateSamples.uuid
                    TemplateSamples.template 0).1
     = [(TemplateIds.RefId "uuid-0", TemplateIds.RefId "uuid-1")]
  /\ loopNodes (TemplateIds.updateTemplateUUIDsInPlace TemplateSamples.uuid
                  TemplateSamples.template 0).1
     = [[TemplateIds.RefId "uuid-2"]].
Proof.
  destruct (updateTemplateUUIDsInPlace_renames TemplateSamples.uuid TemplateSamples.template 0)
    as (rho & _ & _ & _ & _ & _ & _ & _ & _ & Hkeyed).
  - exact sample_uuid_inj.
  - intros i. unfold TemplateSamples.uuid. discriminate.
  - exact sample_uuid_plain.
  - apply (bool_decide_unpack _). vm_compute. reflexivity.
  - apply (bool_decide_unpack _). vm_compute. reflexivity.
  - split; [exact Hkeyed |]. split; vm_compute; reflexivity.
Defined.

Lemma updateTemplateUUIDsInPlace_fresh_witness :
  allIds (TemplateIds.updateTemplateUUIDsInPlace TemplateSamples.uuid
            TemplateSamples.template 0).1
  = ["uuid-0"; "uuid-1"; "uuid-2"; "uuid-3"; "uuid-4"; "uuid-5"]
  /\ blockIds (TemplateIds.updateTemplateUUIDsInPlace TemplateSamples.uuid
                 TemplateSamples.template 0).1
     = ["uuid-0"; "uuid-1"; "uuid-2"]
  /\ loopIds (TemplateIds.updateTemplateUUIDsInPlace TemplateSamples.uuid
                TemplateSamples.template 0).1
     = ["uuid-5"].
Proof.
  destruct (updateTemplateUUIDsInPlace_fresh TemplateSamples.uuid TemplateSamples.template 0)
    as (Hall & _ & _).
  - exact sample_uuid_inj.
  - exact sample_uuid_plain.
  - apply (bool_decide_unpack _). vm_compute. reflexivity.
  - apply (bool_decide_unpack _). vm_compute. reflexivity.
  - split; [etrans; [exact Hall |] |]; [| split]; vm_compute; reflexivity.
Defined.

(** Where the preconditions on the template fail: a block stored under
    [__proto__] gets no new id.  Its [id] becomes [Object.prototype], it is
    stored under the text of that object, and an edge that ends at
    [constructor] is made to end at the function of that name. *)
Example updateTemplateUUIDsInPlace_prototype_names :
  let r := (TemplateIds.updateTemplateUUIDsInPlace TemplateSamples.uuid
              TemplateSamples.odd 0).1 in
  blockIds r = ["[object Object]"]
  /\ map (fun entry : string * TemplateIds.Block TemplateIds.Ref =>
            TemplateIds.block_id entry.2) (default [] (TemplateIds.blocks r))
     = [TemplateIds.RefMember "__proto__"]
  /\ connections r
     = [(TemplateIds.RefMember "__proto__", TemplateIds.RefMember "constructor")].
Proof. vm_compute. by repeat split. Qed.

(** Property names that are array indices, and some that are not. *)
Example arrayIndex_samples :
  map TemplateIds.arrayIndex ["0"; "7"; "42"; "4294967294"; "4294967295"; "07"; "-1"; "1e3"; ""]
  = [Some 0%N; Some 7%N; Some 42%N; Some 4294967294%N; None; None; None; None; None].
Proof. vm_compute. reflexivity. Qed.
